(** * The rfx installer's archive extraction engine (installer/archive.c)

    A shallow embedding of [archive.c] and the properties of its byte
    source, archive parser and filesystem materializer.

    Conventions of the embedding
    - bytes are [Byte.byte]; a C string ([char*]) is a [string], the bytes
      of its buffer up to the first NUL ([c_str]);
    - [int] values are [Z]. The one conversion the code relies on, from
      the [unsigned] value [b1|b2<<8|b3<<16|b4<<24] to [int], is written
      out ([int_of_unsigned]); the counters [pos] of the two loops are not
      wrapped, they stay far below the [int] limit on any input that fits
      in memory. A one-byte read into an [unsigned] sets its low byte
      (little-endian host, as on every platform the installer targets);
    - a [reader_t] is a record threaded through the calls that read from
      it; the status callbacks ([status_t]) and the host's filesystem
      calls are recorded, in order, in the [log] of a [world];
    - the filesystem is a finite map from names to nodes. The host says
      under which name the filesystem holds the object a path leads to
      ([resolve]: two spellings of one path share a name), and may
      refuse any path ([denied]); bytes handed to [fwrite] count as file
      content at once (the buffering of stdio is not modelled);
    - output to stdout and stderr ([printf], [perror], [msg]) and [free]
      are not observable here and are left out;
    - the places where the C code has no defined behaviour are outside
      the model: a negative length passed to the mem reader, a directory
      part longer than [basenamebuf], a message longer than its [sprintf]
      buffer. Uninitialised memory that the code does read (the name
      buffer after a short read) is a parameter of the host;
    - the two loops are written with a fuel argument; [write_file] and
      [unpack_archive] pass enough of it ([copy_chunks_total],
      [unpack_archive_total]). *)

From Stdlib Require Import ZArith List Lia Bool.
From Stdlib Require Import Strings.String Strings.Ascii Strings.Byte.
From stdpp Require Import base gmap strings list fin_maps pretty.

Open Scope Z_scope.

(* ------------------------------------------------------------------ *)
(** ** Bytes and C strings *)

Definition byte_val (b : byte) : Z := Z.of_N (Byte.to_N b).

(** The bytes of a buffer that precede its first NUL. *)
Fixpoint until_nul (buf : list byte) : list byte :=
  match buf with
  | [] => []
  | b :: rest => if Byte.eqb b x00 then [] else b :: until_nul rest
  end.

(** A [char] buffer read as a NUL-terminated string. *)
Definition c_str (buf : list byte) : string :=
  string_of_list_byte (until_nul buf).

(* ------------------------------------------------------------------ *)
(** ** reader_t and the mem reader *)

(** [struct memread_t]. *)
Record memread_t := mk_memread {
  mr_data : list byte;
  mr_length : Z
}.

(** [struct _reader]: the [read]/[dealloc] function pointers are fixed by
    the constructor that built the reader; [rd_internal] and [rd_pos] are
    the fields [internal] and [pos]. *)
Record reader_t := mk_reader {
  rd_internal : memread_t;
  rd_pos : Z
}.

(** [reader_memread(reader, data, _len)]: returns the count, the bytes
    copied into [data] by [memcpy], and the reader with its cursor
    advanced. *)
Definition reader_memread (reader : reader_t) (_len : Z)
  : Z * list byte * reader_t :=
  let mr := rd_internal reader in
  let len :=
    if mr_length mr - rd_pos reader <? _len
    then mr_length mr - rd_pos reader
    else _len in
  let copied :=
    firstn (Z.to_nat len) (skipn (Z.to_nat (rd_pos reader)) (mr_data mr)) in
  (len, copied, mk_reader mr (rd_pos reader + len)).

(** [reader_init_memreader(newdata, newlength)]. *)
Definition reader_init_memreader (newdata : list byte) (newlength : Z)
  : reader_t :=
  mk_reader (mk_memread newdata newlength) 0.

(** The bytes the reader has not handed out yet. *)
Definition remaining (r : reader_t) : list byte :=
  skipn (Z.to_nat (rd_pos r)) (mr_data (rd_internal r)).

(** A reader is well formed when its declared length is the length of its
    buffer and the cursor lies inside it. *)
Definition reader_wf (r : reader_t) : Prop :=
  mr_length (rd_internal r) = Z.of_nat (length (mr_data (rd_internal r)))
  /\ 0 <= rd_pos r <= mr_length (rd_internal r).

(** [at_stream r s]: [r] is well formed and is about to deliver [s]. *)
Definition at_stream (r : reader_t) (s : list byte) : Prop :=
  reader_wf r /\ remaining r = s.

(* ------------------------------------------------------------------ *)
(** ** The host: status sink, filesystem, build configuration *)

(** What a path names on the destination filesystem. *)
Inductive node :=
| Dir
| File (content : list byte).

(** The calls made on the status sink [f] ([status_t], declared in
    archive.h: error, message, status, new_file, new_directory) and on the
    host's filesystem, in the order the code makes them. *)
Inductive event :=
| f_error (msg : string)
| f_message (msg : string)
| f_status (pos num : Z)
| f_new_file (path : string)
| f_new_directory (path : string)
| sys_isdir (path : string)
| sys_mkdir (path : string)
| sys_fopen (path : string)
| sys_fwrite (path : string) (bytes : list byte)
| sys_fclose (path : string).

Record world := mk_world {
  fs : gmap string node;
  log : list event
}.

(** Everything [archive.c] takes from outside the file.
    - [WIN32]: the preprocessor symbol;
    - [decompress]: the bytes the decompression reader ([inflate] or
      [LzmaDecode], third-party code) delivers for a compressed buffer,
      [None] when [reader_init_lzma] returns 0;
    - [concatPaths]: utils.c, declared in utils.h;
    - [denied]: the paths on which the host refuses [mkdir] and [fopen]
      (permissions, missing parent, ...);
    - [resolve]: the name under which the filesystem holds what a path
      leads to. Paths with the same name are the same file or directory
      (a trailing separator, the letter case on a filesystem that
      ignores it, a dot segment, ...); the identity on a filesystem for
      which every spelling is a name of its own;
    - [uninit_char], [uninit_block]: the contents of an uninitialised
      [unsigned char] and of a block fresh from [malloc]. *)
Record host := mk_host {
  WIN32 : bool;
  decompress : list byte -> option (list byte);
  concatPaths : string -> string -> string;
  denied : string -> bool;
  resolve : string -> string;
  uninit_char : byte;
  uninit_block : nat -> list byte
}.

Definition backslash : ascii := "092"%char.
Definition dquote : string := String "034"%char EmptyString.

(** The platform's path separator (utils.h: [path_seperator]). *)
Definition path_seperator (h : host) : ascii :=
  if WIN32 h then backslash else "/"%char.

(** Modelled from the spec: [concatPaths] (utils.c is not part of the
    sources at hand) joins the entry's name to the destination root with
    the platform separator. *)
Definition concatPaths_spec (sep : ascii) (base add : string) : string :=
  base +:+ String sep add.

Definition emit (e : event) (w : world) : world :=
  mk_world (fs w) (log w ++ [e]).

(** The filesystem holds a directory under [name]. *)
Definition is_directory (w : world) (name : string) : bool :=
  match fs w !! name with
  | Some Dir => true
  | _ => false
  end.

Section Host.

Variable h : host.

(** [PathIsDirectoryA(path)], or [stat(path,&st)>=0 && S_ISDIR(st.st_mode)]. *)
Definition path_is_directory (path : string) (w : world) : bool * world :=
  (is_directory w (resolve h path), emit (sys_isdir path) w).

(** [mkdir(path,0755)]: 0 on success, -1 when the host refuses, the path
    is empty or the path exists already. *)
Definition mkdir (path : string) (w : world) : Z * world :=
  let w := emit (sys_mkdir path) w in
  if denied h path || String.eqb path "" then (-1, w)
  else match fs w !! resolve h path with
       | Some _ => (-1, w)
       | None => (0, mk_world (<[resolve h path := Dir]> (fs w)) (log w))
       end.

(** [fopen] in mode wb: [true] for a stream on the truncated file,
    [false] for NULL. *)
Definition fopen_wb (filename : string) (w : world) : bool * world :=
  let w := emit (sys_fopen filename) w in
  if denied h filename || String.eqb filename ""
     || is_directory w (resolve h filename)
  then (false, w)
  else (true, mk_world (<[resolve h filename := File []]> (fs w)) (log w)).

(** [fwrite(buf, l, 1, fo)] on the stream opened on [filename]. *)
Definition fwrite (filename : string) (buf : list byte) (w : world) : world :=
  let w := emit (sys_fwrite filename buf) w in
  match fs w !! resolve h filename with
  | Some (File c) =>
      mk_world (<[resolve h filename := File (c ++ buf)]> (fs w)) (log w)
  | _ => w
  end.

Definition fclose (filename : string) (w : world) : world :=
  emit (sys_fclose filename) w.

(* ------------------------------------------------------------------ *)
(** ** create_directory, get_directory, write_file *)

(** The loop that steps over each leading dot followed by a slash or a
    backslash ([path+=2]). *)
Fixpoint skip_dot_slash (path : string) : string :=
  match path with
  | String c0 (String c1 rest) =>
      if Ascii.eqb c0 "." && (Ascii.eqb c1 "/" || Ascii.eqb c1 backslash)
      then skip_dot_slash rest
      else path
  | _ => path
  end.

(** The test that opens [create_directory]: [path] is NULL ([None]), or
    empty, or [path[0]] is a dot and [path[1]] is the terminator or a
    dot. *)
Definition nothing_to_do (path : option string) : bool :=
  match path with
  | None => true
  | Some EmptyString => true
  | Some (String c0 rest) =>
      Ascii.eqb c0 "." &&
      match rest with
      | EmptyString => true
      | String c1 _ => Ascii.eqb c1 "."
      end
  end.

Definition create_directory (path : option string) (w : world) : Z * world :=
  if nothing_to_do path then (1, w) (* nothing to do *)
  else
    let path := skip_dot_slash (default EmptyString path) in
    let '(isdir, w) := path_is_directory path w in
    if isdir then (1, w) (* already exists *)
    else
      let '(rc, w) := mkdir path w in
      if rc <? 0 then
        (0, emit (f_error ("create directory " +:+ dquote +:+ path
                           +:+ dquote +:+ " FAILED")) w)
      else (1, w).

(** [strrchr(s, c)] as the offset of the last [c] in [s]. *)
Fixpoint strrchr (s : string) (c : ascii) : option nat :=
  match s with
  | EmptyString => None
  | String a rest =>
      match strrchr rest c with
      | Some i => Some (S i)
      | None => if Ascii.eqb a c then Some O else None
      end
  end.

(** [get_directory(filename)]: the part before the last separator of
    either kind (copied into [basenamebuf], which holds 256 bytes). *)
Definition get_directory (filename : string) : string :=
  let r1 := strrchr filename backslash in
  let r2 := strrchr filename "/" in
  let r := match r1, r2 with
           | Some i, Some j => Some (if (j <? i)%nat then i else j)
           | Some i, None => Some i
           | None, _ => r2
           end in
  match r with
  | None => EmptyString
  | Some n => substring 0 n filename
  end.

(** The loop over [p] in [write_file], which overwrites each slash of
    the copied file name with a backslash. *)
Fixpoint slashes_to_backslashes (p : string) : string :=
  match p with
  | EmptyString => EmptyString
  | String c rest =>
      String (if Ascii.eqb c "/" then backslash else c)
             (slashes_to_backslashes rest)
  end.

(** The text reported when the input delivers fewer bytes than asked. *)
Definition short_read_message (pos n : Z) (filename : string) : string :=
  "Couldn't read byte " +:+ pretty (pos + n) +:+ " (pos+" +:+ pretty n
  +:+ ") from input buffer for file " +:+ filename.

(** The copy loop of [write_file] together with the statements after it.
    [fuel] bounds the number of rounds; [write_file] passes enough. *)
Fixpoint write_file_loop (fuel : nat) (filename : string) (r : reader_t)
    (len pos : Z) (w : world) : option (Z * reader_t * world) :=
  if pos <? len then
    match fuel with
    | O => None
    | S fuel =>
        let l := if pos + 4096 >? len then len - pos else 4096 in
        let '(n, buf, r) := reader_memread r l in
        if n <? l then
          Some (0, r, emit (f_error (short_read_message pos n filename)) w)
        else write_file_loop fuel filename r len (pos + l)
                             (fwrite filename buf w)
    end
  else Some (1, r, fclose filename w).

Definition write_file (filename : string) (r : reader_t) (len : Z) (w : world)
  : option (Z * reader_t * world) :=
  let filename := skip_dot_slash filename in
  let filename := slashes_to_backslashes filename in
  let w := emit (f_new_file filename) w in
  let '(fo, w) := fopen_wb filename w in
  if negb fo then
    Some (0, r, emit (f_error ("Couldn't create file " +:+ filename)) w)
  else write_file_loop (Z.to_nat len) filename r len 0 w.

(* ------------------------------------------------------------------ *)
(** ** unpack_archive *)

(** The conversion of an [unsigned] to [int] (32 bits, two's complement). *)
Definition int_of_unsigned (u : Z) : Z :=
  if u <? 2 ^ 31 then u else u - 2 ^ 32.

(** One [l+=z->read(z, &b, 1)] on an [unsigned b=0]: the count, the value
    of [b] afterwards (the byte lands in the low byte of [b]), the
    reader. *)
Definition read_unsigned_byte (z : reader_t) : Z * Z * reader_t :=
  let '(n, buf, z) := reader_memread z 1 in
  (n, match buf with b :: _ => byte_val b | [] => 0 end, z).

(** The four one-byte reads into [b1..b4]; returns [l] and
    [b1|b2<<8|b3<<16|b4<<24] as an [int]. *)
Definition read_int (z : reader_t) : Z * Z * reader_t :=
  let '(n1, b1, z) := read_unsigned_byte z in
  let '(n2, b2, z) := read_unsigned_byte z in
  let '(n3, b3, z) := read_unsigned_byte z in
  let '(n4, b4, z) := read_unsigned_byte z in
  (n1 + n2 + n3 + n4,
   int_of_unsigned
     (Z.lor (Z.lor (Z.lor b1 (Z.shiftl b2 8)) (Z.shiftl b3 16))
            (Z.shiftl b4 24)),
   z).

(** The statements under the comment "read filename": the length byte,
    the [malloc]ed buffer, the read into it and its terminator. Neither
    read is checked. *)
Definition read_filename (z : reader_t) : string * reader_t :=
  let '(_, lenbuf, z) := reader_memread z 1 in
  let filename_len :=
    match lenbuf with b :: _ => b | [] => uninit_char h end in
  let flen := Z.to_nat (byte_val filename_len) in
  let block := uninit_block h (S flen) in
  let '(_, name, z) := reader_memread z (byte_val filename_len) in
  let block := name ++ skipn (length name) block in
  let block := <[flen := x00]> block in
  (c_str block, z).

(** The name buffer when the stream ends at or inside the name: the bytes
    that were read, then whatever the fresh block held, then the
    terminator. *)
Definition truncated_name (filename_len : byte) (name : list byte)
  : list byte :=
  let flen := Z.to_nat (byte_val filename_len) in
  <[flen := x00]> (name ++ skipn (length name) (uninit_block h (S flen))).

(** The text of the message reported for each entry. *)
Definition entry_message (id filename : string) (len : Z) : string :=
  "[" +:+ id +:+ "] " +:+ filename +:+ " (" +:+ pretty len +:+ " bytes)".

(** The [if(!strcmp(id, "DIR")) ... else ...] that ends the loop body:
    the entry is handed to [create_directory] and [write_file]. The
    result is 0 where the code returns 0, and 1 where it goes on to the
    next round. *)
Definition dispatch_entry (id filename : string) (len : Z) (z : reader_t)
    (w : world) : option (Z * reader_t * world) :=
  if String.eqb id "DIR" then
    let w := emit (f_new_directory filename) w in
    let '(ok, w) := create_directory (Some filename) w in
    if ok =? 0 then Some (0, z, w) else Some (1, z, w)
  else
    let '(ok, w) := create_directory (Some (get_directory filename)) w in
    if ok =? 0 then Some (0, z, w)
    else
      match write_file filename z len w with
      | None => None
      | Some (ok, z, w) => if ok =? 0 then Some (0, z, w) else Some (1, z, w)
      end.

(** The [while(1)] loop of [unpack_archive] and the statements after it.
    [None] only when [fuel] runs out. *)
Fixpoint unpack_loop (fuel : nat) (destdir : string) (num : Z)
    (z : reader_t) (pos : Z) (w : world) : option (Z * world) :=
  match fuel with
  | O => None
  | S fuel =>
      (* read id *)
      let '(n, id, z) := reader_memread z 3 in
      if n <? 3 then Some (0, emit (f_error "Unexpected end of archive") w)
      else
        let id := c_str (id ++ [x00]) in
        if String.eqb id "END" then
          Some (1, emit (f_message "Finishing Installation") w)
        else
          let '(l, len, z) := read_int z in
          if l <? 4 then Some (0, w)
          else
            (* read filename *)
            let '(filename, z) := read_filename z in
            let filename := skip_dot_slash filename in
            let filename := concatPaths h destdir filename in
            let pos := pos + 1 in
            let w := emit (f_status pos num) w in
            let w := emit (f_message (entry_message id filename len)) w in
            match dispatch_entry id filename len z w with
            | None => None
            | Some (ok, z, w) =>
                if ok =? 0 then Some (0, w)
                else unpack_loop fuel destdir num z pos w
            end
  end.

(** Modelled from the spec: the decompression reader [z]
    ([reader_init_zlibinflate] over the mem reader, or [reader_init_lzma];
    the decoders themselves are third-party code). It honours the read
    contract of every stream, so it is represented by a mem reader over
    the decoded bytes; [None] is the null reader. *)
Definition reader_init_decompress (data : list byte) : option reader_t :=
  match decompress h data with
  | None => None
  | Some decoded =>
      Some (reader_init_memreader decoded (Z.of_nat (length decoded)))
  end.

(** [unpack_archive(data, len, destdir, f)], with [len] the length of
    [data]. *)
Definition unpack_archive (data : list byte) (destdir : string) (w : world)
  : option (Z * world) :=
  match reader_init_decompress data with
  | None =>
      Some (0, emit (f_error "Couldn't decompress installation files") w)
  | Some z =>
      let w := emit (f_message "Creating installation directory") w in
      let '(ok, w) := create_directory (Some destdir) w in
      if ok =? 0 then Some (0, w)
      else
        let '(l, num, z) := read_int z in
        if l <? 4 then Some (0, w)
        else
          let w := emit (f_status 0 num) w in
          let w := emit (f_message "Uncompressing files...") w in
          unpack_loop (S (length (remaining z))) destdir num z 0 w
  end.

End Host.

(* ------------------------------------------------------------------ *)
(** ** Concrete hosts and the trace projections used in the statements *)

(** A host with the decompression backend [dec], that refuses nothing,
    for which every spelling of a path is a name of its own, and whose
    fresh memory reads as zero. *)
Definition host_with (win32 : bool) (dec : list byte -> option (list byte))
  : host :=
  mk_host win32 dec
          (concatPaths_spec (if win32 then backslash else "/"%char))
          (fun _ => false) (fun path => path) x00 (fun n => repeat x00 n).

(** The same with a backend that stores the bytes as they are. *)
Definition plain_host (win32 : bool) : host :=
  host_with win32 (fun data => Some data).

(** A name without regard to the case of its letters. *)
Definition fold_case_ascii (c : ascii) : ascii :=
  let n := nat_of_ascii c in
  if ((65 <=? n) && (n <=? 90))%nat then ascii_of_nat (n + 32) else c.

Fixpoint fold_case (s : string) : string :=
  match s with
  | EmptyString => EmptyString
  | String c rest => String (fold_case_ascii c) (fold_case rest)
  end.

(** A WIN32 host whose filesystem ignores the case of letters: two paths
    that differ in case only are names of the same file. *)
Definition case_blind_host : host :=
  mk_host true (fun data => Some data) (concatPaths_spec backslash)
          (fun _ => false) fold_case x00 (fun n => repeat x00 n).

Definition empty_world : world := mk_world ∅ [].

Definition is_error (e : event) : bool :=
  match e with f_error _ => true | _ => false end.

(** The [(pos, num)] arguments of the status calls of a trace, in order. *)
Fixpoint status_calls (t : list event) : list (Z * Z) :=
  match t with
  | [] => []
  | f_status p n :: t => (p, n) :: status_calls t
  | _ :: t => status_calls t
  end.

(** The archive of the concrete scenario: entry_count 1, one DIR entry
    named sub, END. *)
Definition scenario_archive : list byte :=
  [x01; x00; x00; x00] ++ list_byte_of_string "DIR" ++ [x00; x00; x00; x00]
  ++ [x03] ++ list_byte_of_string "sub" ++ list_byte_of_string "END".

(** The [f_error] calls of a trace. *)
Definition errors (t : list event) : list event := filter is_error t.

(* ------------------------------------------------------------------ *)
(** ** The wire form of an archive *)

(** The value the code computes from the four bytes of a size field. *)
Definition int_of_bytes (b : list byte) : Z :=
  match b with
  | [b1; b2; b3; b4] =>
      int_of_unsigned
        (Z.lor (Z.lor (Z.lor (byte_val b1) (Z.shiftl (byte_val b2) 8))
                      (Z.shiftl (byte_val b3) 16))
               (Z.shiftl (byte_val b4) 24))
  | _ => 0
  end.

(** An entry as it lies in the stream: tag, size field, name length,
    name, payload. *)
Record entry := mk_entry {
  e_id : list byte;
  e_size : list byte;
  e_name_len : byte;
  e_name : list byte;
  e_payload : list byte
}.

Definition entry_tag (e : entry) : string := c_str (e_id e ++ [x00]).

(** An entry the parser reads back whole: a 3-byte tag other than END, a
    4-byte size field, a name of the announced length, and a payload of
    exactly [size] bytes, none for a DIR entry. *)
Definition valid_entry (e : entry) : Prop :=
  length (e_id e) = 3%nat
  /\ entry_tag e <> "END"
  /\ length (e_size e) = 4%nat
  /\ length (e_name e) = Z.to_nat (byte_val (e_name_len e))
  /\ length (e_payload e)
     = if String.eqb (entry_tag e) "DIR" then O
       else Z.to_nat (int_of_bytes (e_size e)).

Definition encode_entry (e : entry) : list byte :=
  e_id e ++ e_size e ++ [e_name_len e] ++ e_name e ++ e_payload e.

Definition encode_entries (es : list entry) : list byte :=
  flat_map encode_entry es.

(** The decoded stream of an archive: header, entries, END. *)
Definition encode_archive (header : list byte) (es : list entry) : list byte :=
  header ++ encode_entries es ++ list_byte_of_string "END".

(** The name the loop body builds for an entry of [destdir]. *)
Definition entry_path (h : host) (destdir : string) (name : list byte)
  : string :=
  concatPaths h destdir (skip_dot_slash (c_str name)).

(** The status calls [(first, num)], ..., [(first+count-1, num)]. *)
Fixpoint status_run (first : Z) (count : nat) (num : Z) : list (Z * Z) :=
  match count with
  | O => []
  | S count => (first, num) :: status_run (first + 1) count num
  end.

(** The entry of the scenario archive. *)
Definition scenario_entry : entry :=
  mk_entry (list_byte_of_string "DIR") [x00; x00; x00; x00] x03
           (list_byte_of_string "sub") [].

(** An archive with a directory and a file in it: DIR sub, then an entry
    tagged FIL of 3 bytes named sub/a. *)
Definition two_entry_archive : list byte :=
  [x02; x00; x00; x00]
  ++ list_byte_of_string "DIR" ++ [x00; x00; x00; x00] ++ [x03]
  ++ list_byte_of_string "sub"
  ++ list_byte_of_string "FIL" ++ [x03; x00; x00; x00] ++ [x05]
  ++ list_byte_of_string "sub/a" ++ list_byte_of_string "abc"
  ++ list_byte_of_string "END".

(** The archive of the scenario without the size field of its DIR entry. *)
Definition scenario_without_size : list byte :=
  [x01; x00; x00; x00] ++ list_byte_of_string "DIR"
  ++ [x03] ++ list_byte_of_string "sub" ++ list_byte_of_string "END".

(** An archive of two file entries, the second of which lies below the
    name of the first: x, then x/y. *)
Definition file_x : entry :=
  mk_entry (list_byte_of_string "FIL") [x01; x00; x00; x00] x01
           (list_byte_of_string "x") (list_byte_of_string "1").

Definition file_x_y : entry :=
  mk_entry (list_byte_of_string "FIL") [x01; x00; x00; x00] x03
           (list_byte_of_string "x/y") (list_byte_of_string "2").

Definition file_below_file_archive : list byte :=
  encode_archive [x02; x00; x00; x00] [file_x; file_x_y].

(** An archive of three files, the first two under names that differ in
    case only: A, a and b. *)
Definition file_upper_a : entry :=
  mk_entry (list_byte_of_string "FIL") [x01; x00; x00; x00] x01
           (list_byte_of_string "A") (list_byte_of_string "1").

Definition file_lower_a : entry :=
  mk_entry (list_byte_of_string "FIL") [x01; x00; x00; x00] x01
           (list_byte_of_string "a") (list_byte_of_string "2").

Definition file_b : entry :=
  mk_entry (list_byte_of_string "FIL") [x01; x00; x00; x00] x01
           (list_byte_of_string "b") (list_byte_of_string "3").

Definition three_files_archive : list byte :=
  encode_archive [x03; x00; x00; x00] [file_upper_a; file_lower_a; file_b].

(** The scenario cut inside the size field of its entry. *)
Definition scenario_cut_in_size : list byte :=
  [x01; x00; x00; x00] ++ list_byte_of_string "DIR" ++ [x00; x00].

(* ------------------------------------------------------------------ *)
(** ** The copy loop of write_file, apart from the world *)

(** How the copy loop ends: all of [len] copied, or a read that came
    short at offset [pos] with [n] bytes. *)
Inductive copy_end :=
| copy_done
| copy_short (pos n : Z).

(** The reads of [write_file_loop]: the chunks it hands to [fwrite], how
    it ends, and the reader afterwards. *)
Fixpoint copy_chunks (fuel : nat) (r : reader_t) (len pos : Z)
  : option (list (list byte) * copy_end * reader_t) :=
  if pos <? len then
    match fuel with
    | O => None
    | S fuel =>
        let l := if pos + 4096 >? len then len - pos else 4096 in
        let '(n, buf, r) := reader_memread r l in
        if n <? l then Some ([], copy_short pos n, r)
        else
          match copy_chunks fuel r len (pos + l) with
          | None => None
          | Some (chunks, e, r) => Some (buf :: chunks, e, r)
          end
    end
  else Some ([], copy_done, r).

(** The world after the chunks have been written to the stream on
    [filename]. *)
Definition fwrite_all (h : host) (filename : string)
    (chunks : list (list byte)) (w : world) : world :=
  fold_left (fun w buf => fwrite h filename buf w) chunks w.

(** The name [write_file] reports and opens for [filename]. *)
Definition opened_name (filename : string) : string :=
  slashes_to_backslashes (skip_dot_slash filename).

(** The conditions under which [fopen_wb] delivers a stream. *)
Definition can_open (h : host) (w : world) (filename : string) : bool :=
  negb (denied h filename || String.eqb filename ""
        || is_directory w (resolve h filename)).

(** The path [create_directory] looks up and creates for [path]. *)
Definition created_name (path : option string) : string :=
  skip_dot_slash (default EmptyString path).

(** The conditions under which [mkdir] succeeds. *)
Definition can_mkdir (h : host) (w : world) (path : string) : bool :=
  negb (denied h path || String.eqb path "")
  && match fs w !! resolve h path with None => true | Some _ => false end.

(** The paths that hold a directory (a file) in [m] hold one in [m']. *)
Definition kinds_kept (m m' : gmap string node) : Prop :=
  forall p,
    (m !! p = Some Dir -> m' !! p = Some Dir)
    /\ (forall c, m !! p = Some (File c) -> exists d, m' !! p = Some (File d)).

(** [b] agrees, path by path, with [a] or with [final]. *)
Definition replays (a b final : gmap string node) : Prop :=
  forall p, b !! p = a !! p \/ b !! p = final !! p.

(* ------------------------------------------------------------------ *)
(** ** Notions used to state what the extraction leaves behind *)

(** The little-endian value of four bytes, as an unsigned number. *)
Definition le_value (b1 b2 b3 b4 : byte) : Z :=
  byte_val b1 + 256 * byte_val b2 + 65536 * byte_val b3
  + 16777216 * byte_val b4.

(** A slash or a backslash. *)
Definition is_separator (c : ascii) : bool :=
  Ascii.eqb c "/" || Ascii.eqb c backslash.


(** The file a non-DIR entry named [name] is written to, and the
    directory a DIR entry named [name] stands for. *)
Definition file_of_entry (h : host) (destdir : string) (name : list byte)
  : string :=
  opened_name (entry_path h destdir name).

Definition directory_of_entry (h : host) (destdir : string)
    (name : list byte) : string :=
  created_name (Some (entry_path h destdir name)).

(** The events end with an error call, the only one among them. *)
Definition ends_with_error (evs : list event) : Prop :=
  exists evs0 msg, evs = evs0 ++ [f_error msg] /\ errors evs0 = [].

(** An event with the [num] argument of a status call blanked. *)
Definition erase_num (e : event) : event :=
  match e with
  | f_status pos _ => f_status pos 0
  | _ => e
  end.

(** Two worlds with the same filesystem and the same calls so far, up to
    the [num] argument of the status calls. *)
Definition same_but_num (w1 w2 : world) : Prop :=
  fs w1 = fs w2 /\ map erase_num (log w1) = map erase_num (log w2).

(** The two entries of [two_entry_archive]. *)
Definition two_entry_dir : entry :=
  mk_entry (list_byte_of_string "DIR") [x00; x00; x00; x00] x03
           (list_byte_of_string "sub") [].

Definition two_entry_file : entry :=
  mk_entry (list_byte_of_string "FIL") [x03; x00; x00; x00] x05
           (list_byte_of_string "sub/a") (list_byte_of_string "abc").

(** Two readers that are about to deliver the same bytes. *)
Definition same_stream (r1 r2 : reader_t) : Prop :=
  exists s, at_stream r1 s /\ at_stream r2 s.

(* ------------------------------------------------------------------ *)
(** ** The lzma reader *)

(** [SizeT], the unsigned type in which [LzmaDecode] takes and reports
    sizes. Its definition is in the decoder's headers, which are not part
    of the sources at hand: [UInt32], or a [size_t] of 64 bits in a build
    of the decoder with _LZMA_SYSTEM_SIZE_T. Both are covered. *)
Inductive SizeT_width :=
| SizeT_32
| SizeT_64.

Definition SizeT_bits (k : SizeT_width) : Z :=
  match k with SizeT_32 => 32 | SizeT_64 => 64 end.

(** The conversion of an [int] to [SizeT], and of a [SizeT] to [int]. *)
Definition SizeT_of_int (k : SizeT_width) (v : Z) : Z :=
  v mod 2 ^ SizeT_bits k.

Definition int_of_SizeT (v : Z) : Z := int_of_unsigned (v mod 2 ^ 32).

(** What the lzma reader takes from lzma/LzmaDecode.h, which is not part
    of the sources at hand: the size of the properties header, the type
    of the decoded properties and of the decoder state, and the three
    functions of the decoder it calls. [LzmaDecode state input outSize]
    delivers the new state, the number of input bytes it processed and
    the bytes it wrote to the output buffer. *)
Record lzma_decoder := mk_lzma_decoder {
  CLzmaProperties : Type;
  CLzmaDecoderState : Type;
  SizeT_kind : SizeT_width;
  LZMA_PROPERTIES_SIZE : nat;
  LzmaDecodeProperties : list byte -> option CLzmaProperties;
  LzmaDecoderInit : CLzmaProperties -> CLzmaDecoderState;
  LzmaDecode :
    CLzmaDecoderState -> list byte -> Z -> CLzmaDecoderState * Z * list byte
}.

(** The struct [lzma_t] (its field [input] is never set or used). *)
Record lzma_t (d : lzma_decoder) := mk_lzma {
  lz_state : CLzmaDecoderState d;
  lz_mem : list byte;
  lz_pos : Z;
  lz_len : Z;
  lz_lzmapos : Z;
  lz_available : Z
}.

Arguments mk_lzma {d}.
Arguments lz_state {d}.
Arguments lz_mem {d}.
Arguments lz_pos {d}.
Arguments lz_len {d}.
Arguments lz_lzmapos {d}.
Arguments lz_available {d}.

(** A [long long] (64 bits, two's complement) and its conversion to
    [int]. *)
Definition long_long_of (v : Z) : Z :=
  let m := v mod 2 ^ 64 in if m <? 2 ^ 63 then m else m - 2 ^ 64.

Definition int_of_long_long (v : Z) : Z := int_of_unsigned (v mod 2 ^ 32).

(** The value stored into [available] from the eight bytes at [l]. *)
Definition lzma_uncompressed_size (l : list byte) : Z :=
  let b k := byte_val (nth k l x00) in
  int_of_long_long
    (long_long_of
       (Z.lor (Z.lor (Z.lor (Z.lor (Z.lor (Z.lor (Z.lor
          (b 0%nat) (Z.shiftl (b 1%nat) 8)) (Z.shiftl (b 2%nat) 16))
          (Z.shiftl (b 3%nat) 24)) (Z.shiftl (b 4%nat) 32))
          (Z.shiftl (b 5%nat) 40)) (Z.shiftl (b 6%nat) 48))
          (Z.shiftl (b 7%nat) 56))).

(** [reader_init_lzma(mem, len)], with [len] the length of [mem]; [None]
    is the null reader. The field [pos] of the reader itself stays 0. *)
Definition reader_init_lzma (d : lzma_decoder) (mem : list byte)
  : option (lzma_t d) :=
  match LzmaDecodeProperties d (firstn (LZMA_PROPERTIES_SIZE d) mem) with
  | None => None
  | Some properties =>
      let pos := 0 + Z.of_nat (LZMA_PROPERTIES_SIZE d) in
      let l := skipn (Z.to_nat pos) mem in
      let available := lzma_uncompressed_size l in
      let pos := pos + 8 in
      Some (mk_lzma (LzmaDecoderInit d properties) mem pos
                    (Z.of_nat (length mem)) 0 available)
  end.

(** [reader_lzma_read(reader, data, len)]: the count returned, the bytes
    written to [data], and the reader's state afterwards. The [int]
    [len] is handed to [LzmaDecode] as a [SizeT]; [processed] is a
    [SizeT], subtracted from [available] in that type and returned as an
    [int]. The input handed over is what the buffer holds from [pos] on
    ([pos] does not pass [len] on a buffer that holds its header). *)
Definition reader_lzma_read (d : lzma_decoder) (i : lzma_t d) (len : Z)
  : Z * list byte * lzma_t d :=
  let len := if len >? lz_available i then lz_available i else len in
  let input :=
    firstn (Z.to_nat (lz_len i - lz_pos i))
           (skipn (Z.to_nat (lz_pos i)) (lz_mem i)) in
  let '(state, lzmapos, out) :=
    LzmaDecode d (lz_state i) input (SizeT_of_int (SizeT_kind d) len) in
  let processed := Z.of_nat (length out) in
  let available :=
    int_of_SizeT
      (SizeT_of_int (SizeT_kind d)
         (SizeT_of_int (SizeT_kind d) (lz_available i) - processed)) in
  (int_of_SizeT processed, out,
   mk_lzma state (lz_mem i) (lz_pos i + lzmapos) (lz_len i) lzmapos
           available).



(** A decoder that copies its input: the state is the number of bytes
    copied so far. *)
Definition copying_decoder : lzma_decoder :=
  mk_lzma_decoder unit Z SizeT_32 5
    (fun props => if (length props =? 5)%nat then Some tt else None)
    (fun _ => 0)
    (fun state input outSize =>
       let k := Z.min outSize (Z.of_nat (length input)) in
       let out := firstn (Z.to_nat k) input in
       (state + Z.of_nat (length out), Z.of_nat (length out), out)).

(* ------------------------------------------------------------------ *)
(** ** The zlibinflate reader *)

(** The constants of zlib.h that the reader uses, and its own buffer
    size. *)
Definition Z_OK : Z := 0.
Definition Z_STREAM_END : Z := 1.
Definition Z_NO_FLUSH : Z := 0.
Definition Z_FINISH : Z := 4.
Definition ZLIB_BUFFER_SIZE : Z := 16384.

(** The fields of a [z_stream] the reader touches, and the internal state
    of the decoder. [zs_next_in] holds the [zs_avail_in] bytes at
    [next_in]; [zs_written] holds the bytes between the caller's buffer
    [data] and [next_out]. *)
Record z_stream (S : Type) := mk_z_stream {
  zs_state : S;
  zs_next_in : list byte;
  zs_avail_in : Z;
  zs_written : list byte;
  zs_avail_out : Z
}.

Arguments mk_z_stream {S}.
Arguments zs_state {S}.
Arguments zs_next_in {S}.
Arguments zs_avail_in {S}.
Arguments zs_written {S}.
Arguments zs_avail_out {S}.

(** What the reader takes from zlib: the type of the decoder state and
    the functions [inflateInit], [inflate] and [inflateEnd], each with
    the [int] it returns. *)
Record zlib := mk_zlib {
  inflate_state : Type;
  inflateInit : Z * inflate_state;
  inflate : z_stream inflate_state -> Z -> Z * z_stream inflate_state;
  inflateEnd : z_stream inflate_state -> Z
}.

(** [struct zlibinflate_t]; the filled part of [readbuffer] is
    [zs_next_in]. *)
Record zlibinflate_t (c : zlib) := mk_zlibinflate {
  zi_zs : z_stream (inflate_state c);
  zi_input : reader_t
}.

Arguments mk_zlibinflate {c}.
Arguments zi_zs {c}.
Arguments zi_input {c}.

(** The reader built by [reader_init_zlibinflate]: [internal], null once
    the stream has ended, and [pos]. *)
Record zlib_reader (c : zlib) := mk_zlib_reader {
  zr_internal : option (zlibinflate_t c);
  zr_pos : Z
}.

Arguments mk_zlib_reader {c}.
Arguments zr_internal {c}.
Arguments zr_pos {c}.

(** How a call into the zlib reader ends: it returns, or [zlib_error]
    ends the process, or the fuel of the model runs out. *)
Inductive zlib_result (A : Type) :=
| zlib_returns (a : A)
| zlib_exits
| zlib_no_fuel.

Arguments zlib_returns {A}.
Arguments zlib_exits {A}.
Arguments zlib_no_fuel {A}.

(** [reader_init_zlibinflate(input)]. *)
Definition reader_init_zlibinflate (c : zlib) (input : reader_t)
  : zlib_result (zlib_reader c) :=
  let '(ret, state) := inflateInit c in
  if negb (ret =? Z_OK) then zlib_exits
  else
    zlib_returns
      (mk_zlib_reader
         (Some (mk_zlibinflate (mk_z_stream state [] 0 [] 0) input)) 0).

(** The [while(1)] loop of [reader_zlibinflate] and the statements after
    it: the count returned, the bytes written to [data], the reader. The
    upstream reader [input] is a mem reader, the only kind this file ever
    passes to [reader_init_zlibinflate]. *)
Fixpoint zlibinflate_loop (c : zlib) (fuel : nat)
    (zs : z_stream (inflate_state c)) (input : reader_t) (pos len : Z)
  : zlib_result (Z * list byte * zlib_reader c) :=
  match fuel with
  | O => zlib_no_fuel
  | S fuel =>
      let '(zs, input) :=
        if zs_avail_in zs =? 0 then
          let '(n, buf, input) := reader_memread input ZLIB_BUFFER_SIZE in
          (mk_z_stream (zs_state zs) buf n (zs_written zs) (zs_avail_out zs),
           input)
        else (zs, input) in
      let '(ret, zs) :=
        if negb (zs_avail_in zs =? 0) then inflate c zs Z_NO_FLUSH
        else inflate c zs Z_FINISH in
      if negb (ret =? Z_OK) && negb (ret =? Z_STREAM_END) then zlib_exits
      else if ret =? Z_STREAM_END then
        let n := Z.of_nat (length (zs_written zs)) in
        let ret := inflateEnd c zs in
        if negb (ret =? Z_OK) then zlib_exits
        else zlib_returns (n, zs_written zs, mk_zlib_reader None (pos + n))
      else if zs_avail_out zs =? 0 then
        zlib_returns
          (len, zs_written zs,
           mk_zlib_reader (Some (mk_zlibinflate zs input)) (pos + len))
      else zlibinflate_loop c fuel zs input pos len
  end.

(** [reader_zlibinflate(reader, data, len)]. *)
Definition reader_zlibinflate (c : zlib) (fuel : nat) (reader : zlib_reader c)
    (len : Z) : zlib_result (Z * list byte * zlib_reader c) :=
  match zr_internal reader with
  | None => zlib_returns (0, [], reader)
  | Some z =>
      if len =? 0 then zlib_returns (0, [], reader)
      else
        let zs := zi_zs z in
        let zs := mk_z_stream (zs_state zs) (zs_next_in zs) (zs_avail_in zs)
                              [] len in
        zlibinflate_loop c fuel zs (zi_input z) (zr_pos reader) len
  end.

(** What zlib promises of [inflate] when it returns [Z_OK] or
    [Z_STREAM_END]: it has appended what it produced at [next_out] and
    lowered [avail_out] by as much, never below zero. *)
Definition inflate_keeps_to_avail_out (c : zlib) : Prop :=
  forall zs flush ret zs',
    inflate c zs flush = (ret, zs') ->
    ret = Z_OK \/ ret = Z_STREAM_END ->
    0 <= zs_avail_out zs ->
    exists produced,
      zs_written zs' = zs_written zs ++ produced
      /\ zs_avail_out zs' = zs_avail_out zs - Z.of_nat (length produced)
      /\ 0 <= zs_avail_out zs'.

(** A stand-in for zlib that copies its input: [inflate] moves as many
    bytes as fit from [next_in] to [next_out], and reports the end of the
    stream when asked to finish with nothing left to move. *)
Definition copying_zlib : zlib :=
  mk_zlib unit (Z_OK, tt)
    (fun zs flush =>
       let k := Z.to_nat (Z.min (Z.of_nat (length (zs_next_in zs)))
                                (zs_avail_out zs)) in
       let moved := firstn k (zs_next_in zs) in
       (if (flush =? Z_FINISH) && (length (zs_next_in zs) =? 0)%nat
        then Z_STREAM_END else Z_OK,
        mk_z_stream (zs_state zs) (skipn k (zs_next_in zs))
                    (Z.of_nat (length (skipn k (zs_next_in zs))))
                    (zs_written zs ++ moved)
                    (zs_avail_out zs - Z.of_nat (length moved))))
    (fun _ => Z_OK).

(* ------------------------------------------------------------------ *)
(** ** The mem reader *)

Lemma remaining_length (r : reader_t) :
  reader_wf r ->
  Z.of_nat (length (remaining r)) = mr_length (rd_internal r) - rd_pos r.
Proof.
  intros [Hlen Hpos]. unfold remaining. rewrite length_skipn. lia.
Qed.

Lemma reader_memread_stream (r : reader_t) (s : list byte) (k : Z) :
  at_stream r s -> 0 <= k ->
  exists r',
    reader_memread r k
    = (Z.min k (Z.of_nat (length s)), firstn (Z.to_nat k) s, r')
    /\ at_stream r' (skipn (Z.to_nat k) s).
Proof.
  intros [Hwf Hs] Hk.
  pose proof (remaining_length r Hwf) as Hrem. rewrite Hs in Hrem.
  destruct Hwf as [Hlen Hpos].
  unfold reader_memread. fold (remaining r). rewrite Hs.
  destruct (Z.ltb_spec (mr_length (rd_internal r) - rd_pos r) k) as [Hlt|Hge].
  - eexists. split.
    + rewrite Z.min_r by lia. rewrite Hrem.
      rewrite !firstn_all2 by lia. reflexivity.
    + split.
      * split; simpl; [assumption|lia].
      * unfold remaining. simpl. rewrite !skipn_all2 by lia. reflexivity.
  - eexists. split.
    + rewrite Z.min_l by lia. reflexivity.
    + split.
      * split; simpl; [assumption|lia].
      * unfold remaining. simpl. rewrite <- Hs. unfold remaining.
        rewrite skipn_skipn. f_equal. lia.
Qed.

(** Reading exactly the bytes that come next. *)
Lemma reader_memread_full (r : reader_t) (a b : list byte) (k : Z) :
  at_stream r (a ++ b) -> k = Z.of_nat (length a) ->
  exists r', reader_memread r k = (k, a, r') /\ at_stream r' b.
Proof.
  intros Hr ->.
  destruct (reader_memread_stream r _ (Z.of_nat (length a)) Hr) as (r' & E & Hr');
    [lia|].
  exists r'. rewrite E. rewrite Nat2Z.id in *.
  rewrite firstn_app, Nat.sub_diag, firstn_all in *. simpl.
  rewrite app_nil_r. rewrite skipn_app, Nat.sub_diag, skipn_all in Hr'.
  simpl in Hr'. split; [|assumption].
  rewrite Z.min_l by (rewrite length_app; lia). reflexivity.
Qed.

(** Asking for more than is left delivers what is left. *)
Lemma reader_memread_short (r : reader_t) (s : list byte) (k : Z) :
  at_stream r s -> Z.of_nat (length s) < k ->
  exists r',
    reader_memread r k = (Z.of_nat (length s), s, r') /\ at_stream r' [].
Proof.
  intros Hr Hk.
  destruct (reader_memread_stream r s k Hr) as (r' & E & Hr'); [lia|].
  exists r'. rewrite E. rewrite firstn_all2 by lia.
  rewrite skipn_all2 in Hr' by lia. split; [|assumption].
  rewrite Z.min_r by lia. reflexivity.
Qed.

Lemma reader_init_memreader_stream (data : list byte) :
  at_stream (reader_init_memreader data (Z.of_nat (length data))) data.
Proof.
  split; [split; simpl; lia | reflexivity].
Qed.

(** C5. On a well-formed mem reader and for every requested length
    [max_len >= 0], [reader_memread] returns
    [min(max_len, remaining_bytes)], copies exactly that many bytes
    starting at the cursor, advances the cursor by that amount and leaves
    the reader well formed; once the cursor is at the end of the buffer
    the call returns 0 and leaves the reader as it is, so every later
    call returns 0 as well. *)
Theorem reader_memread_contract (r : reader_t) (max_len : Z) :
  reader_wf r -> 0 <= max_len ->
  let remaining_bytes := mr_length (rd_internal r) - rd_pos r in
  let '(n, copied, r') := reader_memread r max_len in
  n = Z.min max_len remaining_bytes
  /\ copied = firstn (Z.to_nat n)
                (skipn (Z.to_nat (rd_pos r)) (mr_data (rd_internal r)))
  /\ Z.of_nat (length copied) = n
  /\ rd_pos r' = rd_pos r + n
  /\ rd_internal r' = rd_internal r
  /\ reader_wf r'
  /\ (rd_pos r = mr_length (rd_internal r) -> n = 0 /\ r' = r).
Proof.
  intros Hwf Hk. cbv zeta.
  pose proof (remaining_length r Hwf) as Hrem. unfold remaining in Hrem.
  destruct Hwf as [Hlen Hpos]. unfold reader_memread.
  set (len := if mr_length (rd_internal r) - rd_pos r <? max_len
              then mr_length (rd_internal r) - rd_pos r else max_len).
  assert (Hmin : len = Z.min max_len (mr_length (rd_internal r) - rd_pos r)).
  { subst len.
    destruct (Z.ltb_spec (mr_length (rd_internal r) - rd_pos r) max_len); lia. }
  split; [exact Hmin|].
  split; [reflexivity|].
  split; [rewrite length_firstn; lia|].
  simpl. split; [reflexivity|]. split; [reflexivity|].
  split; [split; simpl; [assumption|lia]|].
  intros Hend. split; [lia|].
  destruct r as [mr p]. simpl in *. f_equal. lia.
Qed.

(** The contract at work: five bytes asked for when two are left. *)
Lemma reader_memread_contract_witness :
  let r := mk_reader (mk_memread [x0a; x0b; x0c] 3) 1 in
  reader_wf r /\
  let '(n, copied, r') := reader_memread r 5 in
  n = 2 /\ copied = [x0b; x0c] /\ rd_pos r' = 3.
Proof.
  assert (Hwf : reader_wf (mk_reader (mk_memread [x0a; x0b; x0c] 3) 1))
    by (split; simpl; lia).
  split; [exact Hwf|].
  pose proof (reader_memread_contract _ 5 Hwf ltac:(lia)) as H.
  cbv in H |- *. destruct H as (Hn & Hc & _ & Hp & _).
  split; [exact Hn|]. split; [exact Hc|exact Hp].
Defined.

(* ------------------------------------------------------------------ *)
(** ** The concrete scenario *)

(** C1. Whatever the compression backend, when the decoded bytes of the
    archive are [01 00 00 00], DIR [00 00 00 00] [03] sub, END, the
    archive is unpacked with success on either platform: afterwards the
    filesystem holds the destination root and, in it, the directory sub
    and nothing else; the sink has received [new_directory] for that
    directory and the progress call (1,1), and no error. *)
Theorem unpack_archive_scenario (win32 : bool)
    (dec : list byte -> option (list byte)) (data : list byte) :
  dec data = Some scenario_archive ->
  let h := host_with win32 dec in
  let sub := concatPaths h "dest" "sub" in
  exists w,
    unpack_archive h data "dest" empty_world = Some (1, w)
    /\ fs w = <["dest" := Dir]> {[ sub := Dir ]}
    /\ In (f_new_directory sub) (log w)
    /\ In (f_status 1 1) (log w)
    /\ errors (log w) = [].
Proof.
  intros Hdec. cbv zeta. unfold unpack_archive, reader_init_decompress.
  cbn [decompress host_with]. rewrite Hdec.
  destruct win32; eexists;
    (split; [vm_compute; reflexivity|]);
    (split; [vm_compute; reflexivity|]);
    (split; [simpl; tauto|]);
    (split; [simpl; tauto|reflexivity]).
Qed.

(** The scenario with the bytes stored as they are, without WIN32. *)
Lemma unpack_archive_scenario_witness :
  exists w,
    unpack_archive (plain_host false) scenario_archive "dest" empty_world
    = Some (1, w)
    /\ fs w = <["dest" := Dir]> {[ "dest/sub"%string := Dir ]}
    /\ In (f_new_directory "dest/sub") (log w)
    /\ In (f_status 1 1) (log w)
    /\ errors (log w) = [].
Proof.
  exact (unpack_archive_scenario false (fun data => Some data)
           scenario_archive eq_refl).
Defined.

(** C2 (the code at the failing input). When the stream ends inside the
    size field of an entry, [unpack_archive] returns 0 and the sink's
    error operation has not been called at all. *)
Theorem truncated_size_field_unreported (win32 : bool) :
  exists w,
    unpack_archive (plain_host win32) scenario_cut_in_size "dest" empty_world
    = Some (0, w)
    /\ errors (log w) = [].
Proof.
  destruct win32; eexists; (split; [vm_compute; reflexivity|reflexivity]).
Qed.

(** C3, counterexample. Laid out without a size field, the DIR entry of
    the scenario is not read back as the directory sub: the four bytes
    after the tag are taken as the size, the E of END as the name length,
    and extraction fails. *)
Lemma dir_entry_without_size_misread :
  exists w,
    unpack_archive (plain_host false) scenario_without_size "dest" empty_world
    = Some (0, w)
    /\ ~ In (f_new_directory "dest/sub") (log w)
    /\ In (f_new_directory "dest/ND") (log w)
    /\ In (f_message (entry_message "DIR" "dest/ND" 1651864323)) (log w).
Proof.
  eexists. split; [vm_compute; reflexivity|].
  split; [|split; simpl; tauto].
  simpl. intros H. repeat (destruct H as [H|H]; [discriminate H|]). exact H.
Qed.

(** C4, counterexample. The scenario archive is valid and has one entry,
    yet the sink receives two status calls, (0,1) and (1,1). *)
Lemma scenario_has_two_status_calls :
  scenario_archive = encode_archive [x01; x00; x00; x00] [scenario_entry]
  /\ valid_entry scenario_entry
  /\ exists w,
       unpack_archive (plain_host false) scenario_archive "dest" empty_world
       = Some (1, w)
       /\ status_calls (log w) = [(0, 1); (1, 1)]
       /\ status_calls (log w) <> status_run 1 1 1.
Proof.
  split; [reflexivity|]. split.
  { repeat split; try reflexivity. vm_compute. discriminate. }
  eexists. split; [vm_compute; reflexivity|].
  split; [reflexivity|]. simpl. discriminate.
Qed.

(** C8, counterexample. A valid archive need not be unpacked with
    success even once: with the entry x written as a file, the entry x/y
    asks for the directory of that name, [create_directory] fails on the
    file it finds there, and the first run returns 0 with an error. *)
Lemma valid_archive_fails_on_first_run :
  Forall valid_entry [file_x; file_x_y]
  /\ exists w,
       unpack_archive (plain_host true) file_below_file_archive "dest"
                      empty_world
       = Some (0, w)
       /\ fs w !! "dest\x"%string = Some (File (list_byte_of_string "1"))
       /\ errors (log w)
          = [f_error ("create directory " +:+ dquote +:+ "dest\x"
                      +:+ dquote +:+ " FAILED")].
Proof.
  split.
  { repeat constructor; try reflexivity; vm_compute; discriminate. }
  eexists. split; [vm_compute; reflexivity|].
  split; vm_compute; reflexivity.
Qed.

(* ------------------------------------------------------------------ *)
(** ** Reading the fields of an entry *)

Lemma until_nul_app_nul (a rest : list byte) :
  until_nul (a ++ x00 :: rest) = until_nul a.
Proof.
  induction a as [|b a IH]; simpl; [reflexivity|].
  destruct (Byte.eqb b x00); [reflexivity|]. rewrite IH. reflexivity.
Qed.

Lemma c_str_app_nul (a rest : list byte) :
  c_str (a ++ x00 :: rest) = c_str a.
Proof. unfold c_str. rewrite until_nul_app_nul. reflexivity. Qed.

Lemma read_unsigned_byte_full (z : reader_t) (b : byte) (s : list byte) :
  at_stream z (b :: s) ->
  exists z', read_unsigned_byte z = (1, byte_val b, z') /\ at_stream z' s.
Proof.
  intros Hz.
  destruct (reader_memread_full z [b] s 1 Hz eq_refl) as (z' & E & Hz').
  exists z'. unfold read_unsigned_byte. rewrite E. split; [reflexivity|exact Hz'].
Qed.

Lemma read_int_full (z : reader_t) (b4 rest : list byte) :
  at_stream z (b4 ++ rest) -> length b4 = 4%nat ->
  exists z', read_int z = (4, int_of_bytes b4, z') /\ at_stream z' rest.
Proof.
  intros Hz Hlen.
  destruct b4 as [|b1 [|b2 [|b3 [|b4 [|? ?]]]]]; try discriminate Hlen.
  simpl in Hz.
  destruct (read_unsigned_byte_full _ _ _ Hz) as (z1 & E1 & Hz1).
  destruct (read_unsigned_byte_full _ _ _ Hz1) as (z2 & E2 & Hz2).
  destruct (read_unsigned_byte_full _ _ _ Hz2) as (z3 & E3 & Hz3).
  destruct (read_unsigned_byte_full _ _ _ Hz3) as (z4 & E4 & Hz4).
  exists z4. unfold read_int. rewrite E1, E2, E3, E4.
  split; [reflexivity|exact Hz4].
Qed.

(** A size field cut short: the count stays below 4. *)
Lemma read_int_short (z : reader_t) (s : list byte) :
  at_stream z s -> (length s < 4)%nat ->
  exists v z', read_int z = (Z.of_nat (length s), v, z') /\ at_stream z' [].
Proof.
  intros Hz Hlen. unfold read_int, read_unsigned_byte.
  assert (Hstep : forall z0 s0, at_stream z0 s0 ->
            exists buf z1, reader_memread z0 1
                           = (Z.min 1 (Z.of_nat (length s0)), buf, z1)
                           /\ at_stream z1 (skipn 1 s0)).
  { intros z0 s0 H0.
    destruct (reader_memread_stream z0 s0 1 H0) as (z1 & E & H1); [lia|].
    eauto. }
  destruct (Hstep _ _ Hz) as (buf1 & z1 & E1 & Hz1).
  destruct (Hstep _ _ Hz1) as (buf2 & z2 & E2 & Hz2).
  destruct (Hstep _ _ Hz2) as (buf3 & z3 & E3 & Hz3).
  destruct (Hstep _ _ Hz3) as (buf4 & z4 & E4 & Hz4).
  rewrite E1, E2, E3, E4. do 2 eexists. split.
  - f_equal. f_equal.
    destruct s as [|? [|? [|? [|? ?]]]]; simpl in *; lia.
  - destruct s as [|? [|? [|? [|? ?]]]]; simpl in *; try lia; exact Hz4.
Qed.

Section Fields.

Variable h : host.

Lemma read_filename_full (z : reader_t) (b : byte) (name rest : list byte) :
  at_stream z ([b] ++ name ++ rest) ->
  length name = Z.to_nat (byte_val b) ->
  exists z', read_filename h z = (c_str name, z') /\ at_stream z' rest.
Proof.
  intros Hz Hlen.
  destruct (reader_memread_full z [b] _ 1 Hz eq_refl) as (z1 & E1 & Hz1).
  assert (Hb : 0 <= byte_val b) by (unfold byte_val; lia).
  destruct (reader_memread_full z1 name rest (byte_val b) Hz1) as (z2 & E2 & Hz2);
    [lia|].
  exists z2. unfold read_filename. rewrite E1. cbv beta iota zeta.
  rewrite E2. split; [|exact Hz2]. f_equal.
  rewrite <- Hlen.
  destruct (skipn (length name) (uninit_block h (S (length name))))
    as [|u us] eqn:Eu.
  - rewrite list_insert_ge by (rewrite length_app; simpl; lia).
    rewrite app_nil_r. reflexivity.
  - replace (length name) with (length name + 0)%nat at 1 by lia.
    rewrite insert_app_r. simpl. apply c_str_app_nul.
Qed.

Lemma read_filename_no_length (z : reader_t) :
  at_stream z [] ->
  exists z',
    read_filename h z = (c_str (truncated_name h (uninit_char h) []), z')
    /\ at_stream z' [].
Proof.
  intros Hz.
  destruct (reader_memread_short z [] 1 Hz) as (z1 & E1 & Hz1); [simpl; lia|].
  assert (Hb : 0 <= byte_val (uninit_char h)) by (unfold byte_val; lia).
  destruct (reader_memread_stream z1 [] (byte_val (uninit_char h)) Hz1 Hb)
    as (z2 & E2 & Hz2).
  exists z2. unfold read_filename. rewrite E1. cbv beta iota zeta.
  rewrite E2. rewrite firstn_nil. rewrite skipn_nil in Hz2.
  split; [reflexivity|exact Hz2].
Qed.

Lemma read_filename_short_name (z : reader_t) (b : byte) (name : list byte) :
  at_stream z (b :: name) ->
  Z.of_nat (length name) < byte_val b ->
  exists z',
    read_filename h z = (c_str (truncated_name h b name), z')
    /\ at_stream z' [].
Proof.
  intros Hz Hlen.
  destruct (reader_memread_full z [b] name 1 Hz eq_refl) as (z1 & E1 & Hz1).
  destruct (reader_memread_short z1 name (byte_val b) Hz1 Hlen)
    as (z2 & E2 & Hz2).
  exists z2. unfold read_filename. rewrite E1. cbv beta iota zeta.
  rewrite E2. split; [reflexivity|exact Hz2].
Qed.

End Fields.

(* ------------------------------------------------------------------ *)
(** ** One round of the loop *)

Section Round.

Variable h : host.

(** The round on an entry whose tag and size field are whole: the tag is
    followed by the four bytes of the size field for every tag but END,
    and the name is read next, unchecked. *)
Lemma unpack_loop_round (fuel : nat) (destdir : string) (num : Z)
    (z : reader_t) (pos : Z) (w : world) (id size4 tail : list byte) :
  at_stream z (id ++ size4 ++ tail) ->
  length id = 3%nat ->
  c_str (id ++ [x00]) <> "END" ->
  length size4 = 4%nat ->
  exists z1,
    at_stream z1 tail
    /\ unpack_loop h (S fuel) destdir num z pos w =
       let '(filename, z2) := read_filename h z1 in
       let filename := concatPaths h destdir (skip_dot_slash filename) in
       let tag := c_str (id ++ [x00]) in
       let len := int_of_bytes size4 in
       let w := emit (f_status (pos + 1) num) w in
       let w := emit (f_message (entry_message tag filename len)) w in
       match dispatch_entry h tag filename len z2 w with
       | None => None
       | Some (ok, z3, w) =>
           if ok =? 0 then Some (0, w)
           else unpack_loop h fuel destdir num z3 (pos + 1) w
       end.
Proof.
  intros Hz Hid Hend Hsize.
  destruct (reader_memread_full z id _ 3 Hz) as (z0 & E0 & Hz0); [lia|].
  destruct (read_int_full z0 size4 tail Hz0 Hsize) as (z1 & E1 & Hz1).
  exists z1. split; [exact Hz1|].
  cbn [unpack_loop]. rewrite E0. cbv beta iota zeta.
  change (3 <? 3) with false. cbv iota.
  destruct (String.eqb_spec (c_str (id ++ [x00])) "END") as [Heq|_];
    [contradiction|].
  rewrite E1. cbv beta iota zeta. change (4 <? 4) with false. cbv iota.
  destruct (read_filename h z1) as [filename z2]. reflexivity.
Qed.

(** C3, amended. Every entry but the END tag, a DIR entry included, lies
    in the stream as the tag, the four bytes of the size field, the
    name-length byte and the name. The loop consumes exactly these in
    this order and reports the entry under the name read after the size
    field. For a DIR entry the value of the size field appears in that
    message only: the directory is created and the next round starts
    right behind the name, so that no payload is consumed whatever the
    size field holds. For any other tag the entry is handed on with the
    reader right behind the name and the size as the payload length. *)
Theorem entry_wire_form (fuel : nat) (destdir : string) (num : Z)
    (z : reader_t) (pos : Z) (w : world) (id size4 : list byte)
    (name_len : byte) (name rest : list byte) :
  at_stream z (id ++ size4 ++ [name_len] ++ name ++ rest) ->
  length id = 3%nat ->
  c_str (id ++ [x00]) <> "END" ->
  length size4 = 4%nat ->
  length name = Z.to_nat (byte_val name_len) ->
  exists z',
    at_stream z' rest
    /\ unpack_loop h (S fuel) destdir num z pos w =
       let tag := c_str (id ++ [x00]) in
       let filename := entry_path h destdir name in
       let len := int_of_bytes size4 in
       let w := emit (f_status (pos + 1) num) w in
       let w := emit (f_message (entry_message tag filename len)) w in
       if String.eqb tag "DIR" then
         let w := emit (f_new_directory filename) w in
         let '(ok, w) := create_directory h (Some filename) w in
         if ok =? 0 then Some (0, w)
         else unpack_loop h fuel destdir num z' (pos + 1) w
       else
         match dispatch_entry h tag filename len z' w with
         | None => None
         | Some (ok, z'', w) =>
             if ok =? 0 then Some (0, w)
             else unpack_loop h fuel destdir num z'' (pos + 1) w
         end.
Proof.
  intros Hz Hid Hend Hsize Hname.
  destruct (unpack_loop_round fuel destdir num z pos w id size4 _ Hz
              Hid Hend Hsize) as (z1 & Hz1 & E).
  destruct (read_filename_full h z1 name_len name rest Hz1 Hname)
    as (z2 & E2 & Hz2).
  exists z2. split; [exact Hz2|].
  rewrite E, E2. cbv beta iota zeta.
  fold (entry_path h destdir name).
  destruct (String.eqb (c_str (id ++ [x00])) "DIR") eqn:Hdir;
    [|reflexivity].
  unfold dispatch_entry. rewrite Hdir.
  destruct (create_directory h _ _) as [ok w']. cbv beta iota.
  destruct (ok =? 0); reflexivity.
Qed.

(** C9. When the stream ends at the name-length byte, or inside the name,
    the round does not fail and reports no error: it goes on to the
    status call, the message and the dispatch of the entry, under the
    name made of the bytes that were read ([truncated_name]). When fresh
    memory reads as zero that name is exactly the bytes read, the empty
    name if there were none. *)
Theorem truncated_name_is_dispatched (fuel : nat) (destdir : string)
    (num : Z) (z : reader_t) (pos : Z) (w : world) (id size4 tail : list byte)
    (name_len : byte) (name : list byte) :
  at_stream z (id ++ size4 ++ tail) ->
  length id = 3%nat ->
  c_str (id ++ [x00]) <> "END" ->
  length size4 = 4%nat ->
  (tail = [] /\ name_len = uninit_char h /\ name = [])
  \/ (tail = name_len :: name /\ Z.of_nat (length name) < byte_val name_len) ->
  (exists z',
    at_stream z' []
    /\ unpack_loop h (S fuel) destdir num z pos w =
       let tag := c_str (id ++ [x00]) in
       let len := int_of_bytes size4 in
       let filename := entry_path h destdir (truncated_name h name_len name) in
       let w := emit (f_status (pos + 1) num) w in
       let w := emit (f_message (entry_message tag filename len)) w in
       match dispatch_entry h tag filename len z' w with
       | None => None
       | Some (ok, z'', w) =>
           if ok =? 0 then Some (0, w)
           else unpack_loop h fuel destdir num z'' (pos + 1) w
       end)
  /\ ((forall n, uninit_block h n = repeat x00 n) ->
      (length name <= Z.to_nat (byte_val name_len))%nat ->
      c_str (truncated_name h name_len name) = c_str name).
Proof.
  intros Hz Hid Hend Hsize Htail. split.
  - destruct (unpack_loop_round fuel destdir num z pos w id size4 tail Hz
                Hid Hend Hsize) as (z1 & Hz1 & E).
    assert (Hname : exists z2,
               read_filename h z1 = (c_str (truncated_name h name_len name), z2)
               /\ at_stream z2 []).
    { destruct Htail as [(-> & -> & ->)|(-> & Hshort)].
      - apply read_filename_no_length. exact Hz1.
      - apply read_filename_short_name; assumption. }
    destruct Hname as (z2 & E2 & Hz2).
    exists z2. split; [exact Hz2|]. rewrite E, E2. reflexivity.
  - intros Hzero Hle. unfold truncated_name. rewrite Hzero.
    set (flen := Z.to_nat (byte_val name_len)) in *.
    replace (skipn (length name) (repeat x00 (S flen)))
      with (repeat x00 (S flen - length name)).
    + replace (S flen - length name)%nat with (S (flen - length name)) by lia.
      simpl repeat.
      replace flen with (length name + (flen - length name))%nat at 1 by lia.
      rewrite insert_app_r.
      destruct (flen - length name)%nat; simpl; apply c_str_app_nul.
    + clear. generalize (S flen). intros m. revert m.
      induction name as [|b name IH]; intros m; simpl.
      * rewrite Nat.sub_0_r. reflexivity.
      * destruct m; simpl; [reflexivity|apply IH].
Qed.

End Round.

(** The DIR entry of the scenario, read by one round of the loop. *)
Lemma entry_wire_form_witness :
  let h := plain_host false in
  let id := list_byte_of_string "DIR" in
  let size4 := [x00; x00; x00; x00] in
  let name := list_byte_of_string "sub" in
  let rest := list_byte_of_string "END" in
  let stream := id ++ size4 ++ [x03] ++ name ++ rest in
  let z := reader_init_memreader stream (Z.of_nat (length stream)) in
  at_stream z stream
  /\ length id = 3%nat
  /\ c_str (id ++ [x00]) <> "END"
  /\ length size4 = 4%nat
  /\ length name = Z.to_nat (byte_val x03)
  /\ exists z',
       at_stream z' rest
       /\ unpack_loop h 2 "dest" 1 z 0 empty_world =
          let tag := c_str (id ++ [x00]) in
          let filename := entry_path h "dest" name in
          let len := int_of_bytes size4 in
          let w := emit (f_status (0 + 1) 1) empty_world in
          let w := emit (f_message (entry_message tag filename len)) w in
          if String.eqb tag "DIR" then
            let w := emit (f_new_directory filename) w in
            let '(ok, w) := create_directory h (Some filename) w in
            if ok =? 0 then Some (0, w)
            else unpack_loop h 1 "dest" 1 z' (0 + 1) w
          else
            match dispatch_entry h tag filename len z' w with
            | None => None
            | Some (ok, z'', w) =>
                if ok =? 0 then Some (0, w)
                else unpack_loop h 1 "dest" 1 z'' (0 + 1) w
            end.
Proof.
  cbv zeta.
  assert (Hend : c_str (list_byte_of_string "DIR" ++ [x00]) <> "END"%string)
    by (vm_compute; discriminate).
  split; [apply reader_init_memreader_stream|].
  split; [reflexivity|]. split; [exact Hend|].
  split; [reflexivity|]. split; [reflexivity|].
  apply (entry_wire_form (plain_host false) 1 "dest" 1 _ 0 empty_world
           (list_byte_of_string "DIR") [x00; x00; x00; x00] x03
           (list_byte_of_string "sub") (list_byte_of_string "END"));
    [apply reader_init_memreader_stream|reflexivity|exact Hend
    |reflexivity|reflexivity].
Defined.

(** A DIR entry that announces five name bytes and holds two. *)
Lemma truncated_name_is_dispatched_witness :
  let h := plain_host false in
  let id := list_byte_of_string "DIR" in
  let size4 := [x00; x00; x00; x00] in
  let name := list_byte_of_string "su" in
  let stream := id ++ size4 ++ x05 :: name in
  let z := reader_init_memreader stream (Z.of_nat (length stream)) in
  (at_stream z (id ++ size4 ++ x05 :: name)
   /\ Z.of_nat (length name) < byte_val x05)
  /\ (exists z',
        at_stream z' []
        /\ unpack_loop h 2 "dest" 1 z 0 empty_world =
           let tag := c_str (id ++ [x00]) in
           let len := int_of_bytes size4 in
           let filename := entry_path h "dest" (truncated_name h x05 name) in
           let w := emit (f_status (0 + 1) 1) empty_world in
           let w := emit (f_message (entry_message tag filename len)) w in
           match dispatch_entry h tag filename len z' w with
           | None => None
           | Some (ok, z'', w) =>
               if ok =? 0 then Some (0, w)
               else unpack_loop h 1 "dest" 1 z'' (0 + 1) w
           end)
  /\ c_str (truncated_name h x05 name) = "su"%string.
Proof.
  cbv zeta.
  assert (Hshort : Z.of_nat (length (list_byte_of_string "su")) < byte_val x05)
    by (vm_compute; reflexivity).
  assert (Hend : c_str (list_byte_of_string "DIR" ++ [x00]) <> "END"%string)
    by (vm_compute; discriminate).
  pose proof (truncated_name_is_dispatched (plain_host false) 1 "dest" 1
                (reader_init_memreader _ _) 0 empty_world
                (list_byte_of_string "DIR") [x00; x00; x00; x00]
                (x05 :: list_byte_of_string "su") x05 (list_byte_of_string "su")
                (reader_init_memreader_stream _) eq_refl Hend eq_refl
                (or_intror (conj eq_refl Hshort)))
    as [Hrun Hname].
  split; [split; [apply reader_init_memreader_stream|exact Hshort]|].
  split; [exact Hrun|].
  apply (Hname (fun n => eq_refl)). vm_compute. lia.
Defined.

(* ------------------------------------------------------------------ *)
(** ** Traces and the host's primitives *)

Lemma status_calls_app (t1 t2 : list event) :
  status_calls (t1 ++ t2) = status_calls t1 ++ status_calls t2.
Proof.
  induction t1 as [|e t1 IH]; simpl; [reflexivity|].
  destruct e; simpl; rewrite IH; reflexivity.
Qed.

Lemma errors_app (t1 t2 : list event) :
  errors (t1 ++ t2) = errors t1 ++ errors t2.
Proof. unfold errors. apply filter_app. Qed.

Lemma fwrite_log (h : host) (filename : string) (buf : list byte)
    (w : world) :
  log (fwrite h filename buf w) = log w ++ [sys_fwrite filename buf].
Proof.
  unfold fwrite. simpl.
  destruct (fs w !! resolve h filename) as [[|c]|]; reflexivity.
Qed.

Lemma fwrite_fs (h : host) (filename : string) (buf c : list byte)
    (w : world) :
  fs w !! resolve h filename = Some (File c) ->
  fs (fwrite h filename buf w)
  = <[resolve h filename := File (c ++ buf)]> (fs w).
Proof. intros H. unfold fwrite. simpl. rewrite H. reflexivity. Qed.

Lemma fwrite_all_log (h : host) (filename : string)
    (chunks : list (list byte)) (w : world) :
  log (fwrite_all h filename chunks w)
  = log w ++ map (sys_fwrite filename) chunks.
Proof.
  revert w. induction chunks as [|c chunks IH]; intros w; simpl.
  - rewrite app_nil_r. reflexivity.
  - unfold fwrite_all in *. simpl. rewrite IH, fwrite_log, <- app_assoc.
    reflexivity.
Qed.

Lemma fwrite_all_fs (h : host) (filename : string)
    (chunks : list (list byte)) (c : list byte) (w : world) :
  fs w !! resolve h filename = Some (File c) ->
  fs (fwrite_all h filename chunks w)
  = <[resolve h filename := File (c ++ concat chunks)]> (fs w).
Proof.
  revert c w. induction chunks as [|b chunks IH]; intros c w Hc; simpl.
  - rewrite app_nil_r. symmetry. apply insert_id. exact Hc.
  - unfold fwrite_all in *. simpl.
    rewrite (IH (c ++ b)).
    + rewrite (fwrite_fs h filename b c w Hc), insert_insert_eq, app_assoc.
      reflexivity.
    + rewrite (fwrite_fs h filename b c w Hc). apply lookup_insert_eq.
Qed.

(** The copy loop is its reads followed by the writes. *)
Lemma write_file_loop_chunks (h : host) (fuel : nat) (filename : string)
    (r : reader_t) (len pos : Z) (w : world) :
  write_file_loop h fuel filename r len pos w =
  match copy_chunks fuel r len pos with
  | None => None
  | Some (chunks, e, r') =>
      let w' := fwrite_all h filename chunks w in
      match e with
      | copy_done => Some (1, r', fclose filename w')
      | copy_short p n =>
          Some (0, r', emit (f_error (short_read_message p n filename)) w')
      end
  end.
Proof.
  revert r pos w.
  induction fuel as [|fuel IH]; intros r pos w;
    cbn [write_file_loop copy_chunks].
  - destruct (pos <? len); reflexivity.
  - destruct (pos <? len); [|reflexivity].
    set (l := if pos + 4096 >? len then len - pos else 4096).
    destruct (reader_memread r l) as [[n buf] r1].
    destruct (n <? l); [reflexivity|].
    rewrite IH.
    destruct (copy_chunks fuel r1 len (pos + l)) as [[[chunks e] r2]|];
      reflexivity.
Qed.

(* ------------------------------------------------------------------ *)
(** ** The copy loop *)

(** The size of the next chunk. *)
Lemma chunk_size (len pos : Z) :
  pos < len ->
  let l := if pos + 4096 >? len then len - pos else 4096 in
  0 < l <= 4096 /\ l <= len - pos /\ (l < 4096 -> l = len - pos).
Proof.
  intros Hlt. cbv zeta. rewrite Z.gtb_ltb.
  destruct (Z.ltb_spec len (pos + 4096)); lia.
Qed.

(** Enough fuel: the loop ends. *)
Lemma copy_chunks_total (fuel : nat) (r : reader_t) (len pos : Z) :
  (Z.to_nat (len - pos) <= fuel)%nat ->
  copy_chunks fuel r len pos <> None.
Proof.
  revert r pos. induction fuel as [|fuel IH]; intros r pos Hfuel;
    cbn [copy_chunks]; destruct (Z.ltb_spec pos len) as [Hlt|Hge];
    try discriminate; [lia|].
  pose proof (chunk_size len pos Hlt) as Hl. cbv zeta in Hl.
  set (l := if pos + 4096 >? len then len - pos else 4096) in *.
  destruct (reader_memread r l) as [[n buf] r1].
  destruct (n <? l); [discriminate|].
  specialize (IH r1 (pos + l) ltac:(lia)).
  destruct (copy_chunks fuel r1 len (pos + l)) as [[[chunks e] r2]|];
    [discriminate|contradiction].
Qed.

(** With the whole payload in the stream, the loop copies exactly the
    payload and leaves the reader right behind it. *)
Lemma copy_chunks_payload (fuel : nat) (r : reader_t) (len pos : Z)
    (payload rest : list byte) :
  at_stream r (payload ++ rest) ->
  Z.of_nat (length payload) = Z.max 0 (len - pos) ->
  (Z.to_nat (len - pos) <= fuel)%nat ->
  exists chunks r',
    copy_chunks fuel r len pos = Some (chunks, copy_done, r')
    /\ concat chunks = payload
    /\ at_stream r' rest.
Proof.
  revert r pos payload.
  induction fuel as [|fuel IH]; intros r pos payload Hr Hlen Hfuel;
    cbn [copy_chunks]; destruct (Z.ltb_spec pos len) as [Hlt|Hge];
    try lia;
    try (destruct payload; [|simpl in Hlen; lia];
         exists [], r; repeat split; [apply Hr..]).
  pose proof (chunk_size len pos Hlt) as Hl. cbv zeta in Hl.
  set (l := if pos + 4096 >? len then len - pos else 4096) in *.
  rewrite <- (firstn_skipn (Z.to_nat l) payload), <- app_assoc in Hr.
  destruct (reader_memread_full r _ _ l Hr) as (r1 & E & Hr1).
  { rewrite length_firstn. lia. }
  rewrite E. cbv beta iota. rewrite Z.ltb_irrefl.
  destruct (IH r1 (pos + l) (skipn (Z.to_nat l) payload) Hr1)
    as (chunks & r2 & E2 & Hc & Hr2).
  { rewrite length_skipn. lia. }
  { lia. }
  rewrite E2. exists (firstn (Z.to_nat l) payload :: chunks), r2.
  split; [reflexivity|]. split; [|exact Hr2].
  simpl. rewrite Hc. apply firstn_skipn.
Qed.

(** With a stream that ends before [len] bytes have been copied, the loop
    copies the whole chunks of 4096 bytes that the stream holds and then
    meets the short read. *)
Lemma copy_chunks_short (fuel : nat) (r : reader_t) (len pos : Z)
    (s : list byte) :
  at_stream r s ->
  Z.of_nat (length s) < len - pos ->
  (Z.to_nat (len - pos) <= fuel)%nat ->
  exists chunks r' k,
    copy_chunks fuel r len pos
    = Some (chunks, copy_short (pos + 4096 * k) (Z.of_nat (length s) - 4096 * k),
            r')
    /\ 0 <= k
    /\ 4096 * k <= Z.of_nat (length s) < 4096 * (k + 1)
    /\ concat chunks = firstn (Z.to_nat (4096 * k)) s
    /\ Forall (fun c => Z.of_nat (length c) = 4096) chunks
    /\ at_stream r' [].
Proof.
  revert r pos s.
  induction fuel as [|fuel IH]; intros r pos s Hr Hlen Hfuel;
    cbn [copy_chunks]; destruct (Z.ltb_spec pos len) as [Hlt|Hge]; try lia.
  pose proof (chunk_size len pos Hlt) as Hl. cbv zeta in Hl.
  set (l := if pos + 4096 >? len then len - pos else 4096) in *.
  destruct (Z.lt_ge_cases (Z.of_nat (length s)) l) as [Hshort|Hfull].
  - destruct (reader_memread_short r s l Hr Hshort) as (r1 & E & Hr1).
    rewrite E. cbv beta iota.
    destruct (Z.ltb_spec (Z.of_nat (length s)) l); [|lia].
    exists [], r1, 0. rewrite Z.mul_0_r, Z.add_0_r, Z.sub_0_r.
    repeat split; try lia; [constructor|apply Hr1..].
  - assert (Hl4 : l = 4096) by lia.
    rewrite <- (firstn_skipn (Z.to_nat l) s) in Hr.
    destruct (reader_memread_full r _ _ l Hr) as (r1 & E & Hr1).
    { rewrite length_firstn. lia. }
    rewrite E. cbv beta iota. rewrite Z.ltb_irrefl.
    destruct (IH r1 (pos + l) (skipn (Z.to_nat l) s) Hr1)
      as (chunks & r2 & k & E2 & Hk & Hbound & Hc & Hall & Hr2).
    { rewrite length_skipn. lia. }
    { lia. }
    rewrite E2. rewrite length_skipn in *.
    exists (firstn (Z.to_nat l) s :: chunks), r2, (k + 1).
    split; [|split; [lia|split; [lia|split; [|split; [|exact Hr2]]]]].
    + do 3 f_equal. f_equal; lia.
    + simpl. rewrite Hc, take_take_drop. f_equal. lia.
    + constructor; [rewrite length_firstn; lia|exact Hall].
Qed.

(** The reader comes out of the loop well formed, with no more bytes left
    than it had. *)
Lemma copy_chunks_reader (fuel : nat) (r : reader_t) (len pos : Z)
    (chunks : list (list byte)) (e : copy_end) (r' : reader_t) :
  reader_wf r ->
  copy_chunks fuel r len pos = Some (chunks, e, r') ->
  reader_wf r' /\ (length (remaining r') <= length (remaining r))%nat.
Proof.
  revert r pos chunks.
  induction fuel as [|fuel IH]; intros r pos chunks Hr;
    cbn [copy_chunks]; destruct (Z.ltb_spec pos len) as [Hlt|Hge];
    try discriminate;
    try (intros [= <- <- <-]; split; [exact Hr|lia]).
  pose proof (chunk_size len pos Hlt) as Hl. cbv zeta in Hl.
  set (l := if pos + 4096 >? len then len - pos else 4096) in *.
  destruct (reader_memread_stream r (remaining r) l) as (r1 & E & Hr1 & Hrem1);
    [split; [exact Hr|reflexivity]|lia|].
  rewrite E. cbv beta iota.
  assert (Hle : (length (remaining r1) <= length (remaining r))%nat)
    by (rewrite Hrem1, length_skipn; lia).
  destruct (_ <? l).
  - intros [= <- <- <-]. split; assumption.
  - destruct (copy_chunks fuel r1 len (pos + l)) as [[[chunks1 e1] r2]|] eqn:E2;
      [|discriminate].
    intros [= <- <- <-]. destruct (IH _ _ _ Hr1 E2). split; [assumption|lia].
Qed.

(* ------------------------------------------------------------------ *)
(** ** write_file *)

Section WriteFile.

Variable h : host.

Lemma fopen_wb_open (filename : string) (w : world) :
  can_open h w filename = true ->
  fopen_wb h filename w
  = (true, mk_world (<[resolve h filename := File []]> (fs w))
                    (log w ++ [sys_fopen filename])).
Proof.
  unfold can_open, fopen_wb. intros H. apply negb_true_iff in H.
  change (is_directory (emit (sys_fopen filename) w) (resolve h filename))
    with (is_directory w (resolve h filename)).
  rewrite H. reflexivity.
Qed.

Lemma fopen_wb_refused (filename : string) (w : world) :
  can_open h w filename = false ->
  fopen_wb h filename w = (false, emit (sys_fopen filename) w).
Proof.
  unfold can_open, fopen_wb. intros H. apply negb_false_iff in H.
  change (is_directory (emit (sys_fopen filename) w) (resolve h filename))
    with (is_directory w (resolve h filename)).
  rewrite H. reflexivity.
Qed.

(** [write_file] as its reads followed by its effects on the world. *)
Lemma write_file_unfold (filename : string) (r : reader_t) (len : Z)
    (w : world) :
  let p := opened_name filename in
  write_file h filename r len w =
  if can_open h w p then
    match copy_chunks (Z.to_nat len) r len 0 with
    | None => None
    | Some (chunks, e, r') =>
        let evs := [f_new_file p; sys_fopen p] ++ map (sys_fwrite p) chunks in
        let w' := mk_world (<[resolve h p := File (concat chunks)]> (fs w))
                           (log w ++ evs) in
        match e with
        | copy_done => Some (1, r', fclose p w')
        | copy_short pos n =>
            Some (0, r', emit (f_error (short_read_message pos n p)) w')
        end
    end
  else
    Some (0, r,
          mk_world (fs w)
                   (log w ++ [f_new_file p; sys_fopen p;
                              f_error ("Couldn't create file " +:+ p)])).
Proof.
  cbv zeta. unfold write_file. fold (opened_name filename).
  set (p := opened_name filename).
  assert (Hsame : can_open h (emit (f_new_file p) w) p = can_open h w p)
    by reflexivity.
  destruct (can_open h w p) eqn:Hopen.
  - rewrite (fopen_wb_open p _ Hsame). cbv beta iota. simpl negb. cbv iota.
    rewrite write_file_loop_chunks.
    destruct (copy_chunks (Z.to_nat len) r len 0) as [[[chunks e] r']|];
      [|reflexivity].
    cbv zeta.
    set (w1 := mk_world _ _).
    assert (Hw : fwrite_all h p chunks w1
                 = mk_world (<[resolve h p := File (concat chunks)]> (fs w))
                     (log w ++ [f_new_file p; sys_fopen p]
                      ++ map (sys_fwrite p) chunks)).
    { pose proof (fwrite_all_fs h p chunks [] w1) as Hfs.
      pose proof (fwrite_all_log h p chunks w1) as Hlog.
      destruct (fwrite_all h p chunks w1) as [m t]. simpl in Hfs, Hlog.
      rewrite Hfs by apply lookup_insert_eq. rewrite insert_insert_eq.
      rewrite Hlog. simpl. rewrite <- !app_assoc. reflexivity. }
    rewrite Hw. reflexivity.
  - rewrite (fopen_wb_refused p _ Hsame). cbv beta iota. simpl negb. cbv iota.
    unfold emit. simpl. rewrite <- !app_assoc. reflexivity.
Qed.

(** C10. When the input ends before [len] bytes have been copied and the
    destination could be opened, [write_file] returns 0 after exactly one
    error call, the one for the short read; the stream on the destination
    is not closed; and the destination file holds the chunks of 4096
    bytes written before the short read, all of them and nothing else. *)
Theorem write_file_short_read (filename : string) (r : reader_t) (len : Z)
    (w : world) (s : list byte) :
  at_stream r s ->
  Z.of_nat (length s) < len ->
  can_open h w (opened_name filename) = true ->
  let p := opened_name filename in
  exists r' w' k chunks evs,
    write_file h filename r len w = Some (0, r', w')
    /\ 0 <= k
    /\ 4096 * k <= Z.of_nat (length s) < 4096 * (k + 1)
    /\ concat chunks = firstn (Z.to_nat (4096 * k)) s
    /\ log w' = log w ++ evs
    /\ evs = [f_new_file p; sys_fopen p] ++ map (sys_fwrite p) chunks
             ++ [f_error (short_read_message
                            (4096 * k) (Z.of_nat (length s) - 4096 * k) p)]
    /\ ~ In (sys_fclose p) evs
    /\ length (errors evs) = 1%nat
    /\ fs w' = <[resolve h p := File (firstn (Z.to_nat (4096 * k)) s)]> (fs w).
Proof.
  intros Hr Hlen Hopen p.
  destruct (copy_chunks_short (Z.to_nat len) r len 0 s Hr)
    as (chunks & r' & k & E & Hk & Hbound & Hc & Hall & Hr'); [lia|lia|].
  pose proof (write_file_unfold filename r len w) as Hw. cbv zeta in Hw.
  fold p in Hw, Hopen. rewrite Hopen, E in Hw. rewrite Z.add_0_l in Hw.
  eexists r', _, k, chunks, _. split; [exact Hw|].
  split; [exact Hk|]. split; [exact Hbound|]. split; [exact Hc|].
  split; [simpl; rewrite <- app_assoc; reflexivity|].
  split; [reflexivity|].
  split.
  { simpl. intros [H|[H|H]]; try discriminate H.
    apply in_app_or in H. destruct H as [H|[H|[]]]; [|discriminate H].
    apply in_map_iff in H. destruct H as (c & H & _). discriminate H. }
  split.
  { rewrite errors_app.
    assert (Hnone : errors (map (sys_fwrite p) chunks) = []).
    { clear. induction chunks as [|c chunks IH]; [reflexivity|exact IH]. }
    change (errors (f_new_file p :: sys_fopen p :: map (sys_fwrite p) chunks))
      with (errors (map (sys_fwrite p) chunks)).
    rewrite Hnone. reflexivity. }
  simpl. rewrite Hc. reflexivity.
Qed.

(** With the whole payload in the stream, [write_file] either cannot open
    the destination and returns 0, or writes exactly the payload, closes
    the stream and leaves the reader right behind the payload. *)
Lemma write_file_payload (filename : string) (r : reader_t) (len : Z)
    (w : world) (payload rest : list byte) :
  at_stream r (payload ++ rest) ->
  Z.of_nat (length payload) = Z.max 0 len ->
  let p := opened_name filename in
  exists r' w' evs,
    write_file h filename r len w
    = Some (if can_open h w p then 1 else 0, r', w')
    /\ log w' = log w ++ evs
    /\ status_calls evs = []
    /\ (can_open h w p = true ->
        at_stream r' rest
        /\ fs w' = <[resolve h p := File payload]> (fs w)
        /\ errors evs = []
        /\ In (sys_fclose p) evs).
Proof.
  intros Hr Hlen p.
  destruct (copy_chunks_payload (Z.to_nat len) r len 0 payload rest Hr)
    as (chunks & r' & E & Hc & Hr'); [lia|lia|].
  pose proof (write_file_unfold filename r len w) as Hw. cbv zeta in Hw.
  fold p in Hw. rewrite E in Hw.
  assert (Hst : forall l : list (list byte),
             status_calls (map (sys_fwrite p) l) = []
             /\ errors (map (sys_fwrite p) l) = []).
  { induction l as [|c l IH]; [split; reflexivity|exact IH]. }
  destruct (can_open h w p).
  - eexists r', _, _. split; [exact Hw|].
    split; [simpl; rewrite <- !app_assoc; simpl; reflexivity|].
    split.
    { simpl. rewrite status_calls_app, (proj1 (Hst chunks)). reflexivity. }
    intros _. split; [exact Hr'|]. split; [simpl; rewrite Hc; reflexivity|].
    split.
    { change (errors (map (sys_fwrite p) chunks ++ [sys_fclose p]) = []).
      rewrite errors_app, (proj2 (Hst chunks)). reflexivity. }
    simpl. right. right. apply in_or_app. right. left. reflexivity.
  - eexists r, _, _. split; [exact Hw|].
    split; [reflexivity|]. split; [reflexivity|]. discriminate.
Qed.

End WriteFile.

(** 5001 bytes asked for from a stream of 5000: one chunk is written. *)
Lemma write_file_short_read_witness :
  let h := plain_host true in
  let s := repeat x2a 5000 in
  let r := reader_init_memreader s (Z.of_nat (length s)) in
  let p := opened_name "dest/a.bin" in
  (at_stream r s
   /\ Z.of_nat (length s) < 5001
   /\ can_open h empty_world p = true)
  /\ exists r' w' k chunks evs,
       write_file h "dest/a.bin" r 5001 empty_world = Some (0, r', w')
       /\ 0 <= k
       /\ 4096 * k <= Z.of_nat (length s) < 4096 * (k + 1)
       /\ concat chunks = firstn (Z.to_nat (4096 * k)) s
       /\ log w' = log empty_world ++ evs
       /\ evs = [f_new_file p; sys_fopen p] ++ map (sys_fwrite p) chunks
                ++ [f_error (short_read_message
                               (4096 * k) (Z.of_nat (length s) - 4096 * k) p)]
       /\ ~ In (sys_fclose p) evs
       /\ length (errors evs) = 1%nat
       /\ fs w' = <[resolve h p := File (firstn (Z.to_nat (4096 * k)) s)]>
                   (fs empty_world).
Proof.
  cbv zeta.
  assert (Hlen : Z.of_nat (length (repeat x2a 5000)) < 5001)
    by (rewrite repeat_length; lia).
  split.
  - split; [apply reader_init_memreader_stream|].
    split; [exact Hlen|reflexivity].
  - apply (write_file_short_read (plain_host true) "dest/a.bin"
             (reader_init_memreader _ _) 5001 empty_world (repeat x2a 5000)
             (reader_init_memreader_stream _) Hlen eq_refl).
Defined.

(* ------------------------------------------------------------------ *)
(** ** create_directory and the dispatch of an entry *)

Section Dispatch.

Variable h : host.

(** [create_directory] case by case. *)
Lemma create_directory_unfold (path : option string) (w : world) :
  let p := created_name path in
  create_directory h path w =
  if nothing_to_do path then (1, w)
  else if is_directory w (resolve h p) then (1, emit (sys_isdir p) w)
  else if can_mkdir h w p then
    (1, mk_world (<[resolve h p := Dir]> (fs w))
                 (log w ++ [sys_isdir p; sys_mkdir p]))
  else
    (0, mk_world (fs w)
          (log w ++ [sys_isdir p; sys_mkdir p;
                     f_error ("create directory " +:+ dquote +:+ p
                              +:+ dquote +:+ " FAILED")])).
Proof.
  cbv zeta. unfold create_directory. fold (created_name path).
  set (p := created_name path).
  destruct (nothing_to_do path); [reflexivity|].
  unfold path_is_directory. cbv beta iota.
  destruct (is_directory w (resolve h p)); [reflexivity|].
  unfold mkdir, can_mkdir. simpl fs.
  destruct (denied h p || String.eqb p ""); simpl.
  - unfold emit. simpl. rewrite <- !app_assoc. reflexivity.
  - destruct (fs w !! resolve h p); unfold emit; simpl;
      rewrite <- !app_assoc; reflexivity.
Qed.

(** [create_directory] makes no status call. *)
Lemma create_directory_log (path : option string) (w : world) :
  exists evs,
    log (snd (create_directory h path w)) = log w ++ evs
    /\ status_calls evs = [].
Proof.
  pose proof (create_directory_unfold path w) as E. cbv zeta in E. rewrite E.
  destruct (nothing_to_do path);
    [exists []; rewrite app_nil_r; split; reflexivity|].
  destruct (is_directory w _); [eexists; split; reflexivity|].
  destruct (can_mkdir h w _); eexists; split; reflexivity.
Qed.

(** A valid entry whose payload is next in the stream: the dispatch ends
    (it does not run out of fuel), makes no status call and, unless it
    fails, leaves the reader right behind the payload. *)
Lemma dispatch_entry_valid (e : entry) (filename : string) (z : reader_t)
    (w : world) (rest : list byte) :
  valid_entry e ->
  at_stream z (e_payload e ++ rest) ->
  exists ok z' w' evs,
    dispatch_entry h (entry_tag e) filename (int_of_bytes (e_size e)) z w
    = Some (ok, z', w')
    /\ log w' = log w ++ evs
    /\ status_calls evs = []
    /\ (ok <> 0 -> at_stream z' rest).
Proof.
  intros (_ & _ & _ & _ & Hpay) Hz. unfold dispatch_entry.
  destruct (String.eqb (entry_tag e) "DIR").
  - destruct (e_payload e); [|discriminate Hpay]. simpl in Hz.
    destruct (create_directory_log (Some filename)
                (emit (f_new_directory filename) w)) as (evs & Hlog & Hst).
    destruct (create_directory h (Some filename) _) as [ok w1].
    simpl in Hlog.
    destruct (ok =? 0); do 4 eexists;
      (split; [reflexivity|]);
      (split; [rewrite Hlog, <- app_assoc; reflexivity|]);
      (split; [exact Hst|]); intros; exact Hz.
  - destruct (create_directory_log (Some (get_directory filename)) w)
      as (evs & Hlog & Hst).
    destruct (create_directory h (Some (get_directory filename)) w) as [ok w1].
    simpl in Hlog.
    destruct (ok =? 0).
    { do 4 eexists. split; [reflexivity|]. split; [exact Hlog|].
      split; [exact Hst|]. contradiction. }
    destruct (write_file_payload h filename z (int_of_bytes (e_size e)) w1
                (e_payload e) rest Hz) as (z' & w2 & evs2 & E & Hlog2 & Hst2 & Hok).
    { rewrite Hpay. lia. }
    rewrite E. destruct (can_open h w1 (opened_name filename)); simpl.
    + do 4 eexists. split; [reflexivity|].
      split; [rewrite Hlog2, Hlog, <- app_assoc; reflexivity|].
      split; [rewrite status_calls_app, Hst, Hst2; reflexivity|].
      intros _. apply Hok. reflexivity.
    + do 4 eexists. split; [reflexivity|].
      split; [rewrite Hlog2, Hlog, <- app_assoc; reflexivity|].
      split; [rewrite status_calls_app, Hst, Hst2; reflexivity|].
      contradiction.
Qed.

Lemma status_run_snoc (first : Z) (count : nat) (num : Z) :
  status_run first (S count) num
  = (first, num) :: status_run (first + 1) count num.
Proof. reflexivity. Qed.

(** The status calls of the loop over the entries of a valid archive. *)
Lemma unpack_loop_status (destdir : string) (num : Z) (es : list entry) :
  forall (fuel : nat) (z : reader_t) (pos : Z) (w w' : world),
    Forall valid_entry es ->
    at_stream z (encode_entries es ++ list_byte_of_string "END") ->
    unpack_loop h fuel destdir num z pos w = Some (1, w') ->
    status_calls (log w')
    = status_calls (log w) ++ status_run (pos + 1) (length es) num.
Proof.
  induction es as [|e es IH]; intros fuel z pos w w' Hvalid Hz Hrun;
    (destruct fuel as [|fuel]; [discriminate Hrun|]).
  - simpl in Hz.
    destruct (reader_memread_full z (list_byte_of_string "END") [] 3)
      as (z0 & E0 & _); [rewrite app_nil_r; exact Hz|reflexivity|].
    cbn [unpack_loop] in Hrun. rewrite E0 in Hrun.
    change (Some (1, emit (f_message "Finishing Installation") w) = Some (1, w'))
      in Hrun.
    injection Hrun as <-. simpl. rewrite status_calls_app. reflexivity.
  - inversion Hvalid as [|? ? He Hes]; subst.
    pose proof He as (Hid & Hend & Hsize & Hname & Hpay).
    unfold encode_entries in Hz. simpl flat_map in Hz.
    fold (encode_entries es) in Hz. unfold encode_entry in Hz.
    rewrite <- !app_assoc in Hz.
    destruct (unpack_loop_round h fuel destdir num z pos w _ _ _ Hz Hid Hend
                Hsize) as (z1 & Hz1 & E).
    destruct (read_filename_full h z1 _ _ _ Hz1 Hname) as (z2 & E2 & Hz2).
    rewrite E, E2 in Hrun. cbv beta iota zeta in Hrun.
    fold (entry_tag e) in Hrun.
    destruct (dispatch_entry_valid e
                (concatPaths h destdir (skip_dot_slash (c_str (e_name e)))) z2
                (emit (f_message
                         (entry_message (entry_tag e)
                            (concatPaths h destdir
                               (skip_dot_slash (c_str (e_name e))))
                            (int_of_bytes (e_size e))))
                   (emit (f_status (pos + 1) num) w))
                _ He Hz2) as (ok & z3 & w3 & evs & Ed & Hlog & Hst & Hok).
    rewrite Ed in Hrun.
    destruct (Z.eqb_spec ok 0) as [->|Hne]; [discriminate Hrun|].
    rewrite (IH fuel z3 (pos + 1) w3 w' Hes (Hok Hne) Hrun).
    rewrite Hlog. simpl log. rewrite !status_calls_app, Hst. simpl.
    rewrite <- !app_assoc. reflexivity.
Qed.

(** C4, amended. When an archive made of a header and N valid entries is
    unpacked with success, the sink receives exactly N+1 status calls:
    the initial one with first argument 0, then one per entry with first
    arguments 1 to N; the second argument is always the header read as a
    little-endian 32-bit [int]. *)
Theorem status_calls_of_valid_archive (data : list byte) (destdir : string)
    (w w' : world) (header : list byte) (es : list entry) :
  decompress h data = Some (encode_archive header es) ->
  length header = 4%nat ->
  Forall valid_entry es ->
  unpack_archive h data destdir w = Some (1, w') ->
  status_calls (log w')
  = status_calls (log w)
    ++ status_run 0 (S (length es)) (int_of_bytes header).
Proof.
  intros Hdec Hheader Hvalid Hrun.
  unfold unpack_archive, reader_init_decompress in Hrun. rewrite Hdec in Hrun.
  destruct (create_directory_log (Some destdir)
              (emit (f_message "Creating installation directory") w))
    as (evs & Hlog & Hst).
  destruct (create_directory h (Some destdir) _) as [ok w1].
  simpl in Hlog.
  destruct (ok =? 0); [discriminate Hrun|].
  destruct (read_int_full
              (reader_init_memreader (encode_archive header es)
                 (Z.of_nat (length (encode_archive header es))))
              header (encode_entries es ++ list_byte_of_string "END"))
    as (z1 & E1 & Hz1);
    [apply reader_init_memreader_stream|exact Hheader|].
  rewrite E1 in Hrun. change (4 <? 4) with false in Hrun. cbv iota in Hrun.
  rewrite (unpack_loop_status destdir _ es _ z1 0 _ w' Hvalid Hz1 Hrun).
  simpl log. rewrite !status_calls_app, Hlog, !status_calls_app, Hst.
  simpl. rewrite <- !app_assoc. reflexivity.
Qed.

End Dispatch.

(** The status calls of the scenario archive. *)
Lemma status_calls_of_valid_archive_witness :
  let h := plain_host false in
  let header := [x01; x00; x00; x00] in
  exists w',
    (decompress h scenario_archive
     = Some (encode_archive header [scenario_entry])
     /\ length header = 4%nat
     /\ Forall valid_entry [scenario_entry]
     /\ unpack_archive h scenario_archive "dest" empty_world = Some (1, w'))
    /\ status_calls (log w')
       = status_calls (log empty_world)
         ++ status_run 0 (S (length [scenario_entry])) (int_of_bytes header).
Proof.
  cbv zeta.
  assert (Hvalid : Forall valid_entry [scenario_entry]).
  { constructor; [|constructor].
    repeat split; try reflexivity. vm_compute. discriminate. }
  destruct (unpack_archive (plain_host false) scenario_archive "dest"
              empty_world) as [[ok w']|] eqn:Hrun;
    [|vm_compute in Hrun; discriminate].
  assert (Hok : ok = 1) by (vm_compute in Hrun; congruence).
  subst ok. exists w'.
  split; [repeat split; exact Hvalid|].
  exact (status_calls_of_valid_archive (plain_host false) scenario_archive
           "dest" empty_world w' [x01; x00; x00; x00] [scenario_entry]
           eq_refl eq_refl Hvalid Hrun).
Defined.

(* ------------------------------------------------------------------ *)
(** ** What a path names never changes kind *)

Lemma kinds_kept_refl (m : gmap string node) : kinds_kept m m.
Proof. intros p. split; eauto. Qed.

Lemma kinds_kept_trans (m1 m2 m3 : gmap string node) :
  kinds_kept m1 m2 -> kinds_kept m2 m3 -> kinds_kept m1 m3.
Proof.
  intros H12 H23 p. destruct (H12 p) as [Hd Hf], (H23 p) as [Hd' Hf'].
  split; [auto|]. intros c Hc. destruct (Hf c Hc) as [d Hd2]. eauto.
Qed.

Lemma kinds_kept_mkdir (m : gmap string node) (p : string) :
  m !! p = None -> kinds_kept m (<[p := Dir]> m).
Proof.
  intros Hnone q. destruct (decide (p = q)) as [->|Hne].
  - rewrite Hnone. split; [discriminate|]. intros c Hc. discriminate Hc.
  - rewrite lookup_insert_ne by exact Hne. split; eauto.
Qed.

Lemma kinds_kept_put_file (m : gmap string node) (p : string) (d : list byte) :
  m !! p <> Some Dir -> kinds_kept m (<[p := File d]> m).
Proof.
  intros Hnd q. destruct (decide (p = q)) as [->|Hne].
  - rewrite lookup_insert_eq. split; [intros H; contradiction|eauto].
  - rewrite lookup_insert_ne by exact Hne. split; eauto.
Qed.

Lemma is_directory_false (w : world) (p : string) :
  is_directory w p = false <-> fs w !! p <> Some Dir.
Proof.
  unfold is_directory. destruct (fs w !! p) as [[|c]|]; split;
    intros H; try reflexivity; try discriminate; try congruence.
Qed.

Lemma is_directory_true (w : world) (p : string) :
  is_directory w p = true <-> fs w !! p = Some Dir.
Proof.
  unfold is_directory. destruct (fs w !! p) as [[|c]|]; split;
    intros H; try reflexivity; try discriminate.
Qed.

Lemma can_open_true (h : host) (w : world) (p : string) :
  can_open h w p = true
  <-> (denied h p || String.eqb p "") = false
      /\ is_directory w (resolve h p) = false.
Proof.
  unfold can_open. rewrite negb_true_iff, orb_false_iff. reflexivity.
Qed.

Lemma can_mkdir_true (h : host) (w : world) (p : string) :
  can_mkdir h w p = true
  <-> (denied h p || String.eqb p "") = false /\ fs w !! resolve h p = None.
Proof.
  unfold can_mkdir. rewrite andb_true_iff, negb_true_iff.
  destruct (fs w !! resolve h p); split; intros [H1 H2]; split; congruence.
Qed.

Section Kinds.

Variable h : host.

Lemma create_directory_ok (path : option string) (w : world) :
  fst (create_directory h path w) = 0 \/ fst (create_directory h path w) = 1.
Proof.
  pose proof (create_directory_unfold h path w) as E. cbv zeta in E. rewrite E.
  destruct (nothing_to_do path); [right; reflexivity|].
  destruct (is_directory w _); [right; reflexivity|].
  destruct (can_mkdir h w _); [right|left]; reflexivity.
Qed.

Lemma create_directory_kinds (path : option string) (w : world) :
  kinds_kept (fs w) (fs (snd (create_directory h path w))).
Proof.
  pose proof (create_directory_unfold h path w) as E. cbv zeta in E. rewrite E.
  destruct (nothing_to_do path); [apply kinds_kept_refl|].
  destruct (is_directory w _); [apply kinds_kept_refl|].
  destruct (can_mkdir h w _) eqn:Hmk; [|apply kinds_kept_refl].
  apply can_mkdir_true in Hmk. apply kinds_kept_mkdir. apply Hmk.
Qed.

Lemma write_file_result (filename : string) (r : reader_t) (len : Z)
    (w : world) (ok : Z) (r' : reader_t) (w' : world) :
  write_file h filename r len w = Some (ok, r', w') ->
  (ok = 0 \/ ok = 1) /\ kinds_kept (fs w) (fs w').
Proof.
  pose proof (write_file_unfold h filename r len w) as E. cbv zeta in E.
  rewrite E. clear E.
  destruct (can_open h w _) eqn:Hopen.
  - apply can_open_true in Hopen. destruct Hopen as [_ Hnd].
    apply is_directory_false in Hnd.
    destruct (copy_chunks _ r len 0) as [[[chunks e] r1]|]; [|discriminate].
    destruct e; intros [= <- <- <-]; (split; [auto|]);
      apply kinds_kept_put_file; exact Hnd.
  - intros [= <- <- <-]. split; [auto|apply kinds_kept_refl].
Qed.

Lemma dispatch_entry_result (id filename : string) (len : Z) (z : reader_t)
    (w : world) (ok : Z) (z' : reader_t) (w' : world) :
  dispatch_entry h id filename len z w = Some (ok, z', w') ->
  (ok = 0 \/ ok = 1) /\ kinds_kept (fs w) (fs w').
Proof.
  unfold dispatch_entry. destruct (String.eqb id "DIR").
  - pose proof (create_directory_kinds (Some filename)
                  (emit (f_new_directory filename) w)) as Hk.
    destruct (create_directory h (Some filename) _) as [ok1 w1].
    destruct (ok1 =? 0); intros [= <- <- <-]; (split; [auto|exact Hk]).
  - pose proof (create_directory_kinds (Some (get_directory filename)) w) as Hk.
    destruct (create_directory h (Some (get_directory filename)) w)
      as [ok1 w1]. simpl in Hk.
    destruct (ok1 =? 0); [intros [= <- <- <-]; split; [auto|exact Hk]|].
    destruct (write_file h filename z len w1) as [[[ok2 z2] w2]|] eqn:Ew;
      [|discriminate].
    destruct (write_file_result _ _ _ _ _ _ _ Ew) as [_ Hk2].
    destruct (ok2 =? 0); intros [= <- <- <-];
      (split; [auto|eapply kinds_kept_trans; eassumption]).
Qed.

Lemma unpack_loop_kinds (destdir : string) (num : Z) (fuel : nat) :
  forall (z : reader_t) (pos : Z) (w : world) (ok : Z) (w' : world),
    unpack_loop h fuel destdir num z pos w = Some (ok, w') ->
    kinds_kept (fs w) (fs w').
Proof.
  induction fuel as [|fuel IH]; intros z pos w ok w' Hrun;
    [discriminate Hrun|].
  cbn [unpack_loop] in Hrun.
  destruct (reader_memread z 3) as [[n id] z0].
  destruct (n <? 3); [injection Hrun as <- <-; apply kinds_kept_refl|].
  destruct (String.eqb _ "END");
    [injection Hrun as <- <-; apply kinds_kept_refl|].
  destruct (read_int z0) as [[l len] z1].
  destruct (l <? 4); [injection Hrun as <- <-; apply kinds_kept_refl|].
  destruct (read_filename h z1) as [filename z2].
  destruct (dispatch_entry h _ _ len z2 _) as [[[ok1 z3] w1]|] eqn:Ed;
    [|discriminate Hrun].
  destruct (dispatch_entry_result _ _ _ _ _ _ _ _ Ed) as [_ Hk].
  destruct (ok1 =? 0); [injection Hrun as <- <-; exact Hk|].
  eapply kinds_kept_trans; [exact Hk|]. eapply IH. exact Hrun.
Qed.

End Kinds.

(* ------------------------------------------------------------------ *)
(** ** A successful run reports no error *)

Lemma errors_fwrites (p : string) (chunks : list (list byte)) :
  errors (map (sys_fwrite p) chunks) = [].
Proof. induction chunks as [|c chunks IH]; [reflexivity|exact IH]. Qed.

Section Silent.

Variable h : host.

Lemma create_directory_silent (path : option string) (w w' : world) :
  create_directory h path w = (1, w') -> errors (log w') = errors (log w).
Proof.
  pose proof (create_directory_unfold h path w) as E. cbv zeta in E.
  rewrite E. clear E.
  destruct (nothing_to_do path); [intros [= <-]; reflexivity|].
  destruct (is_directory w _).
  { intros [= <-]. simpl. rewrite errors_app. apply app_nil_r. }
  destruct (can_mkdir h w _); [|discriminate].
  intros [= <-]. simpl. rewrite errors_app. apply app_nil_r.
Qed.

Lemma write_file_silent (filename : string) (r r' : reader_t) (len : Z)
    (w w' : world) :
  write_file h filename r len w = Some (1, r', w') ->
  errors (log w') = errors (log w).
Proof.
  pose proof (write_file_unfold h filename r len w) as E. cbv zeta in E.
  rewrite E. clear E.
  destruct (can_open h w _); [|discriminate].
  destruct (copy_chunks _ r len 0) as [[[chunks e] r1]|]; [|discriminate].
  destruct e; [|discriminate]. intros [= <- <-]. simpl.
  rewrite !errors_app.
  change (errors (f_new_file (opened_name filename)
                  :: sys_fopen (opened_name filename)
                  :: map (sys_fwrite (opened_name filename)) chunks))
    with (errors (map (sys_fwrite (opened_name filename)) chunks)).
  rewrite errors_fwrites. simpl. rewrite !app_nil_r. reflexivity.
Qed.

Lemma dispatch_entry_silent (id filename : string) (len : Z)
    (z z' : reader_t) (w w' : world) :
  dispatch_entry h id filename len z w = Some (1, z', w') ->
  errors (log w') = errors (log w).
Proof.
  unfold dispatch_entry. destruct (String.eqb id "DIR").
  - pose proof (create_directory_ok h (Some filename)
                  (emit (f_new_directory filename) w)) as Hok.
    destruct (create_directory h (Some filename) _) as [ok w1] eqn:Ec.
    simpl in Hok. destruct Hok as [-> | ->]; [discriminate|].
    intros [= <- <-]. rewrite (create_directory_silent _ _ _ Ec).
    simpl. rewrite errors_app. apply app_nil_r.
  - pose proof (create_directory_ok h (Some (get_directory filename)) w) as Hok.
    destruct (create_directory h (Some (get_directory filename)) w)
      as [ok w1] eqn:Ec.
    simpl in Hok. destruct Hok as [-> | ->]; [discriminate|].
    change (1 =? 0) with false. cbv iota.
    destruct (write_file h filename z len w1) as [[[ok2 z2] w2]|] eqn:Ew;
      [|discriminate].
    destruct (write_file_result h _ _ _ _ _ _ _ Ew) as [[-> | ->] _];
      [discriminate|].
    intros [= <- <-].
    rewrite (write_file_silent _ _ _ _ _ _ Ew).
    apply (create_directory_silent _ _ _ Ec).
Qed.

Lemma unpack_loop_silent (destdir : string) (num : Z) (fuel : nat) :
  forall (z : reader_t) (pos : Z) (w w' : world),
    unpack_loop h fuel destdir num z pos w = Some (1, w') ->
    errors (log w') = errors (log w).
Proof.
  induction fuel as [|fuel IH]; intros z pos w w' Hrun;
    [discriminate Hrun|].
  cbn [unpack_loop] in Hrun.
  destruct (reader_memread z 3) as [[n id] z0].
  destruct (n <? 3); [discriminate Hrun|].
  destruct (String.eqb _ "END").
  { injection Hrun as <-. simpl. rewrite errors_app. apply app_nil_r. }
  destruct (read_int z0) as [[l len] z1].
  destruct (l <? 4); [discriminate Hrun|].
  destruct (read_filename h z1) as [filename z2].
  destruct (dispatch_entry h _ _ len z2 _) as [[[ok1 z3] w1]|] eqn:Ed;
    [|discriminate Hrun].
  destruct (dispatch_entry_result h _ _ _ _ _ _ _ _ Ed) as [[-> | ->] _];
    [discriminate Hrun|].
  change (1 =? 0) with false in Hrun. cbv iota in Hrun.
  rewrite (IH _ _ _ _ Hrun), (dispatch_entry_silent _ _ _ _ _ _ _ Ed).
  simpl. rewrite !errors_app. simpl. rewrite !app_nil_r. reflexivity.
Qed.

(** A run of [unpack_archive] that returns 1 has called [error] never. *)
Lemma unpack_archive_silent (data : list byte) (destdir : string)
    (w w' : world) :
  unpack_archive h data destdir w = Some (1, w') ->
  errors (log w') = errors (log w).
Proof.
  unfold unpack_archive.
  destruct (reader_init_decompress h data) as [z|]; [|discriminate].
  pose proof (create_directory_ok h (Some destdir)
                (emit (f_message "Creating installation directory") w))
    as Hok.
  destruct (create_directory h (Some destdir) _) as [ok w1] eqn:Ec.
  simpl in Hok. destruct Hok as [-> | ->]; [discriminate|].
  change (1 =? 0) with false. cbv iota.
  destruct (read_int z) as [[l num] z1].
  destruct (l <? 4); [discriminate|].
  intros Hrun. rewrite (unpack_loop_silent _ _ _ _ _ _ _ Hrun).
  simpl. rewrite !errors_app. simpl. rewrite !app_nil_r.
  rewrite (create_directory_silent _ _ _ Ec).
  simpl. rewrite errors_app. apply app_nil_r.
Qed.

End Silent.

(* ------------------------------------------------------------------ *)
(** ** Unpacking a second time *)

Lemma replays_final (m : gmap string node) (b : gmap string node) :
  replays m b m -> b = m.
Proof.
  intros H. apply map_eq. intros p. destruct (H p); assumption.
Qed.

Lemma replays_put (a b final : gmap string node) (p : string) (n : node) :
  replays a b final -> replays (<[p := n]> a) (<[p := n]> b) final.
Proof.
  intros H q. destruct (decide (p = q)) as [->|Hne].
  - left. rewrite !lookup_insert_eq. reflexivity.
  - rewrite !lookup_insert_ne by exact Hne. apply H.
Qed.

Section Replay.

Variable h : host.

(** A [create_directory] that succeeded in the first run succeeds in the
    second, where the directory may exist already. *)
Lemma create_directory_replays (path : option string) (a a' b : world)
    (final : gmap string node) :
  create_directory h path a = (1, a') ->
  kinds_kept (fs a') final ->
  replays (fs a) (fs b) final ->
  exists b',
    create_directory h path b = (1, b') /\ replays (fs a') (fs b') final.
Proof.
  intros Ha Hk Hrep.
  pose proof (create_directory_unfold h path a) as Ea.
  pose proof (create_directory_unfold h path b) as Eb.
  cbv zeta in Ea, Eb. rewrite Ea in Ha. rewrite Eb. clear Ea Eb.
  set (p := created_name path) in *.
  destruct (nothing_to_do path).
  { injection Ha as <-. exists b. split; [reflexivity|exact Hrep]. }
  destruct (is_directory a (resolve h p)) eqn:Hda.
  - injection Ha as <-. apply is_directory_true in Hda.
    assert (Hdb : is_directory b (resolve h p) = true).
    { apply is_directory_true. destruct (Hrep (resolve h p)) as [->| ->];
        [exact Hda|apply (Hk (resolve h p)); exact Hda]. }
    rewrite Hdb. eexists. split; [reflexivity|exact Hrep].
  - destruct (can_mkdir h a p) eqn:Hmk; [|discriminate Ha].
    injection Ha as <-. apply can_mkdir_true in Hmk.
    destruct Hmk as [Hden Hnone]. simpl in Hk.
    assert (Hfinal : final !! resolve h p = Some Dir)
      by (apply (Hk (resolve h p)); apply lookup_insert_eq).
    destruct (is_directory b (resolve h p)) eqn:Hdb.
    + eexists. split; [reflexivity|]. simpl.
      apply is_directory_true in Hdb. intros q.
      destruct (decide (resolve h p = q)) as [<-|Hne].
      * left. rewrite lookup_insert_eq. exact Hdb.
      * rewrite lookup_insert_ne by exact Hne. apply Hrep.
    + assert (Hnb : fs b !! resolve h p = None).
      { apply is_directory_false in Hdb. destruct (Hrep (resolve h p)) as [E|E];
          [rewrite E; exact Hnone|congruence]. }
      assert (Hmkb : can_mkdir h b p = true)
        by (apply can_mkdir_true; split; assumption).
      rewrite Hmkb. eexists. split; [reflexivity|]. simpl.
      apply replays_put. exact Hrep.
Qed.

(** A [write_file] that succeeded in the first run succeeds in the second
    and leaves the same bytes in the file. *)
Lemma write_file_replays (filename : string) (r r' : reader_t) (len : Z)
    (a a' b : world) (final : gmap string node) :
  write_file h filename r len a = Some (1, r', a') ->
  kinds_kept (fs a') final ->
  replays (fs a) (fs b) final ->
  exists b',
    write_file h filename r len b = Some (1, r', b')
    /\ replays (fs a') (fs b') final.
Proof.
  intros Ha Hk Hrep.
  pose proof (write_file_unfold h filename r len a) as Ea.
  pose proof (write_file_unfold h filename r len b) as Eb.
  cbv zeta in Ea, Eb. rewrite Ea in Ha. rewrite Eb. clear Ea Eb.
  set (p := opened_name filename) in *.
  destruct (can_open h a p) eqn:Hopen; [|discriminate Ha].
  apply can_open_true in Hopen. destruct Hopen as [Hden Hnd].
  destruct (copy_chunks (Z.to_nat len) r len 0) as [[[chunks e] r1]|];
    [|discriminate Ha].
  destruct e; [|discriminate Ha].
  injection Ha as <- <-. simpl in Hk.
  assert (Hfinal : exists d, final !! resolve h p = Some (File d))
    by (apply (Hk (resolve h p)) with (c := concat chunks); apply lookup_insert_eq).
  assert (Hob : can_open h b p = true).
  { apply can_open_true. split; [exact Hden|].
    apply is_directory_false. apply is_directory_false in Hnd.
    destruct Hfinal as [d Hd]. destruct (Hrep (resolve h p)) as [E|E]; congruence. }
  rewrite Hob. eexists. split; [reflexivity|]. simpl.
  apply replays_put. exact Hrep.
Qed.

Lemma dispatch_entry_replays (id filename : string) (len : Z)
    (z z' : reader_t) (a a' b : world) (final : gmap string node) :
  dispatch_entry h id filename len z a = Some (1, z', a') ->
  kinds_kept (fs a') final ->
  replays (fs a) (fs b) final ->
  exists b',
    dispatch_entry h id filename len z b = Some (1, z', b')
    /\ replays (fs a') (fs b') final.
Proof.
  unfold dispatch_entry. intros Ha Hk Hrep.
  destruct (String.eqb id "DIR").
  - pose proof (create_directory_ok h (Some filename)
                  (emit (f_new_directory filename) a)) as Hok.
    destruct (create_directory h (Some filename)
                (emit (f_new_directory filename) a)) as [ok a1] eqn:Ea.
    simpl in Hok.
    destruct Hok as [-> | ->]; [discriminate Ha|].
    injection Ha as <- <-.
    destruct (create_directory_replays _ _ _
                (emit (f_new_directory filename) b) final Ea Hk Hrep)
      as (b1 & Eb & Hrep1).
    rewrite Eb. exists b1. split; [reflexivity|exact Hrep1].
  - pose proof (create_directory_ok h (Some (get_directory filename)) a) as Hok.
    destruct (create_directory h (Some (get_directory filename)) a)
      as [ok a1] eqn:Ea.
    simpl in Hok.
    destruct Hok as [-> | ->]; [discriminate Ha|].
    change (1 =? 0) with false in Ha. cbv iota in Ha.
    destruct (write_file h filename z len a1) as [[[ok2 z2] a2]|] eqn:Ew;
      [|discriminate Ha].
    destruct (write_file_result h _ _ _ _ _ _ _ Ew) as [[-> | ->] Hk2];
      [discriminate Ha|].
    injection Ha as <- <-.
    destruct (create_directory_replays _ _ _ b final Ea
                (kinds_kept_trans _ _ _ Hk2 Hk) Hrep) as (b1 & Eb & Hrep1).
    rewrite Eb. change (1 =? 0) with false. cbv iota.
    destruct (write_file_replays _ _ _ _ _ _ b1 final Ew Hk Hrep1)
      as (b2 & Eb2 & Hrep2).
    rewrite Eb2. exists b2. split; [reflexivity|exact Hrep2].
Qed.

Lemma unpack_loop_replays (destdir : string) (num : Z) (fuel : nat) :
  forall (z : reader_t) (pos pos' : Z) (a b final : world),
    unpack_loop h fuel destdir num z pos a = Some (1, final) ->
    replays (fs a) (fs b) (fs final) ->
    exists b',
      unpack_loop h fuel destdir num z pos' b = Some (1, b')
      /\ fs b' = fs final.
Proof.
  induction fuel as [|fuel IH]; intros z pos pos' a b final Hrun Hrep;
    [discriminate Hrun|].
  cbn [unpack_loop] in Hrun |- *.
  destruct (reader_memread z 3) as [[n id] z0].
  destruct (n <? 3); [discriminate Hrun|].
  destruct (String.eqb _ "END").
  { injection Hrun as <-. eexists. split; [reflexivity|]. simpl.
    apply replays_final. exact Hrep. }
  destruct (read_int z0) as [[l len] z1].
  destruct (l <? 4); [discriminate Hrun|].
  destruct (read_filename h z1) as [filename z2].
  destruct (dispatch_entry h _ _ len z2
              (emit _ (emit (f_status (pos + 1) num) a)))
    as [[[ok1 z3] a1]|] eqn:Ed; [|discriminate Hrun].
  destruct (dispatch_entry_result h _ _ _ _ _ _ _ _ Ed) as [[-> | ->] _];
    [discriminate Hrun|].
  change (1 =? 0) with false in Hrun. cbv iota in Hrun.
  pose proof (unpack_loop_kinds h _ _ _ _ _ _ _ _ Hrun) as Hk.
  match goal with
  | |- context [dispatch_entry h ?i ?f len z2 ?w] =>
      destruct (dispatch_entry_replays i f len z2 z3 _ a1 w (fs final) Ed Hk
                  Hrep) as (b1 & Eb & Hrep1)
  end.
  rewrite Eb. change (1 =? 0) with false. cbv iota.
  apply (IH z3 (pos + 1) (pos' + 1) a1 b1 final Hrun Hrep1).
Qed.

(** C8, amended. When an archive has been unpacked with success,
    unpacking the same archive again into the same destination succeeds
    as well, and leaves the filesystem exactly as the first run left it:
    every file holds the same bytes (written anew, not appended) and the
    directories are the same; the second run reports no error for the
    directories and files it finds in place. *)
Theorem unpack_archive_twice (data : list byte) (destdir : string)
    (w0 w1 : world) :
  unpack_archive h data destdir w0 = Some (1, w1) ->
  exists w2,
    unpack_archive h data destdir w1 = Some (1, w2)
    /\ fs w2 = fs w1
    /\ errors (log w2) = errors (log w1).
Proof.
  intros Hrun.
  cut (exists w2,
         unpack_archive h data destdir w1 = Some (1, w2) /\ fs w2 = fs w1).
  { intros (w2 & Hrun2 & Hfs). exists w2.
    split; [exact Hrun2|]. split; [exact Hfs|].
    apply (unpack_archive_silent h _ _ _ _ Hrun2). }
  revert Hrun. unfold unpack_archive. intros Hrun.
  destruct (reader_init_decompress h data) as [z|]; [|discriminate Hrun].
  pose proof (create_directory_ok h (Some destdir)
                (emit (f_message "Creating installation directory") w0))
    as Hok.
  destruct (create_directory h (Some destdir)
              (emit (f_message "Creating installation directory") w0))
    as [ok a1] eqn:Ea.
  simpl in Hok. destruct Hok as [-> | ->]; [discriminate Hrun|].
  change (1 =? 0) with false in Hrun. cbv iota in Hrun.
  destruct (read_int z) as [[l num] z1].
  destruct (l <? 4); [discriminate Hrun|].
  pose proof (unpack_loop_kinds h _ _ _ _ _ _ _ _ Hrun) as Hk.
  destruct (create_directory_replays (Some destdir) _ a1
              (emit (f_message "Creating installation directory") w1)
              (fs w1) Ea Hk) as (b1 & Eb & Hrep1).
  { intros p. right. reflexivity. }
  rewrite Eb. change (1 =? 0) with false. cbv iota.
  eapply unpack_loop_replays; [exact Hrun|exact Hrep1].
Qed.

End Replay.

(** A directory and a file in it, unpacked twice on a WIN32 host. *)
Lemma unpack_archive_twice_witness :
  let h := plain_host true in
  exists w1,
    unpack_archive h two_entry_archive "dest" empty_world = Some (1, w1)
    /\ fs w1 !! "dest\sub\a"%string = Some (File (list_byte_of_string "abc"))
    /\ exists w2,
         unpack_archive h two_entry_archive "dest" w1 = Some (1, w2)
         /\ fs w2 = fs w1
         /\ errors (log w2) = errors (log w1).
Proof.
  cbv zeta.
  destruct (unpack_archive (plain_host true) two_entry_archive "dest"
              empty_world) as [[ok w1]|] eqn:Hrun;
    [|vm_compute in Hrun; discriminate].
  assert (Hok : ok = 1) by (vm_compute in Hrun; congruence).
  subst ok. exists w1. split; [reflexivity|].
  split.
  - vm_compute in Hrun. injection Hrun as <-. vm_compute. reflexivity.
  - exact (unpack_archive_twice (plain_host true) two_entry_archive "dest"
             empty_world w1 Hrun).
Defined.

(* ------------------------------------------------------------------ *)
(** ** The fuel is enough: unpack_archive always returns *)

Lemma reader_memread_progress (r : reader_t) (k n : Z) (buf : list byte)
    (r' : reader_t) :
  reader_wf r -> 0 <= k ->
  reader_memread r k = (n, buf, r') ->
  reader_wf r'
  /\ n = Z.min k (Z.of_nat (length (remaining r)))
  /\ Z.of_nat (length (remaining r')) = Z.of_nat (length (remaining r)) - n.
Proof.
  intros Hwf Hk E.
  destruct (reader_memread_stream r (remaining r) k) as (r1 & E1 & Hwf1 & Hrem1);
    [split; [exact Hwf|reflexivity]|exact Hk|].
  rewrite E1 in E. injection E as <- <- <-.
  split; [exact Hwf1|]. split; [reflexivity|].
  rewrite Hrem1, length_skipn. lia.
Qed.

Lemma read_unsigned_byte_progress (z : reader_t) (n v : Z) (z' : reader_t) :
  reader_wf z ->
  read_unsigned_byte z = (n, v, z') ->
  reader_wf z' /\ (length (remaining z') <= length (remaining z))%nat.
Proof.
  unfold read_unsigned_byte. intros Hwf.
  destruct (reader_memread z 1) as [[n1 buf] z1] eqn:E.
  destruct (reader_memread_progress z 1 n1 buf z1 Hwf ltac:(lia) E)
    as (Hwf1 & Hn & Hlen).
  intros [= <- <- <-]. split; [exact Hwf1|lia].
Qed.

Lemma read_int_progress (z : reader_t) (l v : Z) (z' : reader_t) :
  reader_wf z ->
  read_int z = (l, v, z') ->
  reader_wf z' /\ (length (remaining z') <= length (remaining z))%nat.
Proof.
  unfold read_int. intros Hwf.
  destruct (read_unsigned_byte z) as [[n1 b1] z1] eqn:E1.
  destruct (read_unsigned_byte z1) as [[n2 b2] z2] eqn:E2.
  destruct (read_unsigned_byte z2) as [[n3 b3] z3] eqn:E3.
  destruct (read_unsigned_byte z3) as [[n4 b4] z4] eqn:E4.
  destruct (read_unsigned_byte_progress _ _ _ _ Hwf E1) as [Hwf1 H1].
  destruct (read_unsigned_byte_progress _ _ _ _ Hwf1 E2) as [Hwf2 H2].
  destruct (read_unsigned_byte_progress _ _ _ _ Hwf2 E3) as [Hwf3 H3].
  destruct (read_unsigned_byte_progress _ _ _ _ Hwf3 E4) as [Hwf4 H4].
  intros [= <- <- <-]. split; [exact Hwf4|lia].
Qed.

Section Total.

Variable h : host.

Lemma read_filename_progress (z : reader_t) (filename : string)
    (z' : reader_t) :
  reader_wf z ->
  read_filename h z = (filename, z') ->
  reader_wf z' /\ (length (remaining z') <= length (remaining z))%nat.
Proof.
  unfold read_filename. intros Hwf.
  destruct (reader_memread z 1) as [[n1 lenbuf] z1] eqn:E1.
  destruct (reader_memread_progress z 1 _ _ _ Hwf ltac:(lia) E1)
    as (Hwf1 & Hn1 & Hlen1).
  set (filename_len := match lenbuf with b :: _ => b | [] => uninit_char h end).
  destruct (reader_memread z1 (byte_val filename_len)) as [[n2 name] z2] eqn:E2.
  assert (Hb : 0 <= byte_val filename_len) by (unfold byte_val; lia).
  destruct (reader_memread_progress z1 _ _ _ _ Hwf1 Hb E2)
    as (Hwf2 & Hn2 & Hlen2).
  intros [= <- <-]. split; [exact Hwf2|lia].
Qed.

Lemma write_file_progress (filename : string) (r : reader_t) (len : Z)
    (w : world) :
  reader_wf r ->
  exists ok r' w',
    write_file h filename r len w = Some (ok, r', w')
    /\ reader_wf r'
    /\ (length (remaining r') <= length (remaining r))%nat.
Proof.
  intros Hwf.
  pose proof (write_file_unfold h filename r len w) as E. cbv zeta in E.
  rewrite E. clear E.
  destruct (can_open h w _).
  - pose proof (copy_chunks_total (Z.to_nat len) r len 0 ltac:(lia)) as Htot.
    destruct (copy_chunks (Z.to_nat len) r len 0) as [[[chunks e] r1]|] eqn:Ec;
      [|contradiction].
    destruct (copy_chunks_reader _ _ _ _ _ _ _ Hwf Ec) as [Hwf1 Hle].
    destruct e; do 3 eexists; (split; [reflexivity|split; assumption]).
  - do 3 eexists. split; [reflexivity|]. split; [exact Hwf|lia].
Qed.

Lemma dispatch_entry_progress (id filename : string) (len : Z) (z : reader_t)
    (w : world) :
  reader_wf z ->
  exists ok z' w',
    dispatch_entry h id filename len z w = Some (ok, z', w')
    /\ reader_wf z'
    /\ (length (remaining z') <= length (remaining z))%nat.
Proof.
  intros Hwf. unfold dispatch_entry. destruct (String.eqb id "DIR").
  - destruct (create_directory h (Some filename) _) as [ok w1].
    destruct (ok =? 0); do 3 eexists;
      (split; [reflexivity|split; [exact Hwf|lia]]).
  - destruct (create_directory h (Some (get_directory filename)) w)
      as [ok w1].
    destruct (ok =? 0).
    { do 3 eexists. split; [reflexivity|split; [exact Hwf|lia]]. }
    destruct (write_file_progress filename z len w1 Hwf)
      as (ok2 & z2 & w2 & E & Hwf2 & Hle).
    rewrite E. destruct (ok2 =? 0); do 3 eexists;
      (split; [reflexivity|split; assumption]).
Qed.

Lemma unpack_loop_total (destdir : string) (num : Z) (fuel : nat) :
  forall (z : reader_t) (pos : Z) (w : world),
    reader_wf z ->
    (length (remaining z) < fuel)%nat ->
    exists ok w', unpack_loop h fuel destdir num z pos w = Some (ok, w').
Proof.
  induction fuel as [|fuel IH]; intros z pos w Hwf Hfuel; [lia|].
  cbn [unpack_loop].
  destruct (reader_memread z 3) as [[n id] z0] eqn:E0.
  destruct (reader_memread_progress z 3 _ _ _ Hwf ltac:(lia) E0)
    as (Hwf0 & Hn & Hlen0).
  destruct (Z.ltb_spec n 3) as [Hlt|Hge]; [eauto|].
  destruct (String.eqb _ "END"); [eauto|].
  destruct (read_int z0) as [[l len] z1] eqn:E1.
  destruct (read_int_progress _ _ _ _ Hwf0 E1) as [Hwf1 Hle1].
  destruct (l <? 4); [eauto|].
  destruct (read_filename h z1) as [filename z2] eqn:E2.
  destruct (read_filename_progress _ _ _ Hwf1 E2) as [Hwf2 Hle2].
  match goal with
  | |- context [dispatch_entry h ?i ?f len z2 ?w1] =>
      destruct (dispatch_entry_progress i f len z2 w1 Hwf2)
        as (ok & z3 & w3 & Ed & Hwf3 & Hle3)
  end.
  rewrite Ed. destruct (ok =? 0); [eauto|].
  apply IH; [exact Hwf3|lia].
Qed.

(** [unpack_archive] returns on every input: the fuel of the model never
    runs out. *)
Lemma unpack_archive_total (data : list byte) (destdir : string) (w : world) :
  exists ok w', unpack_archive h data destdir w = Some (ok, w').
Proof.
  unfold unpack_archive, reader_init_decompress.
  destruct (decompress h data) as [decoded|]; [|eauto].
  destruct (create_directory h (Some destdir) _) as [ok w1].
  destruct (ok =? 0); [eauto|].
  destruct (read_int _) as [[l num] z1] eqn:E1.
  destruct (read_int_progress _ _ _ _
              (proj1 (reader_init_memreader_stream decoded)) E1) as [Hwf1 _].
  destruct (l <? 4); [eauto|].
  apply unpack_loop_total; [exact Hwf1|lia].
Qed.

(** When fewer than four bytes can be decoded, the header cannot be read:
    [unpack_archive] returns 0 right after creating the destination, with
    no call on the sink. *)
Lemma truncated_header_unreported (data decoded : list byte)
    (destdir : string) (w w1 : world) :
  decompress h data = Some decoded ->
  (length decoded < 4)%nat ->
  create_directory h (Some destdir)
    (emit (f_message "Creating installation directory") w) = (1, w1) ->
  unpack_archive h data destdir w = Some (0, w1).
Proof.
  intros Hdec Hlen Hc. unfold unpack_archive, reader_init_decompress.
  rewrite Hdec, Hc. change (1 =? 0) with false. cbv iota.
  destruct (read_int_short _ decoded
              (reader_init_memreader_stream decoded) Hlen)
    as (v & z' & E & _).
  rewrite E. destruct (Z.ltb_spec (Z.of_nat (length decoded)) 4);
    [reflexivity|lia].
Qed.

End Total.

(* ------------------------------------------------------------------ *)
(** ** Where the code leaves its description *)

Section Divergences.

Variable h : host.

(** A size field cut short ends the run with 0 and without a word to the
    sink, on every host and after any number of entries. *)
Lemma truncated_size_round_unreported (fuel : nat) (destdir : string)
    (num : Z) (z : reader_t) (pos : Z) (w : world) (id partial : list byte) :
  at_stream z (id ++ partial) ->
  length id = 3%nat ->
  c_str (id ++ [x00]) <> "END" ->
  (length partial < 4)%nat ->
  unpack_loop h (S fuel) destdir num z pos w = Some (0, w).
Proof.
  intros Hz Hid Hend Hshort.
  destruct (reader_memread_full z id partial 3 Hz) as (z0 & E0 & Hz0); [lia|].
  destruct (read_int_short z0 partial Hz0 Hshort) as (v & z1 & E1 & _).
  cbn [unpack_loop]. rewrite E0. cbv beta iota zeta.
  change (3 <? 3) with false. cbv iota.
  destruct (String.eqb_spec (c_str (id ++ [x00])) "END") as [Heq|_];
    [contradiction|].
  rewrite E1. cbv beta iota zeta.
  destruct (Z.ltb_spec (Z.of_nat (length partial)) 4); [reflexivity|lia].
Qed.

Lemma slashes_to_backslashes_no_slash (p : string) :
  ~ In "/"%char (list_ascii_of_string (slashes_to_backslashes p)).
Proof.
  induction p as [|c p IH]; simpl; [tauto|].
  intros [H|H]; [|exact (IH H)].
  destruct (Ascii.eqb_spec c "/") as [->|Hne]; [discriminate H|].
  apply Hne. exact H.
Qed.

(** C6 (the code, in general and at the failing input). On every host,
    with or without WIN32, the name [write_file] reports to the sink and
    opens is the given name with each slash overwritten by a backslash,
    so it holds no slash; on a host without WIN32, whose separator is the
    slash, dir/a.txt is reported and opened as dir\a.txt. *)
Theorem write_file_backslash_without_WIN32 :
  (forall filename r len w ok r' w',
      write_file h filename r len w = Some (ok, r', w') ->
      exists evs,
        log w' = log w ++ f_new_file (opened_name filename)
                          :: sys_fopen (opened_name filename) :: evs)
  /\ (forall filename,
        ~ In "/"%char (list_ascii_of_string (opened_name filename)))
  /\ path_seperator (plain_host false) = "/"%char
  /\ exists r w,
       write_file (plain_host false) "dir/a.txt" (reader_init_memreader [] 0)
         0 empty_world
       = Some (1, r, w)
       /\ log w = [f_new_file "dir\a.txt"; sys_fopen "dir\a.txt";
                   sys_fclose "dir\a.txt"]
       /\ fs w = {[ "dir\a.txt" := File [] ]}.
Proof.
  split.
  { intros filename r len w ok r' w'.
    pose proof (write_file_unfold h filename r len w) as E. cbv zeta in E.
    rewrite E. clear E.
    destruct (can_open h w _).
    - destruct (copy_chunks _ r len 0) as [[[chunks e] r1]|]; [|discriminate].
      destruct e; intros [= <- <- <-]; simpl; rewrite <- !app_assoc; simpl;
        eexists; reflexivity.
    - intros [= <- <- <-]. simpl. eexists. reflexivity. }
  split; [intros filename; apply slashes_to_backslashes_no_slash|].
  split; [reflexivity|].
  do 2 eexists. split; [vm_compute; reflexivity|].
  split; [reflexivity|vm_compute; reflexivity].
Qed.

(** C7 (the code, in general and at the failing input).
    [create_directory] returns 1 without any call on the host or the sink
    exactly when the path is null, empty, a single dot, or begins with
    two dots, whatever follows them; for every other path it first asks
    the host whether the path, stripped of its leading dot-slash pairs,
    is a directory. So ../x is skipped, although it is not the path of
    two dots. *)
Theorem create_directory_skips_dotdot_prefix (path : option string)
    (w : world) :
  (nothing_to_do path = true <->
   path = None \/ path = Some EmptyString \/ path = Some "."%string
   \/ exists rest, path = Some (".." +:+ rest))
  /\ (nothing_to_do path = true -> create_directory h path w = (1, w))
  /\ (nothing_to_do path = false ->
      exists evs,
        log (snd (create_directory h path w))
        = log w ++ sys_isdir (created_name path) :: evs)
  /\ create_directory h (Some "../x") w = (1, w).
Proof.
  split.
  { destruct path as [[|c0 [|c1 rest]]|]; simpl.
    - split; [auto|reflexivity].
    - rewrite andb_true_r. split.
      + intros H. apply Ascii.eqb_eq in H. subst c0. auto.
      + intros [H|[H|[H|[rest H]]]]; try discriminate H.
        injection H as ->. reflexivity.
    - split.
      + intros H. apply andb_true_iff in H. destruct H as [H0 H1].
        apply Ascii.eqb_eq in H0, H1. subst c0 c1.
        right. right. right. exists rest. reflexivity.
      + intros [H|[H|[H|[rest' H]]]]; try discriminate H.
        simpl in H. injection H as -> -> _. reflexivity.
    - split; [auto|reflexivity]. }
  split.
  { intros H. unfold create_directory. rewrite H. reflexivity. }
  split; [|reflexivity].
  intros H.
  pose proof (create_directory_unfold h path w) as E. cbv zeta in E.
  rewrite E, H. clear E.
  destruct (is_directory w _); [eexists; reflexivity|].
  destruct (can_mkdir h w _); simpl; eexists; reflexivity.
Qed.

End Divergences.

(* ------------------------------------------------------------------ *)
(** ** More on the mem reader and on the four-byte fields *)

(** X1. Reads compose: on a well-formed mem reader, a read of [k1] bytes
    followed by a read of [k2] bytes delivers the same bytes, the same
    total count and the same final reader as a single read of [k1+k2]
    bytes, also when the buffer ends in between. *)
Theorem reader_memread_split (r : reader_t) (k1 k2 : Z) :
  reader_wf r -> 0 <= k1 -> 0 <= k2 ->
  let '(n1, buf1, r1) := reader_memread r k1 in
  let '(n2, buf2, r2) := reader_memread r1 k2 in
  reader_memread r (k1 + k2) = (n1 + n2, buf1 ++ buf2, r2).
Proof.
  intros Hwf Hk1 Hk2.
  assert (Hr : at_stream r (remaining r)) by (split; [exact Hwf|reflexivity]).
  destruct (reader_memread_stream r _ k1 Hr Hk1) as (r1 & E1 & Hr1).
  destruct (reader_memread_stream r1 _ k2 Hr1 Hk2) as (r2 & E2 & Hr2).
  destruct (reader_memread_stream r _ (k1 + k2) Hr ltac:(lia))
    as (r3 & E3 & Hr3).
  rewrite E1, E2, E3.
  set (s := remaining r) in *.
  assert (Hlen : length (skipn (Z.to_nat k1) s)
                 = (length s - Z.to_nat k1)%nat) by apply length_skipn.
  f_equal; [f_equal|].
  - rewrite Hlen. lia.
  - rewrite take_take_drop. f_equal. lia.
  - unfold reader_memread in E1, E2, E3.
    injection E1 as En1 _ <-. injection E2 as En2 _ <-. injection E3 as En3 _ <-.
    simpl in *. f_equal. rewrite Hlen in En2. lia.
Qed.

(** Ten bytes, read as 3 then 4, or as 7 at once. *)
Lemma reader_memread_split_witness :
  let data := list_byte_of_string "0123456789" in
  let r := reader_init_memreader data 10 in
  (reader_wf r /\ 0 <= 3 /\ 0 <= 4)
  /\ let '(n1, buf1, r1) := reader_memread r 3 in
     let '(n2, buf2, r2) := reader_memread r1 4 in
     reader_memread r (3 + 4) = (n1 + n2, buf1 ++ buf2, r2).
Proof.
  cbv zeta.
  assert (Hwf : reader_wf
                  (reader_init_memreader (list_byte_of_string "0123456789") 10))
    by (split; simpl; lia).
  split; [split; [exact Hwf|lia]|].
  exact (reader_memread_split _ 3 4 Hwf ltac:(lia) ltac:(lia)).
Defined.

Lemma lor_shiftl_add (a b n : Z) :
  0 <= n -> 0 <= a < 2 ^ n -> Z.lor a (Z.shiftl b n) = a + b * 2 ^ n.
Proof.
  intros Hn Ha.
  assert (Hland : Z.land a (Z.shiftl b n) = 0).
  { apply Z.bits_inj'. intros i Hi.
    rewrite Z.land_spec, Z.bits_0.
    destruct (Z.lt_ge_cases i n) as [Hlt|Hge].
    - rewrite Z.shiftl_spec_low by exact Hlt. apply andb_false_r.
    - rewrite <- (Z.mod_small a (2 ^ n)) by exact Ha.
      rewrite Z.mod_pow2_bits_high by lia. reflexivity. }
  rewrite <- Z.lxor_lor by exact Hland.
  rewrite <- Z.add_nocarry_lxor by exact Hland.
  rewrite Z.shiftl_mul_pow2 by exact Hn. reflexivity.
Qed.

Lemma byte_val_range (b : byte) : 0 <= byte_val b < 256.
Proof.
  unfold byte_val. pose proof (Byte.to_N_bounded b) as H. lia.
Qed.

(** X2. The four bytes of the header and of a size field are read
    little-endian: with all four in the stream, [read_int] reports four
    bytes read and delivers [b1 + 256 b2 + 65536 b3 + 16777216 b4],
    lowered by 2^32 when the top bit of [b4] is set, so a value between
    -2^31 and 2^31-1. *)
Theorem read_int_little_endian (z : reader_t) (b1 b2 b3 b4 : byte)
    (rest : list byte) :
  at_stream z (b1 :: b2 :: b3 :: b4 :: rest) ->
  exists z',
    read_int z
    = (4,
       if byte_val b4 <? 128 then le_value b1 b2 b3 b4
       else le_value b1 b2 b3 b4 - 2 ^ 32,
       z')
    /\ at_stream z' rest
    /\ - 2 ^ 31 <= snd (fst (read_int z)) < 2 ^ 31.
Proof.
  intros Hz.
  destruct (read_int_full z [b1; b2; b3; b4] rest Hz eq_refl)
    as (z' & E & Hz').
  pose proof (byte_val_range b1) as H1. pose proof (byte_val_range b2) as H2.
  pose proof (byte_val_range b3) as H3. pose proof (byte_val_range b4) as H4.
  assert (Hv : int_of_bytes [b1; b2; b3; b4]
               = if byte_val b4 <? 128 then le_value b1 b2 b3 b4
                 else le_value b1 b2 b3 b4 - 2 ^ 32).
  { unfold int_of_bytes, le_value, int_of_unsigned.
    rewrite (lor_shiftl_add (byte_val b1) (byte_val b2) 8) by lia.
    rewrite (lor_shiftl_add _ (byte_val b3) 16) by lia.
    rewrite (lor_shiftl_add _ (byte_val b4) 24) by lia.
    change (2 ^ 8) with 256. change (2 ^ 16) with 65536.
    change (2 ^ 24) with 16777216. change (2 ^ 31) with 2147483648.
    change (2 ^ 32) with 4294967296.
    destruct (Z.ltb_spec (byte_val b4) 128);
      destruct (Z.ltb_spec
                  (byte_val b1 + byte_val b2 * 256 + byte_val b3 * 65536
                   + byte_val b4 * 16777216) 2147483648); lia. }
  exists z'. rewrite E, Hv. split; [reflexivity|]. split; [exact Hz'|].
  simpl snd. unfold le_value.
  change (2 ^ 31) with 2147483648. change (2 ^ 32) with 4294967296.
  destruct (Z.ltb_spec (byte_val b4) 128); lia.
Qed.

(** The size field [00 00 00 80]: the value is -2^31. *)
Lemma read_int_little_endian_witness :
  let s := [x00; x00; x00; x80; x2a] in
  let z := reader_init_memreader s 5 in
  at_stream z s
  /\ exists z',
       read_int z = (4, - 2 ^ 31, z')
       /\ at_stream z' [x2a]
       /\ - 2 ^ 31 <= snd (fst (read_int z)) < 2 ^ 31.
Proof.
  cbv zeta.
  assert (Hz : at_stream (reader_init_memreader [x00; x00; x00; x80; x2a] 5)
                 [x00; x00; x00; x80; x2a])
    by exact (reader_init_memreader_stream [x00; x00; x00; x80; x2a]).
  split; [exact Hz|].
  exact (read_int_little_endian _ x00 x00 x00 x80 [x2a] Hz).
Defined.

(* ------------------------------------------------------------------ *)
(** ** Path handling: the dot-slash prefix and the directory part *)



Lemma strrchr_spec (c : ascii) (s : string) :
  match strrchr s c with
  | Some i =>
      String.get i s = Some c
      /\ forall k, (i < k)%nat -> String.get k s <> Some c
  | None => forall k, String.get k s <> Some c
  end.
Proof.
  induction s as [|a rest IH]; cbn [strrchr].
  - intros k. destruct k; discriminate.
  - destruct (strrchr rest c) as [i|].
    + destruct IH as [Hget Hlast]. split; [exact Hget|].
      intros [|k] Hk; [lia|]. simpl. apply Hlast. lia.
    + destruct (Ascii.eqb_spec a c) as [->|Hne].
      * split; [reflexivity|]. intros [|k] Hk; [lia|]. simpl. apply IH.
      * intros [|k]; simpl; [congruence|apply IH].
Qed.

Lemma split_at_get (s : string) :
  forall (n : nat) (c : ascii),
    String.get n s = Some c ->
    exists base,
      s = substring 0 n s +:+ String c base
      /\ String.length (substring 0 n s) = n.
Proof.
  induction s as [|a rest IH]; intros n c Hget.
  - destruct n; discriminate Hget.
  - destruct n as [|n]; simpl in Hget.
    + injection Hget as ->. exists rest. split; reflexivity.
    + destruct (IH n c Hget) as (base & Hs & Hlen).
      exists base. cbn [substring String.length].
      change (String a rest
              = String a (substring 0 n rest +:+ String c base)
              /\ S (String.length (substring 0 n rest)) = S n).
      rewrite <- Hs, Hlen. split; reflexivity.
Qed.

Lemma is_separator_true (c : ascii) :
  is_separator c = true <-> c = "/"%char \/ c = backslash.
Proof.
  unfold is_separator. rewrite orb_true_iff, !Ascii.eqb_eq. reflexivity.
Qed.

(** X4. [get_directory] returns the part of the file name in front of its
    last separator, slash or backslash, whichever comes last: the name is
    that part, the separator, and a base name without any separator. For
    a name without separator it returns the empty string. *)
Theorem get_directory_splits_at_last_separator (filename : string) :
  (exists c base,
     filename = get_directory filename +:+ String c base
     /\ is_separator c = true
     /\ forall k c', String.get k base = Some c' -> is_separator c' = false)
  \/ (get_directory filename = EmptyString
      /\ forall k c', String.get k filename = Some c' ->
                      is_separator c' = false).
Proof.
  pose proof (strrchr_spec backslash filename) as H1.
  pose proof (strrchr_spec "/" filename) as H2.
  unfold get_directory.
  assert (Hmain : forall n c,
             String.get n filename = Some c ->
             is_separator c = true ->
             (forall k c', (n < k)%nat -> String.get k filename = Some c' ->
                           is_separator c' = false) ->
             exists c0 base,
               filename = substring 0 n filename +:+ String c0 base
               /\ is_separator c0 = true
               /\ forall k c', String.get k base = Some c' ->
                               is_separator c' = false).
  { intros n c Hget Hsep Hlast.
    destruct (split_at_get filename n c Hget) as (base & Hs & Hlen).
    exists c, base. split; [exact Hs|]. split; [exact Hsep|].
    intros k c' Hk. apply (Hlast (S k + n)%nat c'); [lia|].
    rewrite Hs at 1. rewrite <- Hlen at 1.
    rewrite <- append_correct2. exact Hk. }
  assert (Hnot : forall k c' (P Q : Prop),
             (String.get k filename <> Some backslash) ->
             (String.get k filename <> Some "/"%char) ->
             String.get k filename = Some c' -> is_separator c' = false).
  { intros k c' _ _ Hb Hs Hk.
    destruct (is_separator c') eqn:E; [|reflexivity].
    apply is_separator_true in E. destruct E as [-> | ->]; contradiction. }
  destruct (strrchr filename backslash) as [i|],
           (strrchr filename "/") as [j|].
  - destruct H1 as [Hi Hli], H2 as [Hj Hlj]. left.
    destruct (Nat.ltb_spec j i).
    + apply (Hmain i backslash Hi); [reflexivity|].
      intros k c' Hk. apply (Hnot k c' True True); [apply Hli|apply Hlj]; lia.
    + apply (Hmain j "/"%char Hj); [reflexivity|].
      intros k c' Hk. apply (Hnot k c' True True); [apply Hli|apply Hlj]; lia.
  - destruct H1 as [Hi Hli]. left.
    apply (Hmain i backslash Hi); [reflexivity|].
    intros k c' Hk. apply (Hnot k c' True True); [apply Hli; lia|apply H2].
  - destruct H2 as [Hj Hlj]. left.
    apply (Hmain j "/"%char Hj); [reflexivity|].
    intros k c' Hk. apply (Hnot k c' True True); [apply H1|apply Hlj; lia].
  - right. split; [reflexivity|].
    intros k c'. apply (Hnot k c' True True); [apply H1|apply H2].
Qed.

(* ------------------------------------------------------------------ *)
(** ** What create_directory and write_file leave behind *)

Section Materializer.

Variable h : host.

(** X5. For a path that is not skipped, [create_directory] either
    returns 1, and then the stripped path is a directory afterwards and
    nothing else in the filesystem has changed, or returns 0, and then
    the filesystem is as before and exactly one error has been reported.
    A path that is a directory already (under whatever spelling the
    filesystem takes for the same name) is accepted with one lookup, no
    [mkdir] and no error; a path that holds a file is refused. *)
Theorem create_directory_outcome (path : option string) (w : world) :
  nothing_to_do path = false ->
  let p := created_name path in
  let k := resolve h p in
  let ok := fst (create_directory h path w) in
  let w' := snd (create_directory h path w) in
  exists evs,
    log w' = log w ++ evs
    /\ ((ok = 1 /\ fs w' = <[k := Dir]> (fs w) /\ errors evs = []
         /\ (fs w !! k = None \/ fs w !! k = Some Dir))
        \/ (ok = 0 /\ fs w' = fs w /\ length (errors evs) = 1%nat
            /\ fs w !! k <> Some Dir))
    /\ (fs w !! k = Some Dir -> evs = [sys_isdir p])
    /\ (forall c, fs w !! k = Some (File c) -> ok = 0).
Proof.
  intros Hskip p k ok w'. subst ok w'.
  pose proof (create_directory_unfold h path w) as E. cbv zeta in E.
  rewrite E, Hskip. clear E. fold p. fold k.
  destruct (is_directory w k) eqn:Hdir.
  - apply is_directory_true in Hdir. exists [sys_isdir p]. simpl.
    split; [reflexivity|].
    split; [left; split; [reflexivity|split; [|split; [reflexivity|auto]]]|].
    { symmetry. apply insert_id. exact Hdir. }
    split; [auto|]. intros c Hc. congruence.
  - apply is_directory_false in Hdir.
    destruct (can_mkdir h w p) eqn:Hmk.
    + apply can_mkdir_true in Hmk. destruct Hmk as [_ Hnone]. fold k in Hnone.
      exists [sys_isdir p; sys_mkdir p]. simpl.
      split; [reflexivity|]. split; [left; auto|].
      split; [intros H; contradiction|]. intros c Hc. congruence.
    + eexists. simpl. split; [reflexivity|]. split; [right; auto|].
      split; [intros H; contradiction|]. intros c Hc. reflexivity.
Qed.

End Materializer.

(** The directory x, asked for as ./x, on an empty filesystem. *)
Lemma create_directory_outcome_witness :
  let h := plain_host false in
  let path := Some "./x"%string in
  let w := empty_world in
  nothing_to_do path = false
  /\ let p := created_name path in
     let k := resolve h p in
     let ok := fst (create_directory h path w) in
     let w' := snd (create_directory h path w) in
     exists evs,
       log w' = log w ++ evs
       /\ ((ok = 1 /\ fs w' = <[k := Dir]> (fs w) /\ errors evs = []
            /\ (fs w !! k = None \/ fs w !! k = Some Dir))
           \/ (ok = 0 /\ fs w' = fs w /\ length (errors evs) = 1%nat
               /\ fs w !! k <> Some Dir))
       /\ (fs w !! k = Some Dir -> evs = [sys_isdir p])
       /\ (forall c, fs w !! k = Some (File c) -> ok = 0).
Proof.
  cbv zeta. split; [reflexivity|].
  exact (create_directory_outcome (plain_host false) (Some "./x"%string)
           empty_world eq_refl).
Defined.

Lemma copy_chunks_sizes (fuel : nat) :
  forall (r : reader_t) (len pos : Z) (chunks : list (list byte))
         (e : copy_end) (r' : reader_t),
    reader_wf r ->
    copy_chunks fuel r len pos = Some (chunks, e, r') ->
    Forall (fun c => 0 < Z.of_nat (length c) <= 4096) chunks.
Proof.
  induction fuel as [|fuel IH]; intros r len pos chunks e r' Hwf;
    cbn [copy_chunks]; destruct (Z.ltb_spec pos len) as [Hlt|Hge];
    try discriminate; try (intros [= <- <- <-]; constructor).
  pose proof (chunk_size len pos Hlt) as Hl. cbv zeta in Hl.
  set (l := if pos + 4096 >? len then len - pos else 4096) in *.
  destruct (reader_memread_stream r (remaining r) l) as (r1 & E & Hr1);
    [split; [exact Hwf|reflexivity]|lia|].
  rewrite E. cbv beta iota.
  destruct (Z.ltb_spec (Z.min l (Z.of_nat (length (remaining r)))) l)
    as [Hshort|Hfull]; [intros [= <- <- <-]; constructor|].
  destruct (copy_chunks fuel r1 len (pos + l)) as [[[chunks1 e1] r2]|] eqn:E1;
    [|discriminate].
  intros [= <- <- <-]. constructor.
  - rewrite length_firstn. lia.
  - apply (IH _ _ _ _ _ _ (proj1 Hr1) E1).
Qed.

Section Copy.

Variable h : host.

(** X6. With the payload of an entry next in the stream, [write_file]
    succeeds exactly when the destination can be opened. Then the file
    holds the payload and nothing else, whatever it held before; the
    bytes went out in chunks of at most 4096 bytes between one [fopen]
    and one [fclose]; the reader stands right behind the payload. A size
    that is zero or negative gives an empty file and reads nothing. When
    the destination cannot be opened, nothing is read from the stream,
    the filesystem is unchanged and one error is reported. *)
Theorem write_file_copies_payload (filename : string) (r : reader_t)
    (len : Z) (w : world) (payload rest : list byte) :
  at_stream r (payload ++ rest) ->
  Z.of_nat (length payload) = Z.max 0 len ->
  let p := opened_name filename in
  (can_open h w p = true ->
   exists r' w' chunks,
     write_file h filename r len w = Some (1, r', w')
     /\ at_stream r' rest
     /\ fs w' = <[resolve h p := File payload]> (fs w)
     /\ log w' = log w ++ [f_new_file p; sys_fopen p]
                 ++ map (sys_fwrite p) chunks ++ [sys_fclose p]
     /\ concat chunks = payload
     /\ Forall (fun c => 0 < Z.of_nat (length c) <= 4096) chunks)
  /\ (can_open h w p = false ->
      exists w',
        write_file h filename r len w = Some (0, r, w')
        /\ fs w' = fs w
        /\ log w' = log w ++ [f_new_file p; sys_fopen p;
                              f_error ("Couldn't create file " +:+ p)]).
Proof.
  intros Hr Hlen p.
  pose proof (write_file_unfold h filename r len w) as E. cbv zeta in E.
  fold p in E. split; intros Hopen; rewrite Hopen in E.
  - destruct (copy_chunks_payload (Z.to_nat len) r len 0 payload rest Hr)
      as (chunks & r' & Ec & Hc & Hr'); [lia|lia|].
    pose proof (copy_chunks_sizes _ _ _ _ _ _ _ (proj1 Hr) Ec) as Hsizes.
    rewrite Ec in E. eexists r', _, chunks. split; [exact E|].
    split; [exact Hr'|]. split; [simpl; rewrite Hc; reflexivity|].
    split; [simpl; rewrite <- !app_assoc; reflexivity|].
    split; [exact Hc|exact Hsizes].
  - eexists. split; [exact E|]. split; reflexivity.
Qed.

End Copy.

(** A payload of 5000 bytes goes out as two chunks. *)
Lemma write_file_copies_payload_witness :
  let h := plain_host true in
  let payload := repeat x2a 5000 in
  let rest := list_byte_of_string "END" in
  let r := reader_init_memreader (payload ++ rest)
             (Z.of_nat (length (payload ++ rest))) in
  let p := opened_name "dest/a.bin" in
  (at_stream r (payload ++ rest)
   /\ Z.of_nat (length payload) = Z.max 0 5000)
  /\ exists r' w' chunks,
       write_file h "dest/a.bin" r 5000 empty_world = Some (1, r', w')
       /\ at_stream r' rest
       /\ fs w' = <[resolve h p := File payload]> (fs empty_world)
       /\ log w' = log empty_world ++ [f_new_file p; sys_fopen p]
                   ++ map (sys_fwrite p) chunks ++ [sys_fclose p]
       /\ concat chunks = payload
       /\ Forall (fun c => 0 < Z.of_nat (length c) <= 4096) chunks.
Proof.
  cbv zeta.
  assert (Hlen : Z.of_nat (length (repeat x2a 5000)) = Z.max 0 5000)
    by (rewrite repeat_length; lia).
  split; [split; [apply reader_init_memreader_stream|exact Hlen]|].
  exact (proj1 (write_file_copies_payload (plain_host true) "dest/a.bin"
                  (reader_init_memreader _ _) 5000 empty_world
                  (repeat x2a 5000) (list_byte_of_string "END")
                  (reader_init_memreader_stream _) Hlen) eq_refl).
Defined.

(* ------------------------------------------------------------------ *)
(** ** Errors and the filesystem over a whole run *)

Lemma ends_with_error_after (evs1 evs2 : list event) :
  errors evs1 = [] -> ends_with_error evs2 -> ends_with_error (evs1 ++ evs2).
Proof.
  intros H1 (evs0 & msg & -> & H0). exists (evs1 ++ evs0), msg.
  split; [apply app_assoc|]. rewrite errors_app, H1, H0. reflexivity.
Qed.

Section Reports.

Variable h : host.

Lemma create_directory_events (path : option string) (w : world) :
  exists evs,
    log (snd (create_directory h path w)) = log w ++ evs
    /\ ((fst (create_directory h path w) = 1 /\ errors evs = [])
        \/ (fst (create_directory h path w) = 0 /\ ends_with_error evs)).
Proof.
  pose proof (create_directory_unfold h path w) as E. cbv zeta in E. rewrite E.
  destruct (nothing_to_do path).
  { exists []. rewrite app_nil_r. split; [reflexivity|left; auto]. }
  destruct (is_directory w _).
  { eexists. split; [reflexivity|left; auto]. }
  destruct (can_mkdir h w _).
  { eexists. split; [reflexivity|left; auto]. }
  eexists. split; [reflexivity|]. right. split; [reflexivity|].
  eexists [_; _], _. split; reflexivity.
Qed.

Lemma write_file_events (filename : string) (r r' : reader_t) (len : Z)
    (w w' : world) (ok : Z) :
  write_file h filename r len w = Some (ok, r', w') ->
  exists evs,
    log w' = log w ++ evs
    /\ ((ok = 1 /\ errors evs = []) \/ (ok = 0 /\ ends_with_error evs)).
Proof.
  pose proof (write_file_unfold h filename r len w) as E. cbv zeta in E.
  rewrite E. clear E. set (p := opened_name filename).
  destruct (can_open h w p).
  - destruct (copy_chunks _ r len 0) as [[[chunks e] r1]|]; [|discriminate].
    destruct e; intros [= <- <- <-]; simpl; rewrite <- !app_assoc;
      eexists; (split; [reflexivity|]).
    + left. split; [reflexivity|].
      change (errors (map (sys_fwrite p) chunks ++ [sys_fclose p]) = []).
      rewrite errors_app, errors_fwrites. reflexivity.
    + right. split; [reflexivity|].
      eexists ([f_new_file p; sys_fopen p] ++ map (sys_fwrite p) chunks), _.
      split; [rewrite <- app_assoc; reflexivity|].
      change (errors (map (sys_fwrite p) chunks) = []). apply errors_fwrites.
  - intros [= <- <- <-]. eexists. split; [reflexivity|].
    right. split; [reflexivity|]. eexists [_; _], _. split; reflexivity.
Qed.

Lemma dispatch_entry_events (id filename : string) (len : Z)
    (z z' : reader_t) (w w' : world) (ok : Z) :
  dispatch_entry h id filename len z w = Some (ok, z', w') ->
  exists evs,
    log w' = log w ++ evs
    /\ ((ok = 1 /\ errors evs = []) \/ (ok = 0 /\ ends_with_error evs)).
Proof.
  unfold dispatch_entry. destruct (String.eqb id "DIR").
  - destruct (create_directory_events (Some filename)
                (emit (f_new_directory filename) w)) as (evs & Hlog & Hrep).
    destruct (create_directory h (Some filename) _) as [ok1 w1].
    simpl in Hlog, Hrep.
    destruct Hrep as [[-> Herr]|[-> Herr]]; intros [= <- <- <-];
      exists (f_new_directory filename :: evs);
      (split; [rewrite Hlog, <- app_assoc; reflexivity|]).
    + left. split; [reflexivity|exact Herr].
    + right. split; [reflexivity|].
      apply (ends_with_error_after [f_new_directory filename]);
        [reflexivity|exact Herr].
  - destruct (create_directory_events (Some (get_directory filename)) w)
      as (evs & Hlog & Hrep).
    destruct (create_directory h (Some (get_directory filename)) w)
      as [ok1 w1].
    simpl in Hlog, Hrep.
    destruct Hrep as [[-> Herr]|[-> Herr]].
    + change (1 =? 0) with false. cbv iota.
      destruct (write_file h filename z len w1) as [[[ok2 z2] w2]|] eqn:Ew;
        [|discriminate].
      destruct (write_file_events _ _ _ _ _ _ _ Ew) as (evs2 & Hlog2 & Hrep2).
      destruct Hrep2 as [[-> Herr2]|[-> Herr2]]; intros [= <- <- <-];
        exists (evs ++ evs2);
        (split; [rewrite Hlog2, Hlog, <- app_assoc; reflexivity|]).
      * left. split; [reflexivity|].
        rewrite errors_app, Herr, Herr2. reflexivity.
      * right. split; [reflexivity|].
        apply ends_with_error_after; assumption.
    + intros [= <- <- <-]. exists evs. split; [exact Hlog|].
      right. split; [reflexivity|exact Herr].
Qed.

Lemma unpack_loop_events (destdir : string) (num : Z) (fuel : nat) :
  forall (z : reader_t) (pos : Z) (w w' : world) (ok : Z),
    unpack_loop h fuel destdir num z pos w = Some (ok, w') ->
    exists evs,
      log w' = log w ++ evs
      /\ ((ok = 1 /\ errors evs = [])
          \/ (ok = 0 /\ (errors evs = [] \/ ends_with_error evs))).
Proof.
  induction fuel as [|fuel IH]; intros z pos w w' ok Hrun;
    [discriminate Hrun|].
  cbn [unpack_loop] in Hrun.
  destruct (reader_memread z 3) as [[n id] z0].
  destruct (n <? 3).
  { injection Hrun as <- <-. eexists. split; [reflexivity|].
    right. split; [reflexivity|]. right. eexists [], _. split; reflexivity. }
  destruct (String.eqb _ "END").
  { injection Hrun as <- <-. eexists. split; [reflexivity|]. left. auto. }
  destruct (read_int z0) as [[l len] z1].
  destruct (l <? 4).
  { injection Hrun as <- <-. exists []. rewrite app_nil_r.
    split; [reflexivity|]. right. auto. }
  destruct (read_filename h z1) as [filename z2].
  destruct (dispatch_entry h _ _ len z2 _) as [[[ok1 z3] w1]|] eqn:Ed;
    [|discriminate Hrun].
  destruct (dispatch_entry_events _ _ _ _ _ _ _ _ Ed) as (evs & Hlog & Hrep).
  simpl in Hlog. rewrite <- !app_assoc in Hlog. simpl in Hlog.
  destruct Hrep as [[-> Herr]|[-> Herr]].
  - change (1 =? 0) with false in Hrun. cbv iota in Hrun.
    destruct (IH _ _ _ _ _ Hrun) as (evs2 & Hlog2 & Hrep2).
    eexists. split; [rewrite Hlog2, Hlog, <- app_assoc; reflexivity|].
    assert (Hpre : errors (f_status (pos + 1) num
                           :: f_message
                                (entry_message (c_str (id ++ [x00]))
                                   (concatPaths h destdir
                                      (skip_dot_slash filename)) len)
                           :: evs) = []) by exact Herr.
    destruct Hrep2 as [[-> Herr2]|[-> [Herr2|Herr2]]].
    + left. split; [reflexivity|]. rewrite errors_app, Hpre, Herr2.
      reflexivity.
    + right. split; [reflexivity|]. left.
      rewrite errors_app, Hpre, Herr2. reflexivity.
    + right. split; [reflexivity|]. right.
      apply ends_with_error_after; assumption.
  - injection Hrun as <- <-. eexists. split; [exact Hlog|].
    right. split; [reflexivity|]. right.
    apply (ends_with_error_after [_; _]); [reflexivity|exact Herr].
Qed.

(** X7. Whatever the input, a run of [unpack_archive] calls the sink's
    error operation at most once, and only in a run that returns 0;
    when it does, the error is the last call of the run: nothing is
    created or reported after it. A run that returns 1 has reported no
    error. *)
Theorem unpack_archive_error_is_last (data : list byte) (destdir : string)
    (w w' : world) (ok : Z) :
  unpack_archive h data destdir w = Some (ok, w') ->
  exists evs,
    log w' = log w ++ evs
    /\ ((ok = 1 /\ errors evs = [])
        \/ (ok = 0 /\ (errors evs = [] \/ ends_with_error evs)))
    /\ (length (errors evs) <= 1)%nat.
Proof.
  intros Hrun.
  cut (exists evs,
         log w' = log w ++ evs
         /\ ((ok = 1 /\ errors evs = [])
             \/ (ok = 0 /\ (errors evs = [] \/ ends_with_error evs)))).
  { intros (evs & Hlog & Hrep). exists evs. split; [exact Hlog|].
    split; [exact Hrep|].
    destruct Hrep as [[_ ->]|[_ [->|(evs0 & msg & -> & H0)]]];
      [simpl; lia|simpl; lia|].
    rewrite errors_app, H0. simpl. lia. }
  revert Hrun. unfold unpack_archive.
  destruct (reader_init_decompress h data) as [z|].
  2:{ intros [= <- <-]. eexists. split; [reflexivity|].
      right. split; [reflexivity|]. right. eexists [], _. split; reflexivity. }
  destruct (create_directory_events (Some destdir)
              (emit (f_message "Creating installation directory") w))
    as (evs & Hlog & Hrep).
  destruct (create_directory h (Some destdir) _) as [ok1 w1].
  simpl in Hlog, Hrep. rewrite <- app_assoc in Hlog. simpl in Hlog.
  destruct Hrep as [[-> Herr]|[-> Herr]].
  - change (1 =? 0) with false. cbv iota.
    destruct (read_int z) as [[l num] z1].
    destruct (l <? 4).
    { intros [= <- <-]. eexists. split; [exact Hlog|]. right.
      split; [reflexivity|]. left. exact Herr. }
    intros Hrun.
    destruct (unpack_loop_events _ _ _ _ _ _ _ _ Hrun) as (evs2 & Hlog2 & Hrep2).
    simpl in Hlog2. rewrite <- !app_assoc in Hlog2. simpl in Hlog2.
    rewrite Hlog, <- app_assoc in Hlog2. simpl in Hlog2.
    eexists. split; [exact Hlog2|].
    assert (Hpre : errors (evs ++ [f_status 0 num;
                                   f_message "Uncompressing files..."]) = [])
      by (rewrite errors_app, Herr; reflexivity).
    change (f_message "Creating installation directory"
            :: evs ++ f_status 0 num
               :: f_message "Uncompressing files..." :: evs2)
      with ([f_message "Creating installation directory"]
            ++ (evs ++ [f_status 0 num] ++ [f_message "Uncompressing files..."]
                ++ evs2)).
    replace (evs ++ [f_status 0 num] ++ [f_message "Uncompressing files..."]
             ++ evs2)
      with ((evs ++ [f_status 0 num; f_message "Uncompressing files..."])
            ++ evs2) by (rewrite <- app_assoc; reflexivity).
    destruct Hrep2 as [[-> Herr2]|[-> [Herr2|Herr2]]].
    + left. split; [reflexivity|].
      rewrite !errors_app, Herr, Herr2. reflexivity.
    + right. split; [reflexivity|]. left.
      rewrite !errors_app, Herr, Herr2. reflexivity.
    + right. split; [reflexivity|]. right.
      apply (ends_with_error_after [_]); [reflexivity|].
      apply ends_with_error_after; assumption.
  - intros [= <- <-]. eexists. split; [exact Hlog|].
    right. split; [reflexivity|]. right.
    apply (ends_with_error_after [_]); [reflexivity|exact Herr].
Qed.

(** X8. Whether it succeeds or fails, a run of [unpack_archive] removes
    nothing and rolls nothing back: every path that held a directory
    before holds a directory afterwards, and every path that held a file
    holds a file (possibly with new content). *)
Theorem unpack_archive_keeps_paths (data : list byte) (destdir : string)
    (w w' : world) (ok : Z) :
  unpack_archive h data destdir w = Some (ok, w') ->
  forall p,
    (fs w !! p = Some Dir -> fs w' !! p = Some Dir)
    /\ (forall c, fs w !! p = Some (File c) ->
                  exists d, fs w' !! p = Some (File d)).
Proof.
  unfold unpack_archive.
  destruct (reader_init_decompress h data) as [z|].
  2:{ intros [= <- <-]. apply kinds_kept_refl. }
  pose proof (create_directory_kinds h (Some destdir)
                (emit (f_message "Creating installation directory") w)) as Hk.
  destruct (create_directory h (Some destdir) _) as [ok1 w1]. simpl in Hk.
  destruct (ok1 =? 0); [intros [= <- <-]; exact Hk|].
  destruct (read_int z) as [[l num] z1].
  destruct (l <? 4); [intros [= <- <-]; exact Hk|].
  intros Hrun.
  apply (kinds_kept_trans _ _ _ Hk).
  apply (unpack_loop_kinds h _ _ _ _ _ _ _ _ Hrun).
Qed.

End Reports.

(* ------------------------------------------------------------------ *)
(** ** What a successful extraction leaves in the filesystem *)

Section Extracted.

Variable h : host.

(** The round on a valid entry that lies whole in the stream. *)
Lemma unpack_loop_valid_round (fuel : nat) (destdir : string) (num : Z)
    (z : reader_t) (pos : Z) (w : world) (e : entry) (rest : list byte) :
  valid_entry e ->
  at_stream z (encode_entry e ++ rest) ->
  exists z2,
    at_stream z2 (e_payload e ++ rest)
    /\ unpack_loop h (S fuel) destdir num z pos w =
       let filename := entry_path h destdir (e_name e) in
       let len := int_of_bytes (e_size e) in
       let w := emit (f_status (pos + 1) num) w in
       let w := emit (f_message (entry_message (entry_tag e) filename len)) w in
       match dispatch_entry h (entry_tag e) filename len z2 w with
       | None => None
       | Some (ok, z3, w) =>
           if ok =? 0 then Some (0, w)
           else unpack_loop h fuel destdir num z3 (pos + 1) w
       end.
Proof.
  intros (Hid & Hend & Hsize & Hname & _) Hz.
  unfold encode_entry in Hz. rewrite <- !app_assoc in Hz.
  destruct (unpack_loop_round h fuel destdir num z pos w _ _ _ Hz Hid Hend
              Hsize) as (z1 & Hz1 & E).
  destruct (read_filename_full h z1 _ _ _ Hz1 Hname) as (z2 & E2 & Hz2).
  exists z2. split; [exact Hz2|]. rewrite E, E2. reflexivity.
Qed.

(** What the dispatch of a valid entry has done when it returns 1. *)
Lemma dispatch_entry_effect (e : entry) (filename : string)
    (z z' : reader_t) (w w' : world) (rest : list byte) :
  valid_entry e ->
  at_stream z (e_payload e ++ rest) ->
  dispatch_entry h (entry_tag e) filename (int_of_bytes (e_size e)) z w
  = Some (1, z', w') ->
  at_stream z' rest
  /\ if String.eqb (entry_tag e) "DIR" then
       create_directory h (Some filename) (emit (f_new_directory filename) w)
       = (1, w')
     else
       exists w1,
         create_directory h (Some (get_directory filename)) w = (1, w1)
         /\ fs w' = <[resolve h (opened_name filename)
                       := File (e_payload e)]> (fs w1)
         /\ kinds_kept (fs w1) (fs w').
Proof.
  intros (_ & _ & _ & _ & Hpay) Hz. unfold dispatch_entry.
  destruct (String.eqb (entry_tag e) "DIR").
  - destruct (e_payload e); [|discriminate Hpay]. simpl in Hz.
    pose proof (create_directory_ok h (Some filename)
                  (emit (f_new_directory filename) w)) as Hok.
    destruct (create_directory h (Some filename) _) as [ok w1].
    simpl in Hok. destruct Hok as [-> | ->]; [discriminate|].
    intros [= <- <-]. split; [exact Hz|reflexivity].
  - pose proof (create_directory_ok h (Some (get_directory filename)) w) as Hok.
    destruct (create_directory h (Some (get_directory filename)) w)
      as [ok w1].
    simpl in Hok. destruct Hok as [-> | ->]; [discriminate|].
    change (1 =? 0) with false. cbv iota.
    assert (Hlen : Z.of_nat (length (e_payload e))
                   = Z.max 0 (int_of_bytes (e_size e)))
      by (rewrite Hpay; lia).
    pose proof (write_file_payload h filename z (int_of_bytes (e_size e))
                  w1 (e_payload e) rest Hz Hlen) as Hw.
    cbv zeta in Hw. destruct Hw as (r' & w2 & evs & E & _ & _ & Hopen).
    rewrite E.
    destruct (can_open h w1 (opened_name filename)) eqn:Ho.
    + destruct (Hopen eq_refl) as (Hr' & Hfs & _).
      change (1 =? 0) with false. cbv iota.
      intros [= <- <-]. split; [exact Hr'|]. exists w1.
      split; [reflexivity|]. split; [exact Hfs|].
      rewrite Hfs. apply kinds_kept_put_file.
      apply can_open_true in Ho. apply is_directory_false. apply Ho.
    + change (0 =? 0) with true. cbv iota. discriminate.
Qed.

Lemma create_directory_makes_directory (path : option string) (w w' : world) :
  create_directory h path w = (1, w') ->
  nothing_to_do path = false ->
  fs w' !! resolve h (created_name path) = Some Dir.
Proof.
  pose proof (create_directory_unfold h path w) as E. cbv zeta in E.
  rewrite E. clear E. intros Hrun Hskip. rewrite Hskip in Hrun.
  destruct (is_directory w _) eqn:Hdir.
  - injection Hrun as <-. apply is_directory_true in Hdir. exact Hdir.
  - destruct (can_mkdir h w _); [|discriminate Hrun].
    injection Hrun as <-. apply lookup_insert_eq.
Qed.

Lemma create_directory_keeps_file (path : option string) (w w' : world)
    (p : string) (c : list byte) :
  create_directory h path w = (1, w') ->
  fs w !! p = Some (File c) ->
  fs w' !! p = Some (File c).
Proof.
  pose proof (create_directory_unfold h path w) as E. cbv zeta in E.
  rewrite E. clear E. intros Hrun Hp.
  destruct (nothing_to_do path); [injection Hrun as <-; exact Hp|].
  destruct (is_directory w _); [injection Hrun as <-; exact Hp|].
  destruct (can_mkdir h w _) eqn:Hmk; [|discriminate Hrun].
  injection Hrun as <-. apply can_mkdir_true in Hmk. destruct Hmk as [_ Hnone].
  simpl. rewrite lookup_insert_ne; [exact Hp|]. intros <-. congruence.
Qed.

(** A successful run over valid entries reaches what follows them. *)
Lemma unpack_loop_reaches (destdir : string) (num : Z) (w' : world)
    (tail : list byte) (es : list entry) :
  forall (fuel : nat) (z : reader_t) (pos : Z) (w : world),
    Forall valid_entry es ->
    at_stream z (encode_entries es ++ tail) ->
    unpack_loop h fuel destdir num z pos w = Some (1, w') ->
    exists fuel' z1 pos1 w1,
      at_stream z1 tail
      /\ kinds_kept (fs w) (fs w1)
      /\ unpack_loop h fuel' destdir num z1 pos1 w1 = Some (1, w').
Proof.
  induction es as [|e es IH]; intros fuel z pos w Hvalid Hz Hrun.
  - exists fuel, z, pos, w. split; [exact Hz|].
    split; [apply kinds_kept_refl|exact Hrun].
  - destruct fuel as [|fuel]; [discriminate Hrun|].
    inversion Hvalid as [|? ? He Hes]; subst.
    unfold encode_entries in Hz. simpl flat_map in Hz.
    fold (encode_entries es) in Hz. rewrite <- app_assoc in Hz.
    destruct (unpack_loop_valid_round fuel destdir num z pos w e _ He Hz)
      as (z2 & Hz2 & E).
    rewrite E in Hrun. cbv zeta in Hrun.
    destruct (dispatch_entry h _ _ _ z2 _) as [[[ok z3] w1]|] eqn:Ed;
      [|discriminate Hrun].
    destruct (dispatch_entry_result h _ _ _ _ _ _ _ _ Ed) as [[-> | ->] Hk];
      [discriminate Hrun|].
    change (1 =? 0) with false in Hrun. cbv iota in Hrun.
    destruct (dispatch_entry_effect e _ _ _ _ _ _ He Hz2 Ed) as [Hz3 _].
    destruct (IH fuel z3 (pos + 1) w1 Hes Hz3 Hrun)
      as (fuel' & z4 & pos4 & w4 & Hz4 & Hk4 & Hrun4).
    exists fuel', z4, pos4, w4. split; [exact Hz4|].
    split; [|exact Hrun4]. eapply kinds_kept_trans; [exact Hk|exact Hk4].
Qed.

(** Later entries leave a file alone unless they are written to it. *)
Lemma unpack_loop_keeps_file (destdir : string) (num : Z) (w' : world)
    (p : string) (c : list byte) (es : list entry) :
  forall (fuel : nat) (z : reader_t) (pos : Z) (w : world),
    Forall valid_entry es ->
    at_stream z (encode_entries es ++ list_byte_of_string "END") ->
    fs w !! p = Some (File c) ->
    (forall e', In e' es -> entry_tag e' <> "DIR" ->
                resolve h (file_of_entry h destdir (e_name e')) <> p) ->
    unpack_loop h fuel destdir num z pos w = Some (1, w') ->
    fs w' !! p = Some (File c).
Proof.
  induction es as [|e es IH]; intros fuel z pos w Hvalid Hz Hp Hother Hrun;
    (destruct fuel as [|fuel]; [discriminate Hrun|]).
  - simpl in Hz.
    destruct (reader_memread_full z (list_byte_of_string "END") [] 3)
      as (z0 & E0 & _); [rewrite app_nil_r; exact Hz|reflexivity|].
    cbn [unpack_loop] in Hrun. rewrite E0 in Hrun.
    change (Some (1, emit (f_message "Finishing Installation") w) = Some (1, w'))
      in Hrun.
    injection Hrun as <-. exact Hp.
  - inversion Hvalid as [|? ? He Hes]; subst.
    unfold encode_entries in Hz. simpl flat_map in Hz.
    fold (encode_entries es) in Hz. rewrite <- app_assoc in Hz.
    destruct (unpack_loop_valid_round fuel destdir num z pos w e _ He Hz)
      as (z2 & Hz2 & E).
    rewrite E in Hrun. cbv zeta in Hrun.
    destruct (dispatch_entry h _ _ _ z2 _) as [[[ok z3] w1]|] eqn:Ed;
      [|discriminate Hrun].
    destruct (dispatch_entry_result h _ _ _ _ _ _ _ _ Ed) as [[-> | ->] _];
      [discriminate Hrun|].
    change (1 =? 0) with false in Hrun. cbv iota in Hrun.
    destruct (dispatch_entry_effect e _ _ _ _ _ _ He Hz2 Ed) as [Hz3 Heff].
    apply (IH fuel z3 (pos + 1) w1 Hes Hz3); [| |exact Hrun].
    + destruct (String.eqb_spec (entry_tag e) "DIR") as [Hdir|Hfile].
      * apply (create_directory_keeps_file _ _ _ _ _ Heff). exact Hp.
      * destruct Heff as (w2 & Hc & Hfs & _). rewrite Hfs.
        rewrite lookup_insert_ne.
        -- apply (create_directory_keeps_file _ _ _ _ _ Hc). exact Hp.
        -- apply (Hother e); [left; reflexivity|exact Hfile].
    + intros e' Hin. apply Hother. right. exact Hin.
Qed.

(** X9. Round trip for files. When an archive of valid entries has been
    unpacked with success, the file of every non-DIR entry holds exactly
    the payload of that entry, provided no later entry of the archive is
    written to the same file: to a path that the filesystem takes for
    the same name, whether spelled alike or not. *)
Theorem extracted_file_holds_payload (data : list byte) (destdir : string)
    (w w' : world) (header : list byte) (es1 es2 : list entry) (e : entry) :
  decompress h data = Some (encode_archive header (es1 ++ e :: es2)) ->
  length header = 4%nat ->
  Forall valid_entry (es1 ++ e :: es2) ->
  entry_tag e <> "DIR" ->
  (forall e', In e' es2 -> entry_tag e' <> "DIR" ->
              resolve h (file_of_entry h destdir (e_name e'))
              <> resolve h (file_of_entry h destdir (e_name e))) ->
  unpack_archive h data destdir w = Some (1, w') ->
  fs w' !! resolve h (file_of_entry h destdir (e_name e))
  = Some (File (e_payload e)).
Proof.
  intros Hdec Hheader Hvalid Hfile Hother Hrun.
  unfold unpack_archive, reader_init_decompress in Hrun. rewrite Hdec in Hrun.
  destruct (create_directory h (Some destdir) _) as [ok w1].
  destruct (ok =? 0); [discriminate Hrun|].
  destruct (read_int_full
              (reader_init_memreader _ _) header
              (encode_entries (es1 ++ e :: es2) ++ list_byte_of_string "END")
              (reader_init_memreader_stream
                 (encode_archive header (es1 ++ e :: es2))) Hheader)
    as (z1 & E1 & Hz1).
  rewrite E1 in Hrun. change (4 <? 4) with false in Hrun. cbv iota in Hrun.
  apply Forall_app in Hvalid. destruct Hvalid as [Hv1 Hv2].
  inversion Hv2 as [|? ? He Hes]; subst.
  unfold encode_entries in Hz1. rewrite flat_map_app in Hz1.
  simpl flat_map in Hz1. fold (encode_entries es1) in Hz1.
  fold (encode_entries es2) in Hz1. rewrite <- !app_assoc in Hz1.
  destruct (unpack_loop_reaches destdir _ w' _ es1 _ z1 0 _ Hv1 Hz1 Hrun)
    as (fuel & z2 & pos2 & w2 & Hz2 & _ & Hrun2).
  destruct fuel as [|fuel]; [discriminate Hrun2|].
  destruct (unpack_loop_valid_round fuel destdir (int_of_bytes header) z2
              pos2 w2 e _ He Hz2)
    as (z3 & Hz3 & E).
  rewrite E in Hrun2. cbv zeta in Hrun2.
  destruct (dispatch_entry h _ _ _ z3 _) as [[[ok3 z4] w4]|] eqn:Ed;
    [|discriminate Hrun2].
  destruct (dispatch_entry_result h _ _ _ _ _ _ _ _ Ed) as [[-> | ->] _];
    [discriminate Hrun2|].
  change (1 =? 0) with false in Hrun2. cbv iota in Hrun2.
  destruct (dispatch_entry_effect e _ _ _ _ _ _ He Hz3 Ed) as [Hz4 Heff].
  destruct (String.eqb_spec (entry_tag e) "DIR") as [Hdir|_];
    [contradiction|].
  destruct Heff as (w5 & _ & Hfs & _).
  apply (unpack_loop_keeps_file destdir (int_of_bytes header) w'
           (resolve h (file_of_entry h destdir (e_name e))) (e_payload e)
           es2 fuel z4
           (pos2 + 1) w4 Hes Hz4); [|exact Hother|exact Hrun2].
  rewrite Hfs. apply lookup_insert_eq.
Qed.

(** X10. Directories of a successful extraction. When an archive of valid
    entries has been unpacked with success, the path of every DIR entry,
    and the directory part of the path of every other entry, is a
    directory afterwards, unless [create_directory] skips that path
    (empty, a dot, or beginning with two dots). *)
Theorem extracted_directory_exists (data : list byte) (destdir : string)
    (w w' : world) (header : list byte) (es1 es2 : list entry) (e : entry) :
  decompress h data = Some (encode_archive header (es1 ++ e :: es2)) ->
  length header = 4%nat ->
  Forall valid_entry (es1 ++ e :: es2) ->
  let path := entry_path h destdir (e_name e) in
  let target :=
    if String.eqb (entry_tag e) "DIR" then path else get_directory path in
  nothing_to_do (Some target) = false ->
  unpack_archive h data destdir w = Some (1, w') ->
  fs w' !! resolve h (created_name (Some target)) = Some Dir.
Proof.
  intros Hdec Hheader Hvalid path target Hskip Hrun.
  unfold unpack_archive, reader_init_decompress in Hrun. rewrite Hdec in Hrun.
  destruct (create_directory h (Some destdir) _) as [ok w1].
  destruct (ok =? 0); [discriminate Hrun|].
  destruct (read_int_full
              (reader_init_memreader _ _) header
              (encode_entries (es1 ++ e :: es2) ++ list_byte_of_string "END")
              (reader_init_memreader_stream
                 (encode_archive header (es1 ++ e :: es2))) Hheader)
    as (z1 & E1 & Hz1).
  rewrite E1 in Hrun. change (4 <? 4) with false in Hrun. cbv iota in Hrun.
  apply Forall_app in Hvalid. destruct Hvalid as [Hv1 Hv2].
  inversion Hv2 as [|? ? He Hes]; subst.
  unfold encode_entries in Hz1. rewrite flat_map_app in Hz1.
  simpl flat_map in Hz1. fold (encode_entries es1) in Hz1.
  fold (encode_entries es2) in Hz1. rewrite <- !app_assoc in Hz1.
  destruct (unpack_loop_reaches destdir _ w' _ es1 _ z1 0 _ Hv1 Hz1 Hrun)
    as (fuel & z2 & pos2 & w2 & Hz2 & _ & Hrun2).
  destruct fuel as [|fuel]; [discriminate Hrun2|].
  destruct (unpack_loop_valid_round fuel destdir (int_of_bytes header) z2
              pos2 w2 e _ He Hz2)
    as (z3 & Hz3 & E).
  rewrite E in Hrun2. cbv zeta in Hrun2. fold path in Hrun2.
  destruct (dispatch_entry h _ path _ z3 _) as [[[ok3 z4] w4]|] eqn:Ed;
    [|discriminate Hrun2].
  destruct (dispatch_entry_result h _ _ _ _ _ _ _ _ Ed) as [[-> | ->] Hk];
    [discriminate Hrun2|].
  change (1 =? 0) with false in Hrun2. cbv iota in Hrun2.
  destruct (dispatch_entry_effect e _ _ _ _ _ _ He Hz3 Ed) as [Hz4 Heff].
  apply (unpack_loop_kinds h _ _ _ _ _ _ _ _ Hrun2).
  subst target. destruct (String.eqb (entry_tag e) "DIR").
  - apply (create_directory_makes_directory _ _ _ Heff Hskip).
  - destruct Heff as (w5 & Hc & _ & Hk5).
    apply (Hk5 (resolve h (created_name (Some (get_directory path))))).
    apply (create_directory_makes_directory _ _ _ Hc Hskip).
Qed.

End Extracted.

(* ------------------------------------------------------------------ *)
(** ** The entry count of the header is advisory *)

Lemma reader_memread_same (r1 r2 : reader_t) (k : Z) :
  same_stream r1 r2 -> 0 <= k ->
  exists n buf r1' r2',
    reader_memread r1 k = (n, buf, r1')
    /\ reader_memread r2 k = (n, buf, r2')
    /\ same_stream r1' r2'.
Proof.
  intros (s & H1 & H2) Hk.
  destruct (reader_memread_stream r1 s k H1 Hk) as (r1' & E1 & H1').
  destruct (reader_memread_stream r2 s k H2 Hk) as (r2' & E2 & H2').
  do 4 eexists. split; [exact E1|]. split; [exact E2|].
  exists (skipn (Z.to_nat k) s). split; assumption.
Qed.

Lemma read_unsigned_byte_same (z1 z2 : reader_t) :
  same_stream z1 z2 ->
  exists n v z1' z2',
    read_unsigned_byte z1 = (n, v, z1')
    /\ read_unsigned_byte z2 = (n, v, z2')
    /\ same_stream z1' z2'.
Proof.
  intros Hs. unfold read_unsigned_byte.
  destruct (reader_memread_same z1 z2 1 Hs) as (n & buf & z1' & z2' & E1 & E2 & Hs');
    [lia|].
  rewrite E1, E2. do 4 eexists. split; [reflexivity|].
  split; [reflexivity|exact Hs'].
Qed.

Lemma read_int_same (z1 z2 : reader_t) :
  same_stream z1 z2 ->
  exists l v z1' z2',
    read_int z1 = (l, v, z1') /\ read_int z2 = (l, v, z2')
    /\ same_stream z1' z2'.
Proof.
  intros Hs. unfold read_int.
  destruct (read_unsigned_byte_same _ _ Hs)
    as (n1 & v1 & a1 & a2 & Ea1 & Ea2 & Ha).
  destruct (read_unsigned_byte_same _ _ Ha)
    as (n2 & v2 & b1 & b2 & Eb1 & Eb2 & Hb).
  destruct (read_unsigned_byte_same _ _ Hb)
    as (n3 & v3 & c1 & c2 & Ec1 & Ec2 & Hc).
  destruct (read_unsigned_byte_same _ _ Hc)
    as (n4 & v4 & d1 & d2 & Ed1 & Ed2 & Hd).
  rewrite Ea1, Ea2, Eb1, Eb2, Ec1, Ec2, Ed1, Ed2.
  do 4 eexists. split; [reflexivity|]. split; [reflexivity|exact Hd].
Qed.

Lemma copy_chunks_same (fuel : nat) :
  forall (r1 r2 : reader_t) (len pos : Z),
    same_stream r1 r2 ->
    (copy_chunks fuel r1 len pos = None /\ copy_chunks fuel r2 len pos = None)
    \/ exists chunks e r1' r2',
         copy_chunks fuel r1 len pos = Some (chunks, e, r1')
         /\ copy_chunks fuel r2 len pos = Some (chunks, e, r2')
         /\ same_stream r1' r2'.
Proof.
  induction fuel as [|fuel IH]; intros r1 r2 len pos Hs;
    cbn [copy_chunks]; destruct (Z.ltb_spec pos len) as [Hlt|Hge];
    try (left; split; reflexivity);
    try (right; do 4 eexists; split; [reflexivity|split; [reflexivity|exact Hs]]).
  pose proof (chunk_size len pos Hlt) as Hl. cbv zeta in Hl.
  set (l := if pos + 4096 >? len then len - pos else 4096) in *.
  destruct (reader_memread_same r1 r2 l Hs)
    as (n & buf & r1' & r2' & E1 & E2 & Hs'); [lia|].
  rewrite E1, E2. cbv beta iota.
  destruct (n <? l).
  - right. do 4 eexists. split; [reflexivity|]. split; [reflexivity|exact Hs'].
  - destruct (IH r1' r2' len (pos + l) Hs')
      as [[-> ->]|(chunks & e & a1 & a2 & -> & -> & Ha)].
    + left. split; reflexivity.
    + right. do 4 eexists. split; [reflexivity|].
      split; [reflexivity|exact Ha].
Qed.

Lemma same_but_num_emit (e : event) (w1 w2 : world) :
  same_but_num w1 w2 -> same_but_num (emit e w1) (emit e w2).
Proof.
  intros [Hfs Hlog]. split; [exact Hfs|]. simpl.
  rewrite !map_app, Hlog. reflexivity.
Qed.

Lemma same_but_num_status (pos n1 n2 : Z) (w1 w2 : world) :
  same_but_num w1 w2 ->
  same_but_num (emit (f_status pos n1) w1) (emit (f_status pos n2) w2).
Proof.
  intros [Hfs Hlog]. split; [exact Hfs|]. simpl.
  rewrite !map_app, Hlog. reflexivity.
Qed.

Section Advisory.

Variable h : host.

Lemma read_filename_same (z1 z2 : reader_t) :
  same_stream z1 z2 ->
  exists filename z1' z2',
    read_filename h z1 = (filename, z1')
    /\ read_filename h z2 = (filename, z2')
    /\ same_stream z1' z2'.
Proof.
  intros Hs. unfold read_filename.
  destruct (reader_memread_same z1 z2 1 Hs)
    as (n & lenbuf & a1 & a2 & Ea1 & Ea2 & Ha); [lia|].
  rewrite Ea1, Ea2. cbv beta iota zeta.
  set (filename_len := match lenbuf with b :: _ => b | [] => uninit_char h end).
  assert (Hb : 0 <= byte_val filename_len) by (unfold byte_val; lia).
  destruct (reader_memread_same a1 a2 (byte_val filename_len) Ha Hb)
    as (n2 & name & b1 & b2 & Eb1 & Eb2 & Hb').
  rewrite Eb1, Eb2. do 3 eexists. split; [reflexivity|].
  split; [reflexivity|exact Hb'].
Qed.

Lemma create_directory_same (path : option string) (w1 w2 : world) :
  same_but_num w1 w2 ->
  exists ok w1' w2',
    create_directory h path w1 = (ok, w1')
    /\ create_directory h path w2 = (ok, w2')
    /\ same_but_num w1' w2'.
Proof.
  intros [Hfs Hlog].
  pose proof (create_directory_unfold h path w1) as E1.
  pose proof (create_directory_unfold h path w2) as E2.
  cbv zeta in E1, E2. rewrite E1, E2. clear E1 E2.
  unfold is_directory, can_mkdir. rewrite <- Hfs.
  destruct (nothing_to_do path).
  { do 3 eexists. split; [reflexivity|]. split; [reflexivity|].
    split; assumption. }
  destruct (fs w1 !! resolve h (created_name path)) as [[|c]|];
    rewrite ?andb_true_r, ?andb_false_r;
    try destruct (negb _);
    do 3 eexists; (split; [reflexivity|]); (split; [reflexivity|]);
    (split; [simpl; try rewrite Hfs; reflexivity|]);
    unfold emit; simpl; rewrite !map_app, Hlog; reflexivity.
Qed.

Lemma write_file_same (filename : string) (r1 r2 : reader_t) (len : Z)
    (w1 w2 : world) :
  same_stream r1 r2 -> same_but_num w1 w2 ->
  (write_file h filename r1 len w1 = None
   /\ write_file h filename r2 len w2 = None)
  \/ exists ok r1' r2' w1' w2',
       write_file h filename r1 len w1 = Some (ok, r1', w1')
       /\ write_file h filename r2 len w2 = Some (ok, r2', w2')
       /\ same_stream r1' r2' /\ same_but_num w1' w2'.
Proof.
  intros Hs [Hfs Hlog].
  pose proof (write_file_unfold h filename r1 len w1) as E1.
  pose proof (write_file_unfold h filename r2 len w2) as E2.
  cbv zeta in E1, E2. rewrite E1, E2. clear E1 E2.
  unfold can_open, is_directory. rewrite <- Hfs.
  destruct (negb _).
  - destruct (copy_chunks_same (Z.to_nat len) r1 r2 len 0 Hs)
      as [[-> ->]|(chunks & e & a1 & a2 & -> & -> & Ha)];
      [left; split; reflexivity|].
    right. destruct e; do 5 eexists;
      (split; [reflexivity|]); (split; [reflexivity|]);
      (split; [exact Ha|]); (split; [reflexivity|]);
      simpl; rewrite !map_app, Hlog; reflexivity.
  - right. do 5 eexists. split; [reflexivity|]. split; [reflexivity|].
    split; [exact Hs|]. split; [reflexivity|].
    simpl. rewrite !map_app, Hlog. reflexivity.
Qed.

Lemma dispatch_entry_same (id filename : string) (len : Z)
    (z1 z2 : reader_t) (w1 w2 : world) :
  same_stream z1 z2 -> same_but_num w1 w2 ->
  (dispatch_entry h id filename len z1 w1 = None
   /\ dispatch_entry h id filename len z2 w2 = None)
  \/ exists ok z1' z2' w1' w2',
       dispatch_entry h id filename len z1 w1 = Some (ok, z1', w1')
       /\ dispatch_entry h id filename len z2 w2 = Some (ok, z2', w2')
       /\ same_stream z1' z2' /\ same_but_num w1' w2'.
Proof.
  intros Hs Hw. unfold dispatch_entry. destruct (String.eqb id "DIR").
  - destruct (create_directory_same (Some filename) _ _
                (same_but_num_emit (f_new_directory filename) _ _ Hw))
      as (ok & a1 & a2 & -> & -> & Ha).
    right. destruct (ok =? 0); do 5 eexists;
      (split; [reflexivity|]); (split; [reflexivity|]);
      (split; [exact Hs|exact Ha]).
  - destruct (create_directory_same (Some (get_directory filename)) _ _ Hw)
      as (ok & a1 & a2 & -> & -> & Ha).
    destruct (ok =? 0).
    { right. do 5 eexists. split; [reflexivity|]. split; [reflexivity|].
      split; [exact Hs|exact Ha]. }
    destruct (write_file_same filename z1 z2 len a1 a2 Hs Ha)
      as [[-> ->]|(ok2 & b1 & b2 & c1 & c2 & -> & -> & Hb & Hc)];
      [left; split; reflexivity|].
    right. destruct (ok2 =? 0); do 5 eexists;
      (split; [reflexivity|]); (split; [reflexivity|]);
      (split; [exact Hb|exact Hc]).
Qed.

Lemma unpack_loop_same (destdir : string) (num1 num2 : Z) (fuel : nat) :
  forall (z1 z2 : reader_t) (pos : Z) (w1 w2 : world),
    same_stream z1 z2 -> same_but_num w1 w2 ->
    (unpack_loop h fuel destdir num1 z1 pos w1 = None
     /\ unpack_loop h fuel destdir num2 z2 pos w2 = None)
    \/ exists ok w1' w2',
         unpack_loop h fuel destdir num1 z1 pos w1 = Some (ok, w1')
         /\ unpack_loop h fuel destdir num2 z2 pos w2 = Some (ok, w2')
         /\ same_but_num w1' w2'.
Proof.
  induction fuel as [|fuel IH]; intros z1 z2 pos w1 w2 Hs Hw;
    [left; split; reflexivity|].
  cbn [unpack_loop].
  destruct (reader_memread_same z1 z2 3 Hs)
    as (n & id & a1 & a2 & -> & -> & Ha); [lia|].
  destruct (n <? 3).
  { right. do 3 eexists. split; [reflexivity|]. split; [reflexivity|].
    apply same_but_num_emit. exact Hw. }
  destruct (String.eqb _ "END").
  { right. do 3 eexists. split; [reflexivity|]. split; [reflexivity|].
    apply same_but_num_emit. exact Hw. }
  destruct (read_int_same a1 a2 Ha) as (l & len & b1 & b2 & -> & -> & Hb).
  destruct (l <? 4).
  { right. do 3 eexists. split; [reflexivity|]. split; [reflexivity|exact Hw]. }
  destruct (read_filename_same b1 b2 Hb)
    as (filename & c1 & c2 & -> & -> & Hc).
  match goal with
  | |- context [dispatch_entry h ?i ?f len c1 (emit ?m _)] =>
      destruct (dispatch_entry_same i f len c1 c2 _ _ Hc
                  (same_but_num_emit m _ _
                     (same_but_num_status (pos + 1) num1 num2 _ _ Hw)))
        as [[-> ->]|(ok & d1 & d2 & e1 & e2 & -> & -> & Hd & He)]
  end; [left; split; reflexivity|].
  destruct (ok =? 0).
  { right. do 3 eexists. split; [reflexivity|]. split; [reflexivity|exact He]. }
  apply IH; assumption.
Qed.

(** X11. The entry count of the header is advisory: two archives that
    differ in their four header bytes only are unpacked with the same
    return value, leave the same filesystem, and cause the same calls on
    the sink and on the host in the same order, up to the second
    argument of the status calls. *)
Theorem entry_count_is_advisory (data1 data2 header1 header2 body : list byte)
    (destdir : string) (w w1 : world) (ok : Z) :
  decompress h data1 = Some (header1 ++ body) ->
  decompress h data2 = Some (header2 ++ body) ->
  length header1 = 4%nat ->
  length header2 = 4%nat ->
  unpack_archive h data1 destdir w = Some (ok, w1) ->
  exists w2,
    unpack_archive h data2 destdir w = Some (ok, w2)
    /\ fs w2 = fs w1
    /\ map erase_num (log w2) = map erase_num (log w1).
Proof.
  intros Hd1 Hd2 Hh1 Hh2.
  unfold unpack_archive, reader_init_decompress. rewrite Hd1, Hd2.
  destruct (create_directory h (Some destdir) _) as [ok0 w0].
  destruct (ok0 =? 0).
  { intros [= <- <-]. exists w0. split; [reflexivity|]. split; reflexivity. }
  destruct (read_int_full _ header1 body
              (reader_init_memreader_stream (header1 ++ body)) Hh1)
    as (z1 & -> & Hz1).
  destruct (read_int_full _ header2 body
              (reader_init_memreader_stream (header2 ++ body)) Hh2)
    as (z2 & -> & Hz2).
  change (4 <? 4) with false. cbv iota.
  assert (Hrem : remaining z2 = remaining z1)
    by (rewrite (proj2 Hz1), (proj2 Hz2); reflexivity).
  rewrite Hrem. intros Hrun.
  destruct (unpack_loop_same destdir (int_of_bytes header1)
              (int_of_bytes header2) (S (length (remaining z1))) z1 z2 0
              (emit (f_message "Uncompressing files...")
                 (emit (f_status 0 (int_of_bytes header1)) w0))
              (emit (f_message "Uncompressing files...")
                 (emit (f_status 0 (int_of_bytes header2)) w0)))
    as [[E1 _]|(ok' & a1 & a2 & E1 & E2 & [Hfs Hlog])].
  - exists body. split; assumption.
  - apply same_but_num_emit. apply same_but_num_status. split; reflexivity.
  - rewrite E1 in Hrun. discriminate Hrun.
  - rewrite E1 in Hrun. injection Hrun as <- <-.
    exists a2. split; [exact E2|]. split; [symmetry; exact Hfs|].
    symmetry. exact Hlog.
Qed.

End Advisory.

(* ------------------------------------------------------------------ *)
(** ** Nothing behind the END tag is read *)

Lemma copy_chunks_payload_same (fuel : nat) :
  forall (r1 r2 : reader_t) (len pos : Z) (payload rest1 rest2 : list byte),
    at_stream r1 (payload ++ rest1) ->
    at_stream r2 (payload ++ rest2) ->
    Z.of_nat (length payload) = Z.max 0 (len - pos) ->
    (Z.to_nat (len - pos) <= fuel)%nat ->
    exists chunks r1' r2',
      copy_chunks fuel r1 len pos = Some (chunks, copy_done, r1')
      /\ copy_chunks fuel r2 len pos = Some (chunks, copy_done, r2')
      /\ at_stream r1' rest1 /\ at_stream r2' rest2.
Proof.
  induction fuel as [|fuel IH];
    intros r1 r2 len pos payload rest1 rest2 H1 H2 Hlen Hfuel;
    cbn [copy_chunks]; destruct (Z.ltb_spec pos len) as [Hlt|Hge];
    try lia;
    try (destruct payload; [|simpl in Hlen; lia];
         exists [], r1, r2;
         split; [reflexivity|split; [reflexivity|split; [exact H1|exact H2]]]).
  pose proof (chunk_size len pos Hlt) as Hl. cbv zeta in Hl.
  set (l := if pos + 4096 >? len then len - pos else 4096) in *.
  rewrite <- (firstn_skipn (Z.to_nat l) payload), <- app_assoc in H1, H2.
  assert (Hl' : l = Z.of_nat (length (firstn (Z.to_nat l) payload)))
    by (rewrite length_firstn; lia).
  destruct (reader_memread_full r1 _ _ l H1 Hl') as (a1 & E1 & Ha1).
  destruct (reader_memread_full r2 _ _ l H2 Hl') as (a2 & E2 & Ha2).
  rewrite E1, E2. cbv beta iota. rewrite Z.ltb_irrefl.
  destruct (IH a1 a2 len (pos + l) (skipn (Z.to_nat l) payload) rest1 rest2
              Ha1 Ha2) as (chunks & b1 & b2 & -> & -> & Hb1 & Hb2).
  { rewrite length_skipn. lia. }
  { lia. }
  do 3 eexists. split; [reflexivity|]. split; [reflexivity|].
  split; assumption.
Qed.

Lemma encode_entries_length (es : list entry) :
  Forall valid_entry es -> (length es <= length (encode_entries es))%nat.
Proof.
  induction 1 as [|e es He _ IH]; [simpl; lia|].
  unfold encode_entries in *. simpl flat_map. rewrite length_app.
  set (n := length (flat_map encode_entry es)) in *.
  destruct He as (Hid & _). unfold encode_entry. rewrite length_app.
  change (length (e :: es)) with (S (length es)). lia.
Qed.

Section Trailing.

Variable h : host.

Lemma dispatch_entry_trailing (e : entry) (filename : string)
    (z1 z2 : reader_t) (w : world) (rest1 rest2 : list byte) :
  valid_entry e ->
  at_stream z1 (e_payload e ++ rest1) ->
  at_stream z2 (e_payload e ++ rest2) ->
  exists ok w' z1' z2',
    dispatch_entry h (entry_tag e) filename (int_of_bytes (e_size e)) z1 w
    = Some (ok, z1', w')
    /\ dispatch_entry h (entry_tag e) filename (int_of_bytes (e_size e)) z2 w
       = Some (ok, z2', w')
    /\ (ok <> 0 -> at_stream z1' rest1 /\ at_stream z2' rest2).
Proof.
  intros (_ & _ & _ & _ & Hpay) H1 H2. unfold dispatch_entry.
  destruct (String.eqb (entry_tag e) "DIR").
  - destruct (e_payload e); [|discriminate Hpay]. simpl in H1, H2.
    destruct (create_directory h (Some filename) _) as [ok w1].
    destruct (ok =? 0); do 4 eexists;
      (split; [reflexivity|]); (split; [reflexivity|]); auto.
  - destruct (create_directory h (Some (get_directory filename)) w)
      as [ok w1].
    destruct (ok =? 0).
    { do 4 eexists. split; [reflexivity|]. split; [reflexivity|].
      intros H. contradiction. }
    pose proof (write_file_unfold h filename z1 (int_of_bytes (e_size e)) w1)
      as E1.
    pose proof (write_file_unfold h filename z2 (int_of_bytes (e_size e)) w1)
      as E2.
    cbv zeta in E1, E2. rewrite E1, E2. clear E1 E2.
    destruct (can_open h w1 _).
    + destruct (copy_chunks_payload_same
                  (Z.to_nat (int_of_bytes (e_size e))) z1 z2
                  (int_of_bytes (e_size e)) 0 (e_payload e) rest1 rest2 H1 H2)
        as (chunks & a1 & a2 & -> & -> & Ha1 & Ha2);
        [rewrite Hpay; lia|lia|].
      change (1 =? 0) with false. cbv iota.
      do 4 eexists. split; [reflexivity|]. split; [reflexivity|]. auto.
    + change (0 =? 0) with true. cbv iota.
      do 4 eexists. split; [reflexivity|]. split; [reflexivity|].
      intros H. contradiction.
Qed.

Lemma unpack_loop_trailing (destdir : string) (num : Z)
    (t1 t2 : list byte) (es : list entry) :
  forall (f1 f2 : nat) (z1 z2 : reader_t) (pos : Z) (w : world),
    Forall valid_entry es ->
    (length es < f1)%nat -> (length es < f2)%nat ->
    at_stream z1 (encode_entries es ++ list_byte_of_string "END" ++ t1) ->
    at_stream z2 (encode_entries es ++ list_byte_of_string "END" ++ t2) ->
    unpack_loop h f1 destdir num z1 pos w
    = unpack_loop h f2 destdir num z2 pos w
    /\ unpack_loop h f1 destdir num z1 pos w <> None.
Proof.
  induction es as [|e es IH]; intros f1 f2 z1 z2 pos w Hvalid Hf1 Hf2 H1 H2;
    (destruct f1 as [|f1]; [simpl in Hf1; lia|]);
    (destruct f2 as [|f2]; [simpl in Hf2; lia|]).
  - simpl in H1, H2.
    destruct (reader_memread_full z1 (list_byte_of_string "END") t1 3 H1)
      as (a1 & E1 & _); [reflexivity|].
    destruct (reader_memread_full z2 (list_byte_of_string "END") t2 3 H2)
      as (a2 & E2 & _); [reflexivity|].
    cbn [unpack_loop]. rewrite E1, E2. split; [reflexivity|discriminate].
  - inversion Hvalid as [|? ? He Hes]; subst.
    unfold encode_entries in H1, H2. simpl flat_map in H1, H2.
    fold (encode_entries es) in H1, H2. rewrite <- app_assoc in H1, H2.
    destruct (unpack_loop_valid_round h f1 destdir num z1 pos w e _ He H1)
      as (a1 & Ha1 & ->).
    destruct (unpack_loop_valid_round h f2 destdir num z2 pos w e _ He H2)
      as (a2 & Ha2 & ->).
    cbv zeta.
    match goal with
    | |- context [dispatch_entry h _ ?f _ a1 ?w0] =>
        destruct (dispatch_entry_trailing e f a1 a2 w0 _ _ He Ha1 Ha2)
          as (ok & w1 & b1 & b2 & -> & -> & Hok)
    end.
    destruct (Z.eqb_spec ok 0) as [->|Hne];
      [split; [reflexivity|discriminate]|].
    destruct (Hok Hne) as [Hb1 Hb2].
    apply IH; try assumption; simpl in Hf1, Hf2; lia.
Qed.

(** X12. Nothing behind the END tag is read: an archive of valid entries
    followed by END gives the same result, the same filesystem and the
    same calls whether or not further bytes follow the tag, and the run
    always comes to an end. *)
Theorem bytes_after_END_are_ignored (data1 data2 header trailing : list byte)
    (es : list entry) (destdir : string) (w : world) :
  decompress h data1 = Some (encode_archive header es) ->
  decompress h data2 = Some (encode_archive header es ++ trailing) ->
  length header = 4%nat ->
  Forall valid_entry es ->
  unpack_archive h data2 destdir w = unpack_archive h data1 destdir w
  /\ exists ok w', unpack_archive h data1 destdir w = Some (ok, w').
Proof.
  intros Hd1 Hd2 Hheader Hvalid.
  unfold unpack_archive, reader_init_decompress. rewrite Hd1, Hd2.
  destruct (create_directory h (Some destdir) _) as [ok0 w0].
  destruct (ok0 =? 0); [split; [reflexivity|eauto]|].
  assert (Hs1 : at_stream
                  (reader_init_memreader (encode_archive header es)
                     (Z.of_nat (length (encode_archive header es))))
                  (header ++ encode_entries es
                   ++ list_byte_of_string "END" ++ [])).
  { rewrite app_nil_r. apply reader_init_memreader_stream. }
  assert (Hs2 : at_stream
                  (reader_init_memreader (encode_archive header es ++ trailing)
                     (Z.of_nat (length (encode_archive header es ++ trailing))))
                  (header ++ encode_entries es
                   ++ list_byte_of_string "END" ++ trailing)).
  { replace (header ++ encode_entries es
             ++ list_byte_of_string "END" ++ trailing)
      with (encode_archive header es ++ trailing)
      by (unfold encode_archive; rewrite <- !app_assoc; reflexivity).
    apply reader_init_memreader_stream. }
  destruct (read_int_full _ header _ Hs1 Hheader) as (z1 & -> & Hz1).
  destruct (read_int_full _ header _ Hs2 Hheader) as (z2 & -> & Hz2).
  change (4 <? 4) with false. cbv iota.
  pose proof (encode_entries_length es Hvalid) as Hlen.
  destruct (unpack_loop_trailing destdir (int_of_bytes header) trailing []
              es (S (length (remaining z2))) (S (length (remaining z1)))
              z2 z1 0
              (emit (f_message "Uncompressing files...")
                 (emit (f_status 0 (int_of_bytes header)) w0)) Hvalid)
    as [Heq Hsome]; try assumption.
  - rewrite (proj2 Hz2), length_app. lia.
  - rewrite (proj2 Hz1), length_app. lia.
  - split; [exact Heq|]. rewrite Heq in Hsome.
    destruct (unpack_loop h _ destdir _ z1 0 _) as [[ok w']|];
      [eauto|contradiction].
Qed.

End Trailing.

(* ------------------------------------------------------------------ *)
(** ** The theorems above at work *)

Lemma valid_two_entries : Forall valid_entry [two_entry_dir; two_entry_file].
Proof.
  repeat constructor; try reflexivity; vm_compute; discriminate.
Qed.

(** The archive without size field: the one error ends the run. *)
Lemma unpack_archive_error_is_last_witness :
  exists w',
    unpack_archive (plain_host false) scenario_without_size "dest" empty_world
    = Some (0, w')
    /\ exists evs,
         log w' = log empty_world ++ evs
         /\ ((0 = 1 /\ errors evs = [])
             \/ (0 = 0 /\ (errors evs = [] \/ ends_with_error evs)))
         /\ (length (errors evs) <= 1)%nat.
Proof.
  destruct (unpack_archive (plain_host false) scenario_without_size "dest"
              empty_world) as [[ok w']|] eqn:Hrun;
    [|vm_compute in Hrun; discriminate].
  assert (Hok : ok = 0) by (vm_compute in Hrun; congruence).
  subst ok. exists w'. split; [reflexivity|].
  exact (unpack_archive_error_is_last (plain_host false) _ _ _ _ _ Hrun).
Defined.

(** A file that is there before the run is still a file afterwards. *)
Lemma unpack_archive_keeps_paths_witness :
  let w := mk_world {[ "dest\sub\a"%string := File [x00] ]} [] in
  exists w',
    unpack_archive (plain_host true) two_entry_archive "dest" w = Some (1, w')
    /\ forall p,
         (fs w !! p = Some Dir -> fs w' !! p = Some Dir)
         /\ (forall c, fs w !! p = Some (File c) ->
                       exists d, fs w' !! p = Some (File d)).
Proof.
  cbv zeta.
  destruct (unpack_archive (plain_host true) two_entry_archive "dest"
              (mk_world {[ "dest\sub\a"%string := File [x00] ]} []))
    as [[ok w']|] eqn:Hrun; [|vm_compute in Hrun; discriminate].
  assert (Hok : ok = 1) by (vm_compute in Hrun; congruence).
  subst ok. exists w'. split; [reflexivity|].
  exact (unpack_archive_keeps_paths (plain_host true) _ _ _ _ _ Hrun).
Defined.

Lemma valid_three_files :
  Forall valid_entry [file_upper_a; file_lower_a; file_b].
Proof. repeat constructor; try reflexivity; vm_compute; discriminate. Qed.

(** On a filesystem that ignores case, the files A and a of the archive
    are one file: it holds what was written last, under either
    spelling. *)
Lemma two_spellings_one_file :
  let h := case_blind_host in
  exists w',
    unpack_archive h three_files_archive "dest" empty_world = Some (1, w')
    /\ fs w' !! resolve h "dest\A" = Some (File (list_byte_of_string "2"))
    /\ fs w' !! resolve h "dest\a" = Some (File (list_byte_of_string "2"))
    /\ fs w' !! resolve h "dest\b" = Some (File (list_byte_of_string "3")).
Proof.
  cbv zeta. eexists. split; [vm_compute; reflexivity|].
  repeat split; vm_compute; reflexivity.
Qed.

(** The three files on a filesystem that ignores case: the file a, which
    is written after A under the same name and is followed by b, holds
    its own payload. *)
Lemma extracted_file_holds_payload_witness :
  let h := case_blind_host in
  let header := [x03; x00; x00; x00] in
  exists w',
    (decompress h three_files_archive
     = Some (encode_archive header ([file_upper_a] ++ file_lower_a :: [file_b]))
     /\ length header = 4%nat
     /\ Forall valid_entry ([file_upper_a] ++ file_lower_a :: [file_b])
     /\ entry_tag file_lower_a <> "DIR"%string
     /\ (forall e', In e' [file_b] -> entry_tag e' <> "DIR"%string ->
                    resolve h (file_of_entry h "dest" (e_name e'))
                    <> resolve h (file_of_entry h "dest" (e_name file_lower_a)))
     /\ unpack_archive h three_files_archive "dest" empty_world = Some (1, w'))
    /\ fs w' !! resolve h (file_of_entry h "dest" (e_name file_lower_a))
       = Some (File (e_payload file_lower_a)).
Proof.
  cbv zeta.
  assert (Htag : entry_tag file_lower_a <> "DIR"%string)
    by (vm_compute; discriminate).
  assert (Hother :
            forall e', In e' [file_b] -> entry_tag e' <> "DIR"%string ->
              resolve case_blind_host
                (file_of_entry case_blind_host "dest" (e_name e'))
              <> resolve case_blind_host
                   (file_of_entry case_blind_host "dest" (e_name file_lower_a))).
  { intros e' [<-|[]] _. vm_compute. discriminate. }
  destruct (unpack_archive case_blind_host three_files_archive "dest"
              empty_world) as [[ok w']|] eqn:Hrun;
    [|vm_compute in Hrun; discriminate].
  assert (Hok : ok = 1) by (vm_compute in Hrun; congruence).
  subst ok. exists w'.
  split.
  { split; [reflexivity|]. split; [reflexivity|].
    split; [exact valid_three_files|]. split; [exact Htag|].
    split; [exact Hother|reflexivity]. }
  exact (extracted_file_holds_payload case_blind_host three_files_archive
           "dest" empty_world w' [x03; x00; x00; x00] [file_upper_a] [file_b]
           file_lower_a eq_refl eq_refl valid_three_files Htag Hother Hrun).
Defined.

(** The directory part of the file of the two-entry archive exists. *)
Lemma extracted_directory_exists_witness :
  let h := plain_host true in
  let header := [x02; x00; x00; x00] in
  let path := entry_path h "dest" (e_name two_entry_file) in
  exists w',
    (decompress h two_entry_archive
     = Some (encode_archive header ([two_entry_dir] ++ two_entry_file :: []))
     /\ length header = 4%nat
     /\ Forall valid_entry ([two_entry_dir] ++ two_entry_file :: [])
     /\ nothing_to_do (Some (get_directory path)) = false
     /\ unpack_archive h two_entry_archive "dest" empty_world = Some (1, w'))
    /\ fs w' !! resolve h (created_name (Some (get_directory path)))
       = Some Dir.
Proof.
  cbv zeta.
  destruct (unpack_archive (plain_host true) two_entry_archive "dest"
              empty_world) as [[ok w']|] eqn:Hrun;
    [|vm_compute in Hrun; discriminate].
  assert (Hok : ok = 1) by (vm_compute in Hrun; congruence).
  subst ok. exists w'.
  split; [repeat split; exact valid_two_entries|].
  exact (extracted_directory_exists (plain_host true) two_entry_archive
           "dest" empty_world w' [x02; x00; x00; x00] [two_entry_dir] []
           two_entry_file eq_refl eq_refl valid_two_entries eq_refl Hrun).
Defined.

(** The scenario archive with an entry count of 7 instead of 1. *)
Lemma entry_count_is_advisory_witness :
  let h := plain_host false in
  let body := skipn 4 scenario_archive in
  let header1 := [x01; x00; x00; x00] in
  let header2 := [x07; x00; x00; x00] in
  exists w1,
    (decompress h (header1 ++ body) = Some (header1 ++ body)
     /\ decompress h (header2 ++ body) = Some (header2 ++ body)
     /\ length header1 = 4%nat /\ length header2 = 4%nat
     /\ unpack_archive h (header1 ++ body) "dest" empty_world = Some (1, w1))
    /\ exists w2,
         unpack_archive h (header2 ++ body) "dest" empty_world = Some (1, w2)
         /\ fs w2 = fs w1
         /\ map erase_num (log w2) = map erase_num (log w1).
Proof.
  cbv zeta.
  destruct (unpack_archive (plain_host false)
              ([x01; x00; x00; x00] ++ skipn 4 scenario_archive) "dest"
              empty_world) as [[ok w1]|] eqn:Hrun;
    [|vm_compute in Hrun; discriminate].
  assert (Hok : ok = 1) by (vm_compute in Hrun; congruence).
  subst ok. exists w1. split; [repeat split; reflexivity|].
  exact (entry_count_is_advisory (plain_host false) _ _
           [x01; x00; x00; x00] [x07; x00; x00; x00]
           (skipn 4 scenario_archive) "dest" empty_world w1 1
           eq_refl eq_refl eq_refl eq_refl Hrun).
Defined.

(** The scenario archive with two bytes behind its END tag. *)
Lemma bytes_after_END_are_ignored_witness :
  let h := plain_host false in
  let header := [x01; x00; x00; x00] in
  let trailing := [x2a; x2a] in
  (decompress h scenario_archive
   = Some (encode_archive header [scenario_entry])
   /\ decompress h (scenario_archive ++ trailing)
      = Some (encode_archive header [scenario_entry] ++ trailing)
   /\ length header = 4%nat
   /\ Forall valid_entry [scenario_entry])
  /\ unpack_archive h (scenario_archive ++ trailing) "dest" empty_world
     = unpack_archive h scenario_archive "dest" empty_world
  /\ exists ok w',
       unpack_archive h scenario_archive "dest" empty_world = Some (ok, w').
Proof.
  cbv zeta.
  assert (Hvalid : Forall valid_entry [scenario_entry]).
  { constructor; [|constructor].
    repeat split; try reflexivity. vm_compute. discriminate. }
  split; [repeat split; exact Hvalid|].
  exact (bytes_after_END_are_ignored (plain_host false) scenario_archive
           (scenario_archive ++ [x2a; x2a]) [x01; x00; x00; x00] [x2a; x2a]
           [scenario_entry] "dest" empty_world eq_refl eq_refl eq_refl Hvalid).
Defined.

(* ------------------------------------------------------------------ *)
(** ** The lzma reader *)


Lemma int_of_long_long_low (low high : Z) :
  0 <= low < 2 ^ 32 -> 0 <= high < 2 ^ 32 ->
  int_of_long_long (long_long_of (low + high * 2 ^ 32)) = int_of_unsigned low.
Proof.
  intros Hlow Hhigh. unfold int_of_long_long, long_long_of. cbv zeta.
  change (2 ^ 64) with (2 ^ 32 * 2 ^ 32). change (2 ^ 63) with (2 ^ 31 * 2 ^ 32).
  rewrite (Z.mod_small (low + high * 2 ^ 32)) by nia.
  f_equal.
  destruct (low + high * 2 ^ 32 <? 2 ^ 31 * 2 ^ 32).
  - rewrite Z_mod_plus_full. apply Z.mod_small. exact Hlow.
  - replace (low + high * 2 ^ 32 - 2 ^ 32 * 2 ^ 32)
      with (low + (high - 2 ^ 32) * 2 ^ 32) by ring.
    rewrite Z_mod_plus_full. apply Z.mod_small. exact Hlow.
Qed.

Lemma lzma_uncompressed_size_low (b0 b1 b2 b3 b4 b5 b6 b7 : byte)
    (rest : list byte) :
  lzma_uncompressed_size (b0 :: b1 :: b2 :: b3 :: b4 :: b5 :: b6 :: b7 :: rest)
  = int_of_bytes [b0; b1; b2; b3].
Proof.
  unfold lzma_uncompressed_size, int_of_bytes. cbv zeta. cbn [nth].
  pose proof (byte_val_range b0). pose proof (byte_val_range b1).
  pose proof (byte_val_range b2). pose proof (byte_val_range b3).
  pose proof (byte_val_range b4). pose proof (byte_val_range b5).
  pose proof (byte_val_range b6). pose proof (byte_val_range b7).
  rewrite (lor_shiftl_add (byte_val b0) (byte_val b1) 8) by lia.
  rewrite (lor_shiftl_add _ (byte_val b2) 16) by lia.
  rewrite (lor_shiftl_add _ (byte_val b3) 24) by lia.
  rewrite (lor_shiftl_add _ (byte_val b4) 32) by lia.
  rewrite (lor_shiftl_add _ (byte_val b5) 40) by lia.
  rewrite (lor_shiftl_add _ (byte_val b6) 48) by lia.
  rewrite (lor_shiftl_add _ (byte_val b7) 56) by lia.
  set (low := byte_val b0 + byte_val b1 * 2 ^ 8 + byte_val b2 * 2 ^ 16
              + byte_val b3 * 2 ^ 24).
  replace (low + byte_val b4 * 2 ^ 32 + byte_val b5 * 2 ^ 40
           + byte_val b6 * 2 ^ 48 + byte_val b7 * 2 ^ 56)
    with (low + (byte_val b4 + byte_val b5 * 2 ^ 8 + byte_val b6 * 2 ^ 16
                 + byte_val b7 * 2 ^ 24) * 2 ^ 32)
    by (change (2 ^ 40) with (2 ^ 8 * 2 ^ 32);
        change (2 ^ 48) with (2 ^ 16 * 2 ^ 32);
        change (2 ^ 56) with (2 ^ 24 * 2 ^ 32); ring).
  apply int_of_long_long_low; subst low; lia.
Qed.

Section Lzma.

Variable d : lzma_decoder.

(** X13. [reader_init_lzma] on a buffer made of a properties header the
    decoder accepts, the eight bytes of the uncompressed size and the
    compressed payload: the reader is built, its input starts at the
    payload, and [available] is the size read little-endian from the
    first four of the eight bytes as an [int]; the upper four bytes of
    the declared size have no effect. *)
Theorem reader_init_lzma_reads_size (props size_low size_high payload
    : list byte) (properties : CLzmaProperties d) :
  length props = LZMA_PROPERTIES_SIZE d ->
  length size_low = 4%nat ->
  length size_high = 4%nat ->
  LzmaDecodeProperties d props = Some properties ->
  exists i,
    reader_init_lzma d (props ++ size_low ++ size_high ++ payload) = Some i
    /\ lz_available i = int_of_bytes size_low
    /\ lz_state i = LzmaDecoderInit d properties
    /\ skipn (Z.to_nat (lz_pos i)) (lz_mem i) = payload
    /\ firstn (Z.to_nat (lz_len i - lz_pos i))
              (skipn (Z.to_nat (lz_pos i)) (lz_mem i)) = payload.
Proof.
  intros Hprops Hlow Hhigh Hdec. unfold reader_init_lzma.
  rewrite <- !Hprops. rewrite take_app_length, Hdec.
  eexists. split; [reflexivity|]. simpl.
  rewrite Z.add_0_l, Nat2Z.id, drop_app_length.
  destruct size_low as [|b0 [|b1 [|b2 [|b3 [|? ?]]]]]; try discriminate Hlow.
  destruct size_high as [|b4 [|b5 [|b6 [|b7 [|? ?]]]]]; try discriminate Hhigh.
  split; [apply lzma_uncompressed_size_low|]. split; [reflexivity|].
  assert (Hskip : skipn (Z.to_nat (Z.of_nat (length props) + 8))
                    (props ++ [b0; b1; b2; b3] ++ [b4; b5; b6; b7] ++ payload)
                  = payload).
  { replace (Z.to_nat (Z.of_nat (length props) + 8))
      with (length props + 8)%nat by lia.
    rewrite <- drop_drop, drop_app_length. reflexivity. }
  split; [exact Hskip|]. rewrite Hskip.
  apply firstn_all2. rewrite !length_app. simpl. lia.
Qed.







End Lzma.

(** A buffer that declares 3 bytes, with stray bytes in the upper half of
    the size field. *)
Lemma reader_init_lzma_reads_size_witness :
  let d := copying_decoder in
  let props := [x5d; x00; x00; x80; x00] in
  let size_low := [x03; x00; x00; x00] in
  let size_high := [xff; xff; xff; x7f] in
  let payload := list_byte_of_string "abcdef" in
  (length props = LZMA_PROPERTIES_SIZE d
   /\ length size_low = 4%nat /\ length size_high = 4%nat
   /\ LzmaDecodeProperties d props = Some tt)
  /\ exists i,
       reader_init_lzma d (props ++ size_low ++ size_high ++ payload) = Some i
       /\ lz_available i = int_of_bytes size_low
       /\ lz_state i = LzmaDecoderInit d tt
       /\ skipn (Z.to_nat (lz_pos i)) (lz_mem i) = payload
       /\ firstn (Z.to_nat (lz_len i - lz_pos i))
                 (skipn (Z.to_nat (lz_pos i)) (lz_mem i)) = payload.
Proof.
  cbv zeta. split; [repeat split|].
  exact (reader_init_lzma_reads_size copying_decoder
           [x5d; x00; x00; x80; x00] [x03; x00; x00; x00]
           [xff; xff; xff; x7f] (list_byte_of_string "abcdef") tt
           eq_refl eq_refl eq_refl eq_refl).
Defined.



(** Why the declared size must not have the top bit of its low word set:
    with eight bytes ff as the size, [available] starts at -1, the
    length handed to the decoder wraps to the largest [SizeT], and a
    read of 5 bytes delivers the 6 bytes the decoder has. *)
Lemma lzma_read_with_negative_available :
  let d := copying_decoder in
  let mem := [x5d; x00; x00; x80; x00] ++ repeat xff 8
             ++ list_byte_of_string "abcdef" in
  exists i i',
    reader_init_lzma d mem = Some i
    /\ lz_available i = -1
    /\ reader_lzma_read d i 5 = (6, list_byte_of_string "abcdef", i').
Proof.
  cbv zeta. do 2 eexists.
  split; [vm_compute; reflexivity|]. split; vm_compute; reflexivity.
Qed.

(* ------------------------------------------------------------------ *)
(** ** The zlibinflate reader *)

Section Zlib.

Variable c : zlib.

Lemma zlibinflate_loop_contract (fuel : nat) :
  forall (zs : z_stream (inflate_state c)) (input : reader_t) (pos len n : Z)
         (data : list byte) (r' : zlib_reader c),
    inflate_keeps_to_avail_out c ->
    0 <= zs_avail_out zs ->
    Z.of_nat (length (zs_written zs)) + zs_avail_out zs = len ->
    zlibinflate_loop c fuel zs input pos len = zlib_returns (n, data, r') ->
    Z.of_nat (length data) = n
    /\ 0 <= n <= len
    /\ zr_pos r' = pos + n
    /\ (n < len -> zr_internal r' = None).
Proof.
  induction fuel as [|fuel IH];
    intros zs input pos len n data r' Hc Hav Hinv; cbn [zlibinflate_loop];
    [discriminate|].
  set (refill := if zs_avail_in zs =? 0 then _ else _).
  assert (Hrefill : zs_written (fst refill) = zs_written zs
                    /\ zs_avail_out (fst refill) = zs_avail_out zs).
  { subst refill. destruct (zs_avail_in zs =? 0); [|split; reflexivity].
    destruct (reader_memread input ZLIB_BUFFER_SIZE) as [[k buf] input'].
    split; reflexivity. }
  destruct refill as [zs1 input1]. simpl in Hrefill.
  destruct Hrefill as [Hw1 Ha1].
  set (call := if negb (zs_avail_in zs1 =? 0) then _ else _).
  assert (Hcall : exists flush, inflate c zs1 flush = call).
  { subst call. destruct (negb _); eauto. }
  destruct Hcall as [flush Hcall]. destruct call as [ret zs2].
  destruct (Z.eqb_spec ret Z_OK) as [Hok|Hnok];
    destruct (Z.eqb_spec ret Z_STREAM_END) as [Hend|Hnend];
    cbn [negb andb]; try discriminate.
  - subst ret. discriminate Hend.
  - assert (Hav1 : 0 <= zs_avail_out zs1) by lia.
    destruct (Hc zs1 flush ret zs2 Hcall (or_introl Hok) Hav1)
      as (produced & Hw2 & Ha2 & Hpos2).
    destruct (Z.eqb_spec (zs_avail_out zs2) 0) as [Hfull|Hmore].
    + intros [= <- <- <-]. simpl. rewrite Hw2, length_app, Hw1 in *. lia.
    + apply IH; try assumption.
      rewrite Hw2, length_app, Hw1. lia.
  - assert (Hav1 : 0 <= zs_avail_out zs1) by lia.
    destruct (Hc zs1 flush ret zs2 Hcall (or_intror Hend) Hav1)
      as (produced & Hw2 & Ha2 & Hpos2).
    destruct (negb (inflateEnd c zs2 =? Z_OK)); [discriminate|].
    intros [= <- <- <-]. simpl. rewrite Hw2, length_app, Hw1 in *.
    repeat split; try lia. 
Qed.

(** X15. With a zlib whose [inflate] keeps to [avail_out], a call of
    [reader_zlibinflate] that returns delivers exactly as many bytes as
    it reports, at most [len] of them, and advances [pos] by that count.
    It delivers fewer than [len] bytes only when the stream has ended,
    and then it has dropped its state: from there on every call returns
    0 and changes nothing. *)
Theorem reader_zlibinflate_read_contract (fuel : nat) (reader : zlib_reader c)
    (len n : Z) (data : list byte) (reader' : zlib_reader c) :
  inflate_keeps_to_avail_out c ->
  0 <= len ->
  reader_zlibinflate c fuel reader len = zlib_returns (n, data, reader') ->
  Z.of_nat (length data) = n
  /\ 0 <= n <= len
  /\ zr_pos reader' = zr_pos reader + n
  /\ (n < len -> zr_internal reader' = None)
  /\ (zr_internal reader' = None ->
      forall fuel' len',
        reader_zlibinflate c fuel' reader' len' = zlib_returns (0, [], reader')).
Proof.
  intros Hc Hlen Hrun.
  assert (Hdone : zr_internal reader' = None ->
                  forall fuel' len',
                    reader_zlibinflate c fuel' reader' len'
                    = zlib_returns (0, [], reader')).
  { intros Hnone fuel' len'. unfold reader_zlibinflate. rewrite Hnone.
    reflexivity. }
  unfold reader_zlibinflate in Hrun.
  destruct (zr_internal reader) as [z|] eqn:Hint.
  - destruct (Z.eqb_spec len 0) as [->|Hpos].
    + injection Hrun as <- <- <-. simpl.
      repeat split; try lia. exact Hdone.
    + apply zlibinflate_loop_contract in Hrun;
        [|exact Hc|simpl; lia|simpl; lia].
      destruct Hrun as (Hn & Hrange & Hp & Hshort).
      repeat split; try assumption; lia.
  - injection Hrun as <- <- <-. simpl.
    repeat split; try lia; auto.
Qed.

End Zlib.

Lemma copying_zlib_keeps_to_avail_out : inflate_keeps_to_avail_out copying_zlib.
Proof.
  intros zs flush ret zs' Hcall _ Hav. simpl in Hcall.
  injection Hcall as _ <-. simpl.
  eexists. split; [reflexivity|]. split; [reflexivity|].
  rewrite length_firstn. simpl in Hav, zs.
  generalize dependent (zs_avail_out zs). intros avail Hav.
  generalize (length (zs_next_in zs)). intros a. lia.
Qed.

(** Five bytes behind the copying stand-in for zlib: three are asked for
    and delivered, then five are asked for and two delivered. *)
Lemma reader_zlibinflate_read_contract_witness :
  let input := reader_init_memreader (list_byte_of_string "hello") 5 in
  let reader :=
    mk_zlib_reader (c := copying_zlib)
      (Some (mk_zlibinflate (c := copying_zlib)
               (mk_z_stream tt [] 0 [] 0) input)) 0 in
  exists r1 r2,
    (inflate_keeps_to_avail_out copying_zlib
     /\ 0 <= 5
     /\ reader_zlibinflate copying_zlib 4 reader 3
        = zlib_returns (3, list_byte_of_string "hel", r1)
     /\ reader_zlibinflate copying_zlib 4 r1 5
        = zlib_returns (2, list_byte_of_string "lo", r2))
    /\ zr_pos r2 = zr_pos r1 + 2
    /\ (2 < 5 -> zr_internal r2 = None)
    /\ (zr_internal r2 = None ->
        forall fuel' len',
          reader_zlibinflate copying_zlib fuel' r2 len'
          = zlib_returns (0, [], r2)).
Proof.
  cbv zeta.
  destruct (reader_zlibinflate copying_zlib 4
              (mk_zlib_reader (c := copying_zlib)
                 (Some (mk_zlibinflate (c := copying_zlib)
                          (mk_z_stream tt [] 0 [] 0)
                          (reader_init_memreader
                             (list_byte_of_string "hello") 5))) 0) 3)
    as [[[n1 d1] r1]| |] eqn:Hrun1;
    [|vm_compute in Hrun1; discriminate|vm_compute in Hrun1; discriminate].
  assert (Hn1 : n1 = 3) by (vm_compute in Hrun1; congruence).
  assert (Hd1 : d1 = list_byte_of_string "hel")
    by (vm_compute in Hrun1; vm_compute; congruence).
  destruct (reader_zlibinflate copying_zlib 4 r1 5)
    as [[[n2 d2] r2]| |] eqn:Hrun2;
    [|vm_compute in Hrun1; injection Hrun1 as _ _ <-;
      vm_compute in Hrun2; discriminate
     |vm_compute in Hrun1; injection Hrun1 as _ _ <-;
      vm_compute in Hrun2; discriminate].
  assert (Hn2 : n2 = 2).
  { vm_compute in Hrun1. injection Hrun1 as _ _ <-.
    vm_compute in Hrun2. congruence. }
  assert (Hd2 : d2 = list_byte_of_string "lo").
  { vm_compute in Hrun1. injection Hrun1 as _ _ <-.
    vm_compute in Hrun2. vm_compute. congruence. }
  subst n1 d1 n2 d2. exists r1, r2.
  assert (H5 : 0 <= 5) by lia.
  split; [split; [exact copying_zlib_keeps_to_avail_out|
                  split; [exact H5|split; [reflexivity|exact Hrun2]]]|].
  destruct (reader_zlibinflate_read_contract copying_zlib 4 r1 5 2
              (list_byte_of_string "lo") r2 copying_zlib_keeps_to_avail_out
              H5 Hrun2) as (_ & _ & Hp & Hshort & Hdone).
  split; [exact Hp|]. split; [exact Hshort|exact Hdone].
Defined.
